(** * Stream controller of hls.js: a shallow embedding and its properties

    The embedding follows [src/controller/stream-controller.ts].  The
    controller is a JavaScript object mutated in place by its methods, so
    every method becomes a computation in a state-and-exception monad over
    a record [SC] holding the fields of [this], the objects it shares
    (fragments live in a store and are named by reference), and the log of
    what the method sent out ([hls.trigger], [media.play], ...).

    Conventions.
    - A JavaScript [number] that carries a time, a length or a rate is a
      rational [Q]; counters, sequence numbers and indices are [Z].
      [Infinity] appears only where the source writes it.
    - [undefined]/[null] is [None]; reading a property of it is the
      [Throw] outcome (a TypeError leaves the method at that point).
    - [hls.trigger(e, d)] appends [e] to the log; the listeners of the
      other controllers are outside this file.
    - Code of the repository that the controller calls but that is not in
      [stream-controller.ts] (buffer helper, fragment tracker, fragment
      finders, level helper, the base controller's loaders) is taken as
      the interface [Collaborators]/[BaseController]. *)

From Stdlib Require Import ZArith QArith Qminmax Bool List String Lia Lqa.
From Stdlib Require Import Qpower.
From stdpp Require Import base option list gmap.

Local Open Scope Z_scope.

(** ** Numbers *)

(** [if (x)] on a number: zero is falsy. *)
Definition truthyQ (x : Q) : bool := negb (Qeq_bool x 0).
Definition truthyZ (x : Z) : bool := negb (x =? 0).

(** [a < b], [a > b], [a >= b] on rationals, as booleans. *)
Definition Qltb (a b : Q) : bool := negb (Qle_bool b a).
Definition Qgtb (a b : Q) : bool := Qltb b a.
Definition Qgeb (a b : Q) : bool := Qle_bool b a.

(** A number that may be infinite: [Number.POSITIVE_INFINITY] as a flush
    bound, and [liveMaxLatencyDurationCount], whose default is [Infinity].
    The operations are the ones the controller applies to such a number. *)
Inductive ExtQ := Finite (q : Q) | PosInfinity | NegInfinity | NaN.

(** [a * q] *)
Definition ExtQ_mul (a : ExtQ) (q : Q) : ExtQ :=
  match a with
  | Finite x => Finite (x * q)
  | PosInfinity =>
      if Qltb 0 q then PosInfinity else if Qeq_bool q 0 then NaN else NegInfinity
  | NegInfinity =>
      if Qltb 0 q then NegInfinity else if Qeq_bool q 0 then NaN else PosInfinity
  | NaN => NaN
  end.

(** [e - b] *)
Definition ExtQ_rsub (e : Q) (b : ExtQ) : ExtQ :=
  match b with
  | Finite x => Finite (e - x)
  | PosInfinity => NegInfinity
  | NegInfinity => PosInfinity
  | NaN => NaN
  end.

(** [Math.max(a, b)] *)
Definition ExtQ_max (a : Q) (b : ExtQ) : ExtQ :=
  match b with
  | Finite x => Finite (Qmax a x)
  | PosInfinity => PosInfinity
  | NegInfinity => Finite a
  | NaN => NaN
  end.

(** [x < b] *)
Definition ExtQ_gtb (b : ExtQ) (x : Q) : bool :=
  match b with
  | Finite y => Qltb x y
  | PosInfinity => true
  | NegInfinity | NaN => false
  end.

(** [arr[i]] for a JavaScript array and an integer index: [undefined]
    out of range, also for negative indices. *)
Definition at_index {A} (arr : list A) (i : Z) : option A :=
  if i <? 0 then None else arr !! Z.to_nat i.

(** ** Data model *)

(** [State] of base-stream-controller, as the controller names it. *)
Inductive State :=
| STOPPED | IDLE | WAITING_LEVEL | KEY_LOADING | FRAG_LOADING
| FRAG_LOADING_WAITING_RETRY | PARSING | PARSED | BUFFER_FLUSHING
| ENDED | ERROR.

Definition State_eqb (a b : State) : bool :=
  match a, b with
  | STOPPED, STOPPED | IDLE, IDLE | WAITING_LEVEL, WAITING_LEVEL
  | KEY_LOADING, KEY_LOADING | FRAG_LOADING, FRAG_LOADING
  | FRAG_LOADING_WAITING_RETRY, FRAG_LOADING_WAITING_RETRY
  | PARSING, PARSING | PARSED, PARSED | BUFFER_FLUSHING, BUFFER_FLUSHING
  | ENDED, ENDED | ERROR, ERROR => true
  | _, _ => false
  end.

(** [FragmentState] of the fragment tracker. *)
Inductive FragmentState := NOT_LOADED | LOADING | PARTIAL | APPENDING | OK.

(** [ErrorDetails], the members [onError] switches on and one for the rest. *)
Inductive ErrorDetails :=
| FRAG_LOAD_ERROR | FRAG_LOAD_TIMEOUT | KEY_LOAD_ERROR | KEY_LOAD_TIMEOUT
| LEVEL_LOAD_ERROR | LEVEL_LOAD_TIMEOUT | BUFFER_FULL_ERROR
| OTHER_ERROR.

(** [frag.sn]: a number, or the string ['initSegment']. *)
Inductive SN := SnNumber (n : Z) | SnInitSegment.

Definition SN_eqb (a b : SN) : bool :=
  match a, b with
  | SnNumber x, SnNumber y => x =? y
  | SnInitSegment, SnInitSegment => true
  | _, _ => false
  end.

(** [Number.isFinite(frag.sn)]. *)
Definition SN_isFinite (a : SN) : bool :=
  match a with SnNumber _ => true | SnInitSegment => false end.

(** [sn - k]: [NaN] ([None]) when [sn] is not a number. *)
Definition SN_minus (a : SN) (k : Z) : option Z :=
  match a with SnNumber n => Some (n - k) | SnInitSegment => None end.

(** A fragment object is named by its reference in the store. *)
Abbreviation FragRef := nat.

(** Field update: [setter eta proj] builds [fun v r => mk .. v ..] from
    the eta-expansion [eta] of the record, replacing projection [proj]. *)
Ltac setter eta proj :=
  let e := eval cbv delta [eta] in eta in
  lazymatch eval pattern proj in e with
  | ?F _ => let u := eval cbv beta in (fun v => F (fun _ => v)) in exact u
  end.

Module Timing.
(** The attributes of a fragment that [updateFragPTSDTS] of the level
    helper rewrites. *)
Record t := mk {
  start : Q;
  duration : Q;
  startPTS : Q;
  endPTS : Q;
  maxStartPTS : Q;
  deltaPTS : option Q
}.
End Timing.

Module Fragment.
Record t := mk {
  sn : SN;
  level : Z;
  type : string;
  cc : Z;
  encrypted : bool;
  programDateTime : option Q;
  endProgramDateTime : option Q;
  time : Timing.t;
  backtracked : bool;
  dropped : Z;
  hasLoader : bool;
  autoLevel : bool;
  bitrateTest : bool;
  hasData : bool;
  hasAudio : bool;
  hasVideo : bool
}.
Definition eta (f : t) : t :=
  mk (sn f) (level f) (type f) (cc f) (encrypted f) (programDateTime f)
     (endProgramDateTime f) (time f) (backtracked f) (dropped f)
     (hasLoader f) (autoLevel f) (bitrateTest f) (hasData f)
     (hasAudio f) (hasVideo f).
Definition set_time : Timing.t -> t -> t := ltac:(setter eta time).
Definition set_backtracked : bool -> t -> t := ltac:(setter eta backtracked).
Definition set_dropped : Z -> t -> t := ltac:(setter eta dropped).
Definition set_autoLevel : bool -> t -> t := ltac:(setter eta autoLevel).
Definition set_bitrateTest : bool -> t -> t := ltac:(setter eta bitrateTest).
Definition set_hasAudio : bool -> t -> t := ltac:(setter eta hasAudio).
Definition set_hasVideo : bool -> t -> t := ltac:(setter eta hasVideo).
(** [frag.start], [frag.duration], ... read through [time]. *)
Definition start (f : t) : Q := Timing.start (time f).
Definition duration (f : t) : Q := Timing.duration (time f).
Definition default : t :=
  mk SnInitSegment 0 EmptyString 0 false None None
     (Timing.mk 0 0 0 0 0 None) false 0 false false false false false false.
End Fragment.

#[global] Instance Fragment_inhabited : Inhabited Fragment.t :=
  populate Fragment.default.

(** [media.buffered] and [sourceBuffer.buffered]: ordered disjoint ranges. *)
Abbreviation TimeRanges := (list (Q * Q)).

Module Media.
(** The media element, as far as the controller reads and writes it. *)
Record t := mk {
  currentTime : Q;
  paused : bool;
  readyState : Z;
  seeking : bool;
  duration : ExtQ;
  buffered : TimeRanges
}.
Definition eta (m : t) : t :=
  mk (currentTime m) (paused m) (readyState m) (seeking m) (duration m)
     (buffered m).
Definition set_currentTime : Q -> t -> t := ltac:(setter eta currentTime).
Definition set_paused : bool -> t -> t := ltac:(setter eta paused).
End Media.

(** [this.mediaBuffer]: the media element itself, or a source buffer. *)
Inductive MediaBufferRef := TheMedia | SourceBuffer (buffered : TimeRanges).

Module BufferInfo.
(** The result of [BufferHelper.bufferInfo]. *)
Record t := mk { len : Q; start : Q; end_ : Q; nextStart : option Q }.
End BufferInfo.

Module Config.
(** [hls.config], the options the controller reads. *)
Record t := mk {
  maxBufferLength : Q;
  maxMaxBufferLength : Q;
  maxBufferSize : Q;
  maxBufferHole : Q;
  maxFragLookUpTolerance : Q;
  liveSyncDuration : option Q;
  liveSyncDurationCount : Q;
  liveMaxLatencyDuration : option Q;
  liveMaxLatencyDurationCount : ExtQ;
  initialLiveManifestSize : Z;
  startFragPrefetch : bool;
  fragLoadingMaxRetry : Z;
  fragLoadingRetryDelay : Q;
  fragLoadingMaxRetryTimeout : Q
}.
Definition eta (c : t) : t :=
  mk (maxBufferLength c) (maxMaxBufferLength c) (maxBufferSize c)
     (maxBufferHole c) (maxFragLookUpTolerance c) (liveSyncDuration c)
     (liveSyncDurationCount c) (liveMaxLatencyDuration c)
     (liveMaxLatencyDurationCount c) (initialLiveManifestSize c)
     (startFragPrefetch c) (fragLoadingMaxRetry c) (fragLoadingRetryDelay c)
     (fragLoadingMaxRetryTimeout c).
Definition set_maxMaxBufferLength : Q -> t -> t :=
  ltac:(setter eta maxMaxBufferLength).
End Config.

Module LevelDetails.
Record t := mk {
  fragments : list FragRef;
  startSN : Z;
  endSN : Z;
  live : bool;
  PTSKnown : bool;
  hasProgramDateTime : bool;
  initSegment : option FragRef;
  targetduration : Q;
  totalduration : Q
}.
Definition eta (d : t) : t :=
  mk (fragments d) (startSN d) (endSN d) (live d) (PTSKnown d)
     (hasProgramDateTime d) (initSegment d) (targetduration d)
     (totalduration d).
Definition set_PTSKnown : bool -> t -> t := ltac:(setter eta PTSKnown).
End LevelDetails.

Module Level.
Record t := mk { bitrate : Q; details : option LevelDetails.t }.
Definition set_details (v : option LevelDetails.t) (l : t) : t :=
  mk (bitrate l) v.
End Level.

Module ErrorData.
(** The data of an [ERROR] event. *)
Record t := mk {
  details : ErrorDetails;
  fatal : bool;
  frag : option FragRef;
  parent : string;
  levelRetry : bool
}.
Definition set_fatal (v : bool) (d : t) : t :=
  mk (details d) v (frag d) (parent d) (levelRetry d).
End ErrorData.

Module Remuxed.
(** One track of a remux result ([audio], [video]).  [endPTS]/[endDTS]
    are [None] when not finite; [data1]/[data2] are the lengths of the
    two chunks, [None] when the chunk is absent. *)
Record t := mk {
  type : string;
  startPTS : Q;
  endPTS : option Q;
  startDTS : Q;
  endDTS : option Q;
  hasAudio : bool;
  hasVideo : bool;
  dropped : Z;
  data1 : option nat;
  data2 : option nat
}.
Definition set_end (p d : option Q) (r : t) : t :=
  mk (type r) (startPTS r) p (startDTS r) d (hasAudio r) (hasVideo r)
     (dropped r) (data1 r) (data2 r).
End Remuxed.

Module InitSegment.
(** [remuxResult.initSegment]: [tracks] lists the track names in key
    order, each with the length of its [initSegment], if it has one. *)
Record t := mk {
  tracks : option (list (string * option nat));
  initPTS : option Q
}.
End InitSegment.

Module TransmuxResult.
Record t := mk {
  audio : option Remuxed.t;
  video : option Remuxed.t;
  text : bool;
  id3 : bool;
  initSegment : option InitSegment.t;
  id_level : Z;
  id_sn : SN
}.
End TransmuxResult.

Module Event.
(** What a method sends out: the events it triggers on the bus and the
    calls it makes on the media element and on a fragment's loader. *)
Inductive t :=
| BUFFER_EOS (type : option string)
| KEY_LOADING (frag : FragRef)
| BUFFER_FLUSHING (startOffset : Q) (endOffset : ExtQ) (type : option string)
| FRAG_CHANGED (frag : FragRef)
| LEVEL_SWITCHED (level : Z)
| BUFFER_CODECS (tracks : list (string * option nat))
| BUFFER_APPENDING (type : string) (data : nat) (parent content : string)
| FRAG_PARSING_INIT_SEGMENT (frag : FragRef)
| INIT_PTS_FOUND (frag : FragRef) (initPTS : Q)
| FRAG_PARSING_METADATA (frag : FragRef)
| FRAG_PARSING_USERDATA (frag : FragRef)
| LEVEL_PTS_UPDATED (level : nat) (drift : Q) (type : string) (start end_ : Q)
| FRAG_LOADING (frag : FragRef)
| media_pause
| media_play
| loader_abort (frag : FragRef).
End Event.

(** ** The monad of methods: state, and the TypeError exit *)

Inductive Res (St A : Type) :=
| Done (a : A) (s : St)
| TypeError (s : St).
Arguments Done {St A} a s.
Arguments TypeError {St A} s.

Definition final {St A} (r : Res St A) : St :=
  match r with Done _ s | TypeError s => s end.

(** The value a method returned, if it did return. *)
Definition returned {St A} (r : Res St A) : option A :=
  match r with Done a _ => Some a | TypeError _ => None end.

Definition Method (St A : Type) : Type := St -> Res St A.

Definition ret {St A} (a : A) : Method St A := fun s => Done a s.
Definition bind {St A B} (m : Method St A) (k : A -> Method St B)
  : Method St B :=
  fun s => match m s with
           | Done a s' => k a s'
           | TypeError s' => TypeError s'
           end.
Definition gets {St A} (f : St -> A) : Method St A := fun s => Done (f s) s.
Definition modify {St} (f : St -> St) : Method St unit :=
  fun s => Done tt (f s).
Definition throw {St A} : Method St A := fun s => TypeError s.
(** reading a property of a value that may be [undefined] *)
Definition unwrap {St A} (o : option A) : Method St A :=
  match o with Some a => ret a | None => throw end.
Definition when {St} (b : bool) (m : Method St unit) : Method St unit :=
  if b then m else ret tt.

Declare Scope js_scope.
Delimit Scope js_scope with js.
Notation "x <- m ;; k" := (bind m (fun x => k))
  (at level 100, m at next level, k at level 200, right associativity)
  : js_scope.
Notation "m ;; k" := (bind m (fun _ => k))
  (at level 100, k at level 200, right associativity) : js_scope.

(** ** Collaborators

    The code the controller calls that is not part of
    [stream-controller.ts], by the interface the controller uses. *)

Module TimingUpdate.
(** What [LevelHelper.updateFragPTSDTS] leaves behind: the timing of
    every fragment, [details.PTSKnown], and the drift it returns. *)
Record t := mk {
  timingOf : FragRef -> Timing.t -> Timing.t;
  PTSKnown : bool;
  drift : Q
}.
End TimingUpdate.

Class Collaborators := {
  (** the fragment tracker object and the methods called on it *)
  FragmentTracker : Type;
  tracker_getState : FragmentTracker -> Fragment.t -> FragmentState;
  tracker_removeFragment : FragmentTracker -> Fragment.t -> FragmentTracker;
  tracker_getBufferedFrag :
    FragmentTracker -> gmap nat Fragment.t -> Q -> option FragRef;
  (** [BufferHelper.isBuffered(media, position)] *)
  isBuffered : Media.t -> Q -> bool;
  (** [BufferHelper.bufferInfo(media, pos, maxHoleDuration)] *)
  bufferInfo : option TimeRanges -> Q -> Q -> BufferInfo.t;
  (** [findFragmentByPDT(fragments, PDTValue, maxFragLookUpTolerance)] *)
  findFragmentByPDT :
    gmap nat Fragment.t -> list FragRef -> option Q -> Q -> option FragRef;
  (** [findFragmentByPTS(fragPrevious, fragments, bufferEnd, tolerance)] *)
  findFragmentByPTS :
    gmap nat Fragment.t -> option FragRef -> list FragRef -> Q -> Q ->
    option FragRef;
  (** [LevelHelper.updateFragPTSDTS(details, frag, startPTS, endPTS,
      startDTS, endDTS)] *)
  updateFragPTSDTS :
    gmap nat Fragment.t -> option LevelDetails.t -> FragRef ->
    Q -> Q -> Q -> option Q -> TimingUpdate.t;
  (** [gapController.poll(lastCurrentTime, buffered)], which may move
      [media.currentTime] *)
  gapController_poll : Q -> TimeRanges -> Media.t -> Media.t
}.

Section Controller.
Context `{C : Collaborators}.

(** ** The controller: the fields of [this] and what they refer to *)

Record SC := mkSC {
  state : State;
  level : Z;
  levels : option (list Level.t);
  levelLastLoaded : option Z;
  fragCurrent : option FragRef;
  fragPrevious : option FragRef;
  fragPlaying : option FragRef;
  fragLoadError : Z;
  retryDate : Q;
  nextLoadPosition : Q;
  startPosition : Q;
  lastCurrentTime : Q;
  liveSyncPosition : option Q;
  startFragRequested : bool;
  loadedmetadata : bool;
  bitrateTest : bool;
  altAudio : bool;
  immediateSwitch : bool;
  previouslyPaused : bool;
  pendingBuffering : bool;
  appended : bool;
  media : option Media.t;
  mediaBuffer : option MediaBufferRef;
  config : Config.t;
  (** [hls.nextLoadLevel] and [hls.autoLevelEnabled] *)
  nextLoadLevel : Z;
  autoLevelEnabled : bool;
  fragmentTracker : FragmentTracker;
  (** the fragment objects, by reference *)
  frags : gmap nat Fragment.t;
  (** [window.performance.now()] *)
  now : Q;
  (** what was sent out, oldest first *)
  log : list Event.t
}.

Definition SC_eta (s : SC) : SC :=
  mkSC (state s) (level s) (levels s) (levelLastLoaded s) (fragCurrent s)
    (fragPrevious s) (fragPlaying s) (fragLoadError s) (retryDate s)
    (nextLoadPosition s) (startPosition s) (lastCurrentTime s)
    (liveSyncPosition s) (startFragRequested s) (loadedmetadata s)
    (bitrateTest s) (altAudio s) (immediateSwitch s) (previouslyPaused s)
    (pendingBuffering s) (appended s) (media s) (mediaBuffer s) (config s)
    (nextLoadLevel s) (autoLevelEnabled s) (fragmentTracker s) (frags s)
    (now s) (log s).

Definition set_state : State -> SC -> SC := ltac:(setter SC_eta state).
Definition set_level : Z -> SC -> SC := ltac:(setter SC_eta level).
Definition set_levels : option (list Level.t) -> SC -> SC :=
  ltac:(setter SC_eta levels).
Definition set_fragCurrent : option FragRef -> SC -> SC :=
  ltac:(setter SC_eta fragCurrent).
Definition set_fragPrevious : option FragRef -> SC -> SC :=
  ltac:(setter SC_eta fragPrevious).
Definition set_fragPlaying : option FragRef -> SC -> SC :=
  ltac:(setter SC_eta fragPlaying).
Definition set_fragLoadError : Z -> SC -> SC :=
  ltac:(setter SC_eta fragLoadError).
Definition set_retryDate : Q -> SC -> SC := ltac:(setter SC_eta retryDate).
Definition set_nextLoadPosition : Q -> SC -> SC :=
  ltac:(setter SC_eta nextLoadPosition).
Definition set_lastCurrentTime : Q -> SC -> SC :=
  ltac:(setter SC_eta lastCurrentTime).
Definition set_liveSyncPosition : option Q -> SC -> SC :=
  ltac:(setter SC_eta liveSyncPosition).
Definition set_startFragRequested : bool -> SC -> SC :=
  ltac:(setter SC_eta startFragRequested).
Definition set_loadedmetadata : bool -> SC -> SC :=
  ltac:(setter SC_eta loadedmetadata).
Definition set_immediateSwitch : bool -> SC -> SC :=
  ltac:(setter SC_eta immediateSwitch).
Definition set_previouslyPaused : bool -> SC -> SC :=
  ltac:(setter SC_eta previouslyPaused).
Definition set_pendingBuffering : bool -> SC -> SC :=
  ltac:(setter SC_eta pendingBuffering).
Definition set_appended : bool -> SC -> SC := ltac:(setter SC_eta appended).
Definition set_media : option Media.t -> SC -> SC :=
  ltac:(setter SC_eta media).
Definition set_config : Config.t -> SC -> SC := ltac:(setter SC_eta config).
Definition set_nextLoadLevel : Z -> SC -> SC :=
  ltac:(setter SC_eta nextLoadLevel).
Definition set_fragmentTracker : FragmentTracker -> SC -> SC :=
  ltac:(setter SC_eta fragmentTracker).
Definition set_frags : gmap nat Fragment.t -> SC -> SC :=
  ltac:(setter SC_eta frags).
Definition set_log : list Event.t -> SC -> SC := ltac:(setter SC_eta log).

(** A method of the controller. *)
Abbreviation M := (Method SC).
Local Open Scope js_scope.

(** [this.f = v] *)
Definition assign {A} (set : A -> SC -> SC) (v : A) : M unit :=
  modify (set v).
(** [hls.trigger(event, data)], and the calls recorded with the events *)
Definition trigger (e : Event.t) : M unit :=
  modify (fun s => set_log (log s ++ [e]) s).
(** the fragment object behind a reference *)
Definition deref (r : FragRef) : M Fragment.t :=
  gets (fun s => frags s !!! r).
(** [frag.f = v] on the fragment object behind [r] *)
Definition update_frag (r : FragRef) (f : Fragment.t -> Fragment.t) : M unit :=
  modify (fun s => set_frags (<[r := f (frags s !!! r)]> (frags s)) s).

(** [a === b] on two fragment objects, and [a !== b]. *)
Definition same_object (a b : option FragRef) : bool :=
  match a, b with
  | Some x, Some y => Nat.eqb x y
  | None, None => true
  | _, _ => false
  end.

(** ** Methods of the controller *)

(** [flushMainBuffer (startOffset, endOffset)], lines 660-669. *)
Definition flushMainBuffer (startOffset : Q) (endOffset : ExtQ) : M unit :=
  assign set_state BUFFER_FLUSHING ;;
  alt <- gets altAudio ;;
  trigger (Event.BUFFER_FLUSHING startOffset endOffset
             (if alt then Some "video"%string else None)).

(** [_reduceMaxBufferLength (minLength)], lines 1066-1075. *)
Definition _reduceMaxBufferLength (minLength : Q) : M bool :=
  cfg <- gets config ;;
  if Qgeb (Config.maxMaxBufferLength cfg) minLength then
    assign set_config
      (Config.set_maxMaxBufferLength
         (Config.maxMaxBufferLength cfg / 2)%Q cfg) ;;
    ret true
  else ret false.

(** The load failures [onError] retries, lines 1000-1003. *)
Definition retryable (d : ErrorDetails) : bool :=
  match d with
  | FRAG_LOAD_ERROR | FRAG_LOAD_TIMEOUT | KEY_LOAD_ERROR | KEY_LOAD_TIMEOUT => true
  | _ => false
  end.

(** [data.frag || this.fragCurrent], line 990. *)
Definition error_frag (s : SC) (data : ErrorData.t) : option FragRef :=
  match ErrorData.frag data with Some f => Some f | None => fragCurrent s end.

(** [frag && frag.type !== 'main'], line 992. *)
Definition not_main_frag (s : SC) (data : ErrorData.t) : bool :=
  match error_frag s data with
  | Some f => negb (String.eqb (Fragment.type (frags s !!! f)) "main")
  | None => false
  end.

(** [mediaBuffered], line 997. *)
Definition mediaBuffered (s : SC) : bool :=
  match media s with
  | Some m => isBuffered m (Media.currentTime m)
              && isBuffered m (Media.currentTime m + 0.5)%Q
  | None => false
  end.

(** [onError (data)], lines 989-1064.  The event object is mutated
    ([data.fatal = true]); the method returns it as it leaves it. *)
Definition onError (data : ErrorData.t) : M ErrorData.t :=
  frag <- gets (fun s => error_frag s data) ;;
  other <- gets (fun s => not_main_frag s data) ;;
  if other : bool then ret data
  else
    mediaBuffered <- gets mediaBuffered ;;
    match ErrorData.details data with
    | FRAG_LOAD_ERROR | FRAG_LOAD_TIMEOUT | KEY_LOAD_ERROR | KEY_LOAD_TIMEOUT =>
        if negb (ErrorData.fatal data) then
          n <- gets fragLoadError ;;
          cfg <- gets config ;;
          if n + 1 <=? Config.fragLoadingMaxRetry cfg then
            let delay :=
              Qmin (2 ^ n * Config.fragLoadingRetryDelay cfg)%Q
                   (Config.fragLoadingMaxRetryTimeout cfg) in
            (* the warning reads [frag.sn] and [frag.level] *)
            _ <- unwrap frag ;;
            t <- gets now ;;
            assign set_retryDate (t + delay)%Q ;;
            loaded <- gets loadedmetadata ;;
            when (negb loaded)
              (assign set_startFragRequested false ;;
               p <- gets startPosition ;;
               assign set_nextLoadPosition p) ;;
            n' <- gets fragLoadError ;;
            assign set_fragLoadError (n' + 1) ;;
            assign set_state FRAG_LOADING_WAITING_RETRY ;;
            ret data
          else
            assign set_state ERROR ;;
            ret (ErrorData.set_fatal true data)
        else ret data
    | LEVEL_LOAD_ERROR | LEVEL_LOAD_TIMEOUT =>
        st <- gets state ;;
        if negb (State_eqb st ERROR) then
          if ErrorData.fatal data then
            assign set_state ERROR ;; ret data
          else
            when (negb (ErrorData.levelRetry data)
                  && State_eqb st WAITING_LEVEL)
              (assign set_state IDLE) ;;
            ret data
        else ret data
    | BUFFER_FULL_ERROR =>
        st <- gets state ;;
        if String.eqb (ErrorData.parent data) "main"
           && (State_eqb st PARSING || State_eqb st PARSED) then
          if mediaBuffered then
            cfg <- gets config ;;
            _ <- _reduceMaxBufferLength (Config.maxBufferLength cfg) ;;
            assign set_state IDLE ;;
            ret data
          else
            assign set_fragCurrent None ;;
            flushMainBuffer 0 PosInfinity ;;
            ret data
        else ret data
    | OTHER_ERROR => ret data
    end.

(** [computeLivePosition (sliding, levelDetails)], lines 1135-1138, with
    [this.config] passed in. *)
Definition computeLivePosition (cfg : Config.t) (sliding : Q)
    (levelDetails : LevelDetails.t) : Q :=
  let targetLatency :=
    match Config.liveSyncDuration cfg with
    | Some d => d
    | None => (Config.liveSyncDurationCount cfg
               * LevelDetails.targetduration levelDetails)%Q
    end in
  (sliding + Qmax 0 (LevelDetails.totalduration levelDetails - targetLatency))%Q.

(** [getBufferedFrag (position)], lines 479-481. *)
Definition getBufferedFrag (position : Q) : M (option FragRef) :=
  gets (fun s => tracker_getBufferedFrag (fragmentTracker s) (frags s) position).

(** [_seekToStartPos ()], lines 1144-1156; the caller has checked
    [media]. *)
Definition _seekToStartPos : M unit :=
  md <- gets media ;;
  m <- unwrap md ;;
  let currentTime := Media.currentTime m in
  sp <- gets startPosition ;;
  let startPosition := if Media.seeking m then currentTime else sp in
  when (negb (Qeq_bool currentTime startPosition))
    (assign set_media (Some (Media.set_currentTime startPosition m))).

(** [immediateLevelSwitch ()], lines 566-588. *)
Definition immediateLevelSwitch : M unit :=
  sw <- gets immediateSwitch ;;
  when (negb sw)
    (assign set_immediateSwitch true ;;
     md <- gets media ;;
     previouslyPaused <-
       match md with
       | Some m =>
           trigger Event.media_pause ;;
           assign set_media (Some (Media.set_paused true m)) ;;
           ret (Media.paused m)
       | None => ret true
       end ;;
     assign set_previouslyPaused previouslyPaused) ;;
  cur <- gets fragCurrent ;;
  store <- gets frags ;;
  match cur with
  | Some f => when (Fragment.hasLoader (store !!! f)) (trigger (Event.loader_abort f))
  | None => ret tt
  end ;;
  assign set_fragCurrent None ;;
  flushMainBuffer 0 PosInfinity.

(** [immediateLevelSwitchEnd ()], lines 595-607. *)
Definition immediateLevelSwitchEnd : M unit :=
  md <- gets media ;;
  match md with
  | Some m =>
      match Media.buffered m with
      | [] => ret tt
      | _ :: _ =>
          assign set_immediateSwitch false ;;
          when (isBuffered m (Media.currentTime m))
            (assign set_media
               (Some (Media.set_currentTime (Media.currentTime m - 0.0001)%Q m))) ;;
          pp <- gets previouslyPaused ;;
          when (negb pp)
            (trigger Event.media_play ;;
             md' <- gets media ;;
             assign set_media (option_map (Media.set_paused false) md'))
      end
  | None => ret tt
  end.

(** [_checkBuffer ()], lines 1081-1099. *)
Definition _checkBuffer : M unit :=
  md <- gets media ;;
  match md with
  | None => ret tt
  | Some m =>
      if Media.readyState m =? 0 then ret tt
      else
        mb <- gets mediaBuffer ;;
        let buffered :=
          match mb with
          | Some (SourceBuffer b) => b
          | Some TheMedia | None => Media.buffered m
          end in
        loaded <- gets loadedmetadata ;;
        sw <- gets immediateSwitch ;;
        if negb loaded && negb (Nat.eqb (length buffered) 0) then
          assign set_loadedmetadata true ;;
          _seekToStartPos
        else if sw then immediateLevelSwitchEnd
        else
          t <- gets lastCurrentTime ;;
          assign set_media (Some (gapController_poll t buffered m))
  end.

(** [_checkFragmentChanged ()], lines 521-558. *)
Definition _checkFragmentChanged : M unit :=
  md <- gets media ;;
  match md with
  | None => ret tt
  | Some video =>
      if truthyZ (Media.readyState video) && negb (Media.seeking video) then
        let currentTime := Media.currentTime video in
        t <- gets lastCurrentTime ;;
        when (Qgtb currentTime t) (assign set_lastCurrentTime currentTime) ;;
        fragPlayingCurrent <-
          (if isBuffered video currentTime then getBufferedFrag currentTime
           else if isBuffered video (currentTime + 0.1)%Q
                then getBufferedFrag (currentTime + 0.1)%Q
                else ret None) ;;
        match fragPlayingCurrent with
        | None => ret tt
        | Some fp =>
            playing <- gets fragPlaying ;;
            when (negb (same_object (Some fp) playing))
              (trigger (Event.FRAG_CHANGED fp) ;;
               store <- gets frags ;;
               let fragPlayingLevel := Fragment.level (store !!! fp) in
               when match playing with
                    | None => true
                    | Some old =>
                        negb (Fragment.level (store !!! old) =? fragPlayingLevel)
                    end
                 (trigger (Event.LEVEL_SWITCHED fragPlayingLevel)) ;;
               assign set_fragPlaying (Some fp))
        end
      else ret tt
  end.


(** The methods inherited from the base stream controller that the
    controller calls; their code is in base-stream-controller.ts. *)
Class BaseController := {
  (** [getCurrentContext (chunkMeta)]: the fragment and the index, in
      [levels], of the level the chunk belongs to, when it still
      matches the current load *)
  getCurrentContext : SC -> Z -> SN -> option (FragRef * nat);
  (** [_streamEnded (bufferInfo, levelDetails)] *)
  _streamEnded : SC -> BufferInfo.t -> LevelDetails.t -> bool;
  (** [_loadInitSegment (frag)], [_doFragLoad (frag)] up to the promise
      it returns, and [_loadFragForPlayback (frag)] *)
  _loadInitSegment : FragRef -> M unit;
  _doFragLoad : FragRef -> M unit;
  _loadFragForPlayback : FragRef -> M unit
}.
Context `{B : BaseController}.

(** [_loadKey (frag)], lines 442-445. *)
Definition _loadKey (frag : FragRef) : M unit :=
  assign set_state KEY_LOADING ;;
  trigger (Event.KEY_LOADING frag).

(** [_loadBitrateTestFrag (frag)], lines 1174-1191, up to the promise:
    the [then] callback runs on a later turn. *)
Definition _loadBitrateTestFrag (frag : FragRef) : M unit :=
  _doFragLoad frag.

(** [_loadFragment (frag)], lines 458-476: the dispatch on the tracker's
    answer [fragState]. *)
Definition _loadFragment_dispatch (frag : FragRef) (fragState : FragmentState)
  : M unit :=
  f <- deref frag ;;
  if Fragment.backtracked f
     || match fragState with NOT_LOADED | PARTIAL => true | _ => false end
  then
    auto <- gets autoLevelEnabled ;;
    update_frag frag (Fragment.set_autoLevel auto) ;;
    match Fragment.sn f with
    | SnInitSegment => _loadInitSegment frag
    | SnNumber _ =>
        bt <- gets bitrateTest ;;
        if bt then
          update_frag frag (Fragment.set_bitrateTest true) ;;
          _loadBitrateTestFrag frag
        else _loadFragForPlayback frag
    end
  else
    match fragState with
    | APPENDING =>
        reduced <- _reduceMaxBufferLength (Fragment.duration f) ;;
        when reduced
          (tr <- gets fragmentTracker ;;
           f' <- deref frag ;;
           assign set_fragmentTracker (tracker_removeFragment tr f'))
    | _ => ret tt
    end.

(** [_loadFragment (frag)], lines 447-477. *)
Definition _loadFragment (frag : FragRef) : M unit :=
  tr <- gets fragmentTracker ;;
  f <- deref frag ;;
  let fragState := tracker_getState tr f in
  assign set_fragCurrent (Some frag) ;;
  assign set_startFragRequested true ;;
  bt <- gets bitrateTest ;;
  when (SN_isFinite (Fragment.sn f) && negb bt)
    (assign set_nextLoadPosition (Fragment.start f + Fragment.duration f)%Q) ;;
  _loadFragment_dispatch frag fragState.

(** [fragPrevious < frag.cc] of line 358 compares a fragment object with
    a number: the object has no numeric value, the comparison is made
    with [NaN] and is [false] whatever the number. *)
Definition object_ltb_number (o : FragRef) (n : Z) : bool := false.

(** The comparator handed to [BinarySearch.search], lines 355-362. *)
Definition search_same_cc (store : gmap nat Fragment.t) (fragPrevious : FragRef)
    (frag : FragRef) : Z :=
  if Fragment.cc (store !!! fragPrevious) >? Fragment.cc (store !!! frag) then 1
  else if object_ltb_number fragPrevious (Fragment.cc (store !!! frag)) then -1
  else 0.

(** Modelled from the spec: [BinarySearch.search (list, comparisonFn)] of
    utils/binary-search, which is not among the sources.  The spec names
    it a binary search; the comparator's convention (a positive result
    when the wanted element lies to the right of the probe) is the one
    the controller's comparator uses on a list ordered by [cc]. *)
Fixpoint BinarySearch_loop {A} (fuel : nat) (l : list A) (cmp : A -> Z)
    (minIndex maxIndex : Z) : option A :=
  match fuel with
  | O => None
  | S fuel' =>
      if minIndex <=? maxIndex then
        let currentIndex := (minIndex + maxIndex) / 2 in
        match at_index l currentIndex with
        | None => None
        | Some currentElement =>
            let comparisonResult := cmp currentElement in
            if comparisonResult >? 0 then
              BinarySearch_loop fuel' l cmp (currentIndex + 1) maxIndex
            else if comparisonResult <? 0 then
              BinarySearch_loop fuel' l cmp minIndex (currentIndex - 1)
            else Some currentElement
        end
      else None
  end.

Definition BinarySearch_search {A} (l : list A) (cmp : A -> Z) : option A :=
  BinarySearch_loop (S (length l)) l cmp 0 (Z.of_nat (length l) - 1).


(** [maxLatency], line 305. *)
Definition maxLatency (cfg : Config.t) (levelDetails : LevelDetails.t) : ExtQ :=
  match Config.liveMaxLatencyDuration cfg with
  | Some d => Finite d
  | None => ExtQ_mul (Config.liveMaxLatencyDurationCount cfg)
                     (LevelDetails.targetduration levelDetails)
  end.

(** The test of line 307:
    [bufferEnd < Math.max(start - maxFragLookUpTolerance, end - maxLatency)]. *)
Definition behind_live (cfg : Config.t) (levelDetails : LevelDetails.t)
    (bufferEnd start end_ : Q) : bool :=
  ExtQ_gtb (ExtQ_max (start - Config.maxFragLookUpTolerance cfg)%Q
                     (ExtQ_rsub end_ (maxLatency cfg levelDetails))) bufferEnd.

(** What [_ensureFragmentAtLivePoint] returns: [null] (load nothing),
    no fragment ([undefined], or a falsy finder result), or a fragment. *)
Inductive LiveChoice := ReturnNull | NoFrag | Frag (frag : FragRef).

(** [_ensureFragmentAtLivePoint], lines 305-316: the resynchronisation
    on the live point; the value is the local [bufferEnd] after it. *)
Definition _ensureFragmentAtLivePoint_sync (levelDetails : LevelDetails.t)
    (bufferEnd start end_ : Q) : M Q :=
  cfg <- gets config ;;
  if behind_live cfg levelDetails bufferEnd start end_
  then
    let liveSyncPosition := computeLivePosition cfg start levelDetails in
    assign set_liveSyncPosition (Some liveSyncPosition) ;;
    md <- gets media ;;
    match md with
    | Some m =>
        when (truthyZ (Media.readyState m)
              && ExtQ_gtb (Media.duration m) liveSyncPosition)
          (assign set_media (Some (Media.set_currentTime liveSyncPosition m)))
    | None => ret tt
    end ;;
    assign set_nextLoadPosition liveSyncPosition ;;
    ret liveSyncPosition
  else ret bufferEnd.

(** [_ensureFragmentAtLivePoint], lines 328-378, with the local
    [bufferEnd] as the first part left it. *)
Definition _ensureFragmentAtLivePoint_select (levelDetails : LevelDetails.t)
    (bufferEnd end_ : Q) (fragPrevious : option FragRef)
    (fragments : list FragRef) (fragLen : Z) : M LiveChoice :=
  cfg <- gets config ;;
  md <- gets media ;;
  if LevelDetails.PTSKnown levelDetails && Qgtb bufferEnd end_
     && match md with Some m => truthyZ (Media.readyState m) | None => false end
  then ret ReturnNull
  else
    requested <- gets startFragRequested ;;
    if requested && negb (LevelDetails.PTSKnown levelDetails) then
      store <- gets frags ;;
      frag <-
        match fragPrevious with
        | Some prev =>
            if LevelDetails.hasProgramDateTime levelDetails then
              ret (findFragmentByPDT store fragments
                     (Fragment.endProgramDateTime (store !!! prev))
                     (Config.maxFragLookUpTolerance cfg))
            else
              (* [fragPrevious.sn + 1]; no number when [sn] is not one *)
              frag <-
                match SN_minus (Fragment.sn (store !!! prev)) (-1) with
                | Some targetSN =>
                    if (targetSN >=? LevelDetails.startSN levelDetails)
                       && (targetSN <=? LevelDetails.endSN levelDetails)
                    then
                      fragNext <- unwrap (at_index fragments
                                    (targetSN - LevelDetails.startSN levelDetails)) ;;
                      if Fragment.cc (store !!! prev) =? Fragment.cc (store !!! fragNext)
                      then ret (Some fragNext) else ret None
                    else ret None
                | None => ret None
                end ;;
              match frag with
              | Some f => ret (Some f)
              | None =>
                  ret (BinarySearch_search fragments (search_same_cc store prev))
              end
        | None => ret None
        end ;;
      match frag with
      | Some f => ret (Frag f)
      | None =>
          mid <- unwrap (at_index fragments
                           (Z.min (fragLen - 1) ((fragLen + 1) / 2))) ;;
          ret (Frag mid)
      end
    else ret NoFrag.

(** [_ensureFragmentAtLivePoint], lines 298-379. *)
Definition _ensureFragmentAtLivePoint (levelDetails : LevelDetails.t)
    (bufferEnd start end_ : Q) (fragPrevious : option FragRef)
    (fragments : list FragRef) (fragLen : Z) : M LiveChoice :=
  bufferEnd' <- _ensureFragmentAtLivePoint_sync levelDetails bufferEnd start end_ ;;
  _ensureFragmentAtLivePoint_select levelDetails bufferEnd' end_ fragPrevious
    fragments fragLen.


(** [_findFragment], lines 395-437: the adjustment made when the chosen
    fragment [frag] has the sequence number of the previous one. *)
Definition _findFragment_sameSN (frag : FragRef) (fragPrevious : option FragRef)
    (fragments : list FragRef) (levelDetails : LevelDetails.t)
  : M (option FragRef) :=
  cfg <- gets config ;;
  store <- gets frags ;;
  let f := store !!! frag in
  let curSNIdx := SN_minus (Fragment.sn f) (LevelDetails.startSN levelDetails) in
  let sameLevel :=
    match fragPrevious with
    | Some p => Fragment.level f =? Fragment.level (store !!! p)
    | None => false
    end in
  let prevFrag :=
    match curSNIdx with Some i => at_index fragments (i - 1) | None => None end in
  let nextFrag :=
    match curSNIdx with Some i => at_index fragments (i + 1) | None => None end in
  let curSNIdx_truthy :=
    match curSNIdx with Some i => truthyZ i | None => false end in
  match fragPrevious with
  | None => ret (Some frag)
  | Some p =>
      let fp := store !!! p in
      if SN_eqb (Fragment.sn f) (Fragment.sn fp) then
        if sameLevel && negb (Fragment.backtracked f) then
          if match Fragment.sn f with
             | SnNumber n => n <? LevelDetails.endSN levelDetails
             | SnInitSegment => false
             end
          then
            if match Timing.deltaPTS (Fragment.time fp) with
               | Some deltaPTS =>
                   truthyQ deltaPTS && Qgtb deltaPTS (Config.maxBufferHole cfg)
               | None => false
               end
               && truthyZ (Fragment.dropped fp) && curSNIdx_truthy
               && negb (Fragment.backtracked f)
            then ret prevFrag
            else
              (* the log line reads [frag.sn] of the next fragment *)
              nf <- unwrap nextFrag ;;
              ret (Some nf)
          else ret None
        else if Fragment.backtracked f then
          if match nextFrag with
             | Some nf => Fragment.backtracked (store !!! nf)
             | None => false
             end
          then ret nextFrag
          else
            update_frag frag (Fragment.set_dropped 0) ;;
            match prevFrag with
            | Some pf =>
                update_frag pf (Fragment.set_backtracked true) ;;
                ret (Some pf)
            | None =>
                if curSNIdx_truthy then ret None else ret (Some frag)
            end
        else ret (Some frag)
      else ret (Some frag)
  end.

(** [_findFragment], lines 385-393: the fragment chosen from the end
    of the buffer. *)
Definition _findFragment_choice (cfg : Config.t) (store : gmap nat Fragment.t)
    (fragPrevious : option FragRef) (fragLen : Z) (fragments : list FragRef)
    (bufferEnd end_ : Q) : option FragRef :=
  if Qltb bufferEnd end_ then
    let lookupTolerance :=
      if Qgtb bufferEnd (end_ - Config.maxFragLookUpTolerance cfg)%Q
      then 0%Q else Config.maxFragLookUpTolerance cfg in
    findFragmentByPTS store fragPrevious fragments bufferEnd lookupTolerance
  else at_index fragments (fragLen - 1).

(** [_findFragment], lines 381-440. *)
Definition _findFragment (start : Q) (fragPrevious : option FragRef)
    (fragLen : Z) (fragments : list FragRef) (bufferEnd end_ : Q)
    (levelDetails : LevelDetails.t) : M (option FragRef) :=
  cfg <- gets config ;;
  store <- gets frags ;;
  let frag :=
    _findFragment_choice cfg store fragPrevious fragLen fragments bufferEnd end_ in
  match frag with
  | Some fr => _findFragment_sameSN fr fragPrevious fragments levelDetails
  | None => ret None
  end.


(** [_fetchPayloadOrEos (pos, bufferInfo, levelDetails)], lines 243-296. *)
Definition _fetchPayloadOrEos (pos : Q) (bufferInfo : BufferInfo.t)
    (levelDetails : LevelDetails.t) : M unit :=
  prev <- gets fragPrevious ;;
  let fragments := LevelDetails.fragments levelDetails in
  let fragLen := Z.of_nat (length fragments) in
  if fragLen =? 0 then ret tt
  else
    store <- gets frags ;;
    first <- unwrap (at_index fragments 0) ;;
    last <- unwrap (at_index fragments (fragLen - 1)) ;;
    let start := Fragment.start (store !!! first) in
    let end_ := (Fragment.start (store !!! last)
                 + Fragment.duration (store !!! last))%Q in
    let bufferEnd := BufferInfo.end_ bufferInfo in
    let otherwise : M LiveChoice :=
      if LevelDetails.live levelDetails then
        cfg <- gets config ;;
        if fragLen <? Config.initialLiveManifestSize cfg then ret ReturnNull
        else _ensureFragmentAtLivePoint levelDetails bufferEnd start end_
               prev fragments fragLen
      else if Qltb bufferEnd start then ret (Frag first)
      else ret NoFrag in
    choice <-
      match LevelDetails.initSegment levelDetails with
      | Some i =>
          if negb (Fragment.hasData (store !!! i)) then ret (Frag i)
          else otherwise
      | None => otherwise
      end ;;
    match choice with
    | ReturnNull => ret tt
    | _ =>
        frag <-
          match choice with
          | Frag f => ret (Some f)
          | _ => _findFragment start prev fragLen fragments bufferEnd end_
                   levelDetails
          end ;;
        match frag with
        | Some f =>
            fo <- deref f ;;
            if Fragment.encrypted fo then _loadKey f else _loadFragment f
        | None => ret tt
        end
    end.

(** [maxBufLen], lines 196-204. *)
Definition maxBufLen (cfg : Config.t) (levelInfo : Level.t) : Q :=
  let levelBitrate := Level.bitrate levelInfo in
  let maxBufLen :=
    if truthyQ levelBitrate then
      Qmax (8 * Config.maxBufferSize cfg / levelBitrate)%Q
           (Config.maxBufferLength cfg)
    else Config.maxBufferLength cfg in
  Qmin maxBufLen (Config.maxMaxBufferLength cfg).

(** [this.mediaBuffer ? this.mediaBuffer : media], by its buffered
    ranges; [None] when there is neither. *)
Definition mediaBuffer_or_media (s : SC) : option TimeRanges :=
  match mediaBuffer s with
  | Some (SourceBuffer b) => Some b
  | Some TheMedia | None => option_map Media.buffered (media s)
  end.

(** [pos], lines 188-193; reading [media.currentTime] needs the media. *)
Definition tick_position : M Q :=
  loaded <- gets loadedmetadata ;;
  nlp <- gets nextLoadPosition ;;
  md <- gets media ;;
  if loaded then m <- unwrap md ;; ret (Media.currentTime m)
  else if truthyQ nlp then ret nlp else ret 0%Q.

(** [_doTickIdle ()], lines 170-241. *)
Definition _doTickIdle : M unit :=
  lastLoaded <- gets levelLastLoaded ;;
  lv <- gets levels ;;
  md <- gets media ;;
  cfg <- gets config ;;
  lvl <- gets nextLoadLevel ;;
  requested <- gets startFragRequested ;;
  if match lastLoaded with None => true | Some _ => false end
     || match md with
        | None => requested || negb (Config.startFragPrefetch cfg)
        | Some _ => false
        end
  then ret tt
  else
    match match lv with Some l => at_index l lvl | None => None end with
    | None => ret tt
    | Some levelInfo =>
        pos <- tick_position ;;
        let maxBufLen := maxBufLen cfg levelInfo in
        mb <- gets mediaBuffer_or_media ;;
        let bufferInfo := bufferInfo mb pos (Config.maxBufferHole cfg) in
        let bufferLen := BufferInfo.len bufferInfo in
        if Qgeb bufferLen maxBufLen then ret tt
        else
          assign set_nextLoadLevel lvl ;;
          assign set_level lvl ;;
          match Level.details levelInfo with
          | None => assign set_state WAITING_LEVEL
          | Some levelDetails =>
              lastLoaded' <- gets levelLastLoaded ;;
              if LevelDetails.live levelDetails
                 && negb match lastLoaded' with
                         | Some l => l =? lvl
                         | None => false
                         end
              then assign set_state WAITING_LEVEL
              else
                this <- gets id ;;
                if _streamEnded this bufferInfo levelDetails then
                  alt <- gets altAudio ;;
                  trigger (Event.BUFFER_EOS
                             (if alt then Some "video"%string else None)) ;;
                  assign set_state ENDED
                else _fetchPayloadOrEos pos bufferInfo levelDetails
          end
    end.

(** [doTick ()], lines 124-165. *)
Definition doTick : M unit :=
  st <- gets state ;;
  match st with
  | BUFFER_FLUSHING => assign set_fragLoadError 0
  | IDLE => _doTickIdle
  | WAITING_LEVEL =>
      lv <- gets levels ;;
      l <- gets level ;;
      when match lv with
           | Some ls =>
               match at_index ls l with
               | Some li => bool_decide (is_Some (Level.details li))
               | None => false
               end
           | None => false
           end
        (assign set_state IDLE)
  | FRAG_LOADING_WAITING_RETRY =>
      t <- gets now ;;
      rd <- gets retryDate ;;
      md <- gets media ;;
      when (negb (truthyQ rd) || Qgeb t rd
            || match md with Some m => Media.seeking m | None => false end)
        (assign set_state IDLE)
  | _ => ret tt
  end ;;
  _checkBuffer ;;
  _checkFragmentChanged.

(** Modelled from the spec: [tick ()] of the task loop the base
    controller extends, which is not among the sources.  The spec has the
    tick run "on-demand after every relevant event" and dispatch by
    state, which is [doTick]. *)
Definition tick : M unit := doTick.


(** [list.forEach (body)] *)
Fixpoint for_each {A} (l : list A) (body : A -> M unit) : M unit :=
  match l with
  | [] => ret tt
  | x :: rest => body x ;; for_each rest body
  end.

(** [_hasDroppedFrames (frag, dropped, startSN)], lines 1375-1397. *)
Definition _hasDroppedFrames (frag : FragRef) (dropped : Z) (startSN : Z)
  : M bool :=
  if truthyZ dropped then
    update_frag frag (Fragment.set_dropped dropped) ;;
    f <- deref frag ;;
    if negb (Fragment.backtracked f) then
      if SN_eqb (Fragment.sn f) (SnNumber startSN) then ret false
      else ret true
    else
      update_frag frag (Fragment.set_backtracked false) ;;
      ret false
  else
    update_frag frag (Fragment.set_backtracked false) ;;
    ret false.

(** [_backtrack (frag, nextLoadPosition)], lines 1354-1364, up to its
    closing [this.tick ()]. *)
Definition _backtrack_mark (frag : FragRef) (nextLoadPosition : Q) : M unit :=
  tr <- gets fragmentTracker ;;
  f <- deref frag ;;
  assign set_fragmentTracker (tracker_removeFragment tr f) ;;
  update_frag frag (Fragment.set_backtracked true) ;;
  assign set_nextLoadPosition nextLoadPosition ;;
  assign set_state IDLE ;;
  assign set_fragPrevious (Some frag).

(** [_backtrack (frag, nextLoadPosition)], lines 1354-1364. *)
Definition _backtrack (frag : FragRef) (nextLoadPosition : Q) : M unit :=
  _backtrack_mark frag nextLoadPosition ;;
  tick.

(** The level object [levels[level]] behind the index a context names. *)
Definition level_object (level : nat) : M Level.t :=
  lv <- gets levels ;;
  ls <- unwrap lv ;;
  unwrap (ls !! level).

(** [_updateTiming (frag, currentLevel, data)], lines 1330-1352. *)
Definition _updateTiming (frag : FragRef) (currentLevel : nat)
    (data : option Remuxed.t) : M unit :=
  match data with
  | None => ret tt
  | Some d =>
      f <- deref frag ;;
      let endPTS :=
        match Remuxed.endPTS d with
        | Some e => e
        | None => (Remuxed.startPTS d + Fragment.duration f)%Q
        end in
      let endDTS :=
        match Remuxed.endPTS d with
        | Some _ => Remuxed.endDTS d
        | None => Some (Remuxed.startDTS d + Fragment.duration f)%Q
        end in
      when (Remuxed.hasAudio d) (update_frag frag (Fragment.set_hasAudio true)) ;;
      when (Remuxed.hasVideo d) (update_frag frag (Fragment.set_hasVideo true)) ;;
      lo <- level_object currentLevel ;;
      store <- gets frags ;;
      let u := updateFragPTSDTS store (Level.details lo) frag
                 (Remuxed.startPTS d) endPTS (Remuxed.startDTS d) endDTS in
      assign set_frags
        (map_imap (fun r fo =>
           Some (Fragment.set_time
                   (TimingUpdate.timingOf u r (Fragment.time fo)) fo)) store) ;;
      lv <- gets levels ;;
      assign set_levels
        (option_map
           (fun ls =>
              <[currentLevel :=
                  Level.set_details
                    (option_map
                       (LevelDetails.set_PTSKnown (TimingUpdate.PTSKnown u))
                       (Level.details lo)) lo]> ls) lv) ;;
      trigger (Event.LEVEL_PTS_UPDATED currentLevel (TimingUpdate.drift u)
                 (Remuxed.type d) (Remuxed.startPTS d) endPTS)
  end.

(** [_bufferInitSegment (currentLevel, tracks)], lines 1253-1309.  The
    codec names written on the tracks before [BUFFER_CODECS] is
    triggered are part of the event's payload and are not kept. *)
Definition _bufferInitSegment (currentLevel : nat)
    (tracks : list (string * option nat)) : M unit :=
  st <- gets state ;;
  if negb (State_eqb st PARSING) then ret tt
  else
    alt <- gets altAudio ;;
    let tracks :=
      if alt then filter (fun tr => negb (String.eqb (fst tr) "audio")) tracks
      else tracks in
    trigger (Event.BUFFER_CODECS tracks) ;;
    for_each tracks (fun tr =>
      match snd tr with
      | Some initSegment =>
          assign set_appended true ;;
          assign set_pendingBuffering true ;;
          trigger (Event.BUFFER_APPENDING (fst tr) initSegment "main" "initSegment")
      | None => ret tt
      end) ;;
    tick.

(** [_bufferFragmentData (data)], lines 1311-1328. *)
Definition _bufferFragmentData (data : option Remuxed.t) : M unit :=
  st <- gets state ;;
  match data with
  | None => ret tt
  | Some d =>
      if negb (State_eqb st PARSING) then ret tt
      else
        for_each [Remuxed.data1 d; Remuxed.data2 d] (fun buffer =>
          st' <- gets state ;;
          match buffer with
          | Some n =>
              when (negb (Nat.eqb n 0) && State_eqb st' PARSING)
                (assign set_appended true ;;
                 assign set_pendingBuffering true ;;
                 trigger (Event.BUFFER_APPENDING (Remuxed.type d) n "main" "data"))
          | None => ret tt
          end) ;;
        tick
  end.

(** [_handleTransmuxComplete], lines 1219-1227: the init segment the
    result may carry. *)
Definition _handleTransmuxComplete_init (frag : FragRef) (level : nat)
    (initSegment : option InitSegment.t) : M unit :=
  match initSegment with
  | Some init =>
      match InitSegment.tracks init with
      | Some tracks =>
          _bufferInitSegment level tracks ;;
          trigger (Event.FRAG_PARSING_INIT_SEGMENT frag)
      | None => ret tt
      end ;;
      match InitSegment.initPTS init with
      | Some initPTS => trigger (Event.INIT_PTS_FOUND frag initPTS)
      | None => ret tt
      end
  | None => ret tt
  end.

(** [_handleTransmuxComplete (transmuxResult)], lines 1193-1251. *)
Definition _handleTransmuxComplete (r : TransmuxResult.t) : M unit :=
  this <- gets id ;;
  match getCurrentContext this (TransmuxResult.id_level r)
          (TransmuxResult.id_sn r) with
  | None => ret tt
  | Some (frag, level) =>
      alt <- gets altAudio ;;
      let audio := if alt then None else TransmuxResult.audio r in
      let video := TransmuxResult.video r in
      _updateTiming frag level audio ;;
      _updateTiming frag level video ;;
      assign set_state PARSING ;;
      assign set_pendingBuffering true ;;
      assign set_appended false ;;
      _handleTransmuxComplete_init frag level (TransmuxResult.initSegment r) ;;
      backtracking <-
        match video with
        | Some v =>
            lo <- level_object level ;;
            details <- unwrap (Level.details lo) ;;
            hasDropped <- _hasDroppedFrames frag (Remuxed.dropped v)
                            (LevelDetails.startSN details) ;;
            if hasDropped then
              _backtrack frag (Remuxed.startPTS v) ;; ret true
            else _bufferFragmentData (Some v) ;; ret false
        | None => ret false
        end ;;
      if backtracking : bool then ret tt
      else
        _bufferFragmentData audio ;;
        when (TransmuxResult.id3 r) (trigger (Event.FRAG_PARSING_METADATA frag)) ;;
        when (TransmuxResult.text r) (trigger (Event.FRAG_PARSING_USERDATA frag))
  end.


(** ** What a step leaves alone

    The relations between the controller before and after a step that
    the properties are stated with. *)

(** What the buffer check and the fragment-change check send out. *)
Definition playback_event (e : Event.t) : bool :=
  match e with
  | Event.FRAG_CHANGED _ | Event.LEVEL_SWITCHED _ | Event.media_play => true
  | _ => false
  end.

(** [s] with the fields the two checks write taken from [src]. *)
Definition with_playback (src s : SC) : SC :=
  set_log (log src)
    (set_media (media src)
       (set_lastCurrentTime (lastCurrentTime src)
          (set_fragPlaying (fragPlaying src)
             (set_loadedmetadata (loadedmetadata src)
                (set_immediateSwitch (immediateSwitch src) s))))).

(** [s'] is [s] but for those fields, its log grown by playback events. *)
Definition playback_step (s s' : SC) : Prop :=
  s' = with_playback s' s
  /\ exists l, log s' = log s ++ l /\ forallb playback_event l = true.

(** A fragment without the attributes parsing rewrites: its timing and
    its elementary streams. *)
Definition untimed (f : Fragment.t) : Fragment.t :=
  Fragment.set_time (Timing.mk 0 0 0 0 0 None)
    (Fragment.set_hasAudio false (Fragment.set_hasVideo false f)).

(** [levels[lvl].details.startSN] *)
Definition level_startSN (s : SC) (lvl : nat) : option Z :=
  match levels s with
  | Some ls =>
      match ls !! lvl with
      | Some lo => option_map LevelDetails.startSN (Level.details lo)
      | None => None
      end
  | None => None
  end.

(** A payload of the fragment handed to the buffer sink. *)
Definition data_append (e : Event.t) : bool :=
  match e with
  | Event.BUFFER_APPENDING _ _ _ content => String.eqb content "data"
  | _ => false
  end.

(** From [s] to [s'] the fragments kept all but timing and streams, the
    tracker and the level's [startSN] are the same, and no fragment
    payload was handed to the buffer sink. *)
Definition parse_step (lvl : nat) (s s' : SC) : Prop :=
  (forall r, untimed (frags s' !!! r) = untimed (frags s !!! r))
  /\ fragmentTracker s' = fragmentTracker s
  /\ level_startSN s' lvl = level_startSN s lvl
  /\ exists l, log s' = log s ++ l
               /\ forallb (fun e => negb (data_append e)) l = true.

(** [this.fragCurrent], [this.startFragRequested] and
    [this.nextLoadPosition] as [_loadFragment (frag)] sets them. *)
Definition marked_for_load (frag : FragRef) (s : SC) : SC :=
  let f := frags s !!! frag in
  let s1 := set_startFragRequested true (set_fragCurrent (Some frag) s) in
  if SN_isFinite (Fragment.sn f) && negb (bitrateTest s)
  then set_nextLoadPosition (Fragment.start f + Fragment.duration f)%Q s1
  else s1.

End Controller.

(** ** A reading of the collaborators, from the specification

    The properties below hold for every implementation of the two
    interfaces.  The concrete runs (scenarios of the specification, and
    inputs on which a claim fails) need one; this one follows the
    specification's sections 4.1 to 4.5. *)

Module Spec.

(** Modelled from the spec: [isBuffered] of the buffer helper (missing
    from the sources), with section 4.2's ranges: [buffered] is a set of
    disjoint ranges [s, e), and a position is buffered when one of them
    contains it. *)
Definition isBuffered (m : Media.t) (pos : Q) : bool :=
  existsb (fun r => Qle_bool (fst r) pos && Qltb pos (snd r)) (Media.buffered m).

(** Modelled from the spec: section 4.2's merge of successive ranges
    separated by gaps of at most [maxHole]. *)
Fixpoint merge_ranges (maxHole : Q) (cur : Q * Q) (rest : TimeRanges)
  : TimeRanges :=
  match rest with
  | [] => [cur]
  | r :: rest' =>
      if Qle_bool (fst r - snd cur) maxHole
      then merge_ranges maxHole (fst cur, snd r) rest'
      else cur :: merge_ranges maxHole r rest'
  end.

(** Modelled from the spec: [bufferInfo] of the buffer helper (missing
    from the sources), section 4.2: the merged range that contains
    [pos] or starts within [maxHole] after it; [len] runs from [pos], or
    from the start of that range when later, to its end. *)
Definition bufferInfo (buffered : option TimeRanges) (pos maxHole : Q)
  : BufferInfo.t :=
  let merged :=
    match buffered with
    | Some (r :: rest) => merge_ranges maxHole r rest
    | _ => []
    end in
  match find (fun r => Qle_bool (fst r) (pos + maxHole) && Qltb pos (snd r)) merged with
  | Some r =>
      BufferInfo.mk (snd r - Qmax pos (fst r)) (fst r) (snd r)
        (option_map fst (find (fun r' => Qltb (snd r) (fst r')) merged))
  | None =>
      BufferInfo.mk 0 pos pos
        (option_map fst (find (fun r' => Qltb pos (fst r')) merged))
  end.

(** Modelled from the spec: the fragment tracker (missing from the
    sources), section 4.3: a state per fragment, keyed by level and
    sequence number, and the fragments it holds as buffered. *)
Record Tracker := mkTracker {
  states : list ((Z * SN) * FragmentState);
  bufferedFrags : list FragRef
}.

Definition key_eqb (a b : Z * SN) : bool :=
  (fst a =? fst b) && SN_eqb (snd a) (snd b).

Definition getState (tr : Tracker) (f : Fragment.t) : FragmentState :=
  match find (fun e => key_eqb (fst e) (Fragment.level f, Fragment.sn f)) (states tr) with
  | Some e => snd e
  | None => NOT_LOADED
  end.

Definition removeFragment (tr : Tracker) (f : Fragment.t) : Tracker :=
  mkTracker
    (filter (fun e => negb (key_eqb (fst e) (Fragment.level f, Fragment.sn f)))
       (states tr))
    (bufferedFrags tr).

Definition getBufferedFrag (tr : Tracker) (store : gmap nat Fragment.t) (pos : Q)
  : option FragRef :=
  find (fun r =>
          let t := Fragment.time (store !!! r) in
          Qle_bool (Timing.startPTS t) pos && Qle_bool pos (Timing.endPTS t))
       (bufferedFrags tr).

(** Modelled from the spec: [findFragmentByPTS] (missing from the
    sources), section 4.1: the interval test with the tolerance clamped
    to half the fragment's duration, the successor of [prev] first. *)
Definition covers (f : Fragment.t) (bufferEnd tolerance : Q) : bool :=
  let tol := Qmin tolerance (Fragment.duration f / 2) in
  Qle_bool (Fragment.start f - tol) bufferEnd
  && Qltb bufferEnd (Fragment.start f + Fragment.duration f - tol).

Definition findFragmentByPTS (store : gmap nat Fragment.t)
    (prev : option FragRef) (fragments : list FragRef) (bufferEnd tolerance : Q)
  : option FragRef :=
  let next :=
    match prev, fragments with
    | Some p, first :: _ =>
        match Fragment.sn (store !!! p), Fragment.sn (store !!! first) with
        | SnNumber n, SnNumber n0 =>
            match at_index fragments (n + 1 - n0) with
            | Some nx =>
                if (Fragment.level (store !!! nx) =? Fragment.level (store !!! p))
                   && covers (store !!! nx) bufferEnd tolerance
                then Some nx else None
            | None => None
            end
        | _, _ => None
        end
    | _, _ => None
    end in
  match next with
  | Some nx => Some nx
  | None =>
      match fragments with
      | first :: _ =>
          if Qltb bufferEnd (Fragment.start (store !!! first)) then Some first
          else find (fun r => covers (store !!! r) bufferEnd tolerance) fragments
      | [] => None
      end
  end.

(** Modelled from the spec: [findFragmentByPDT] (missing from the
    sources), section 4.1: the first fragment whose program-date-time
    interval contains [pdt], or comes within [tolerance] of it. *)
Definition findFragmentByPDT (store : gmap nat Fragment.t)
    (fragments : list FragRef) (pdt : option Q) (tolerance : Q)
  : option FragRef :=
  match pdt with
  | None => None
  | Some t =>
      let within (slack : Q) (r : FragRef) :=
        match Fragment.programDateTime (store !!! r),
              Fragment.endProgramDateTime (store !!! r) with
        | Some a, Some b => Qle_bool (a - slack) t && Qltb t (b + slack)
        | _, _ => false
        end in
      match find (within 0%Q) fragments with
      | Some r => Some r
      | None => find (within tolerance) fragments
      end
  end.

(** Modelled from the spec: [updateFragPTSDTS] of the level helper
    (missing from the sources), section 4.5: the fragment takes the
    parsed presentation times, and the level's times are known. *)
Definition updateFragPTSDTS (store : gmap nat Fragment.t)
    (details : option LevelDetails.t) (frag : FragRef)
    (startPTS endPTS startDTS : Q) (endDTS : option Q) : TimingUpdate.t :=
  TimingUpdate.mk
    (fun r t =>
       if Nat.eqb r frag then
         Timing.mk startPTS (endPTS - startPTS) startPTS endPTS startPTS
           (Timing.deltaPTS t)
       else t)
    true
    (startPTS - Fragment.start (store !!! frag)).

(** Modelled from the spec: the gap controller's poll (missing from the
    sources), section 4.6: it may move [currentTime] forward across a
    hole, to the start of the next buffered range. *)
Definition gapController_poll (lastCurrentTime : Q) (buffered : TimeRanges)
    (m : Media.t) : Media.t :=
  if isBuffered m (Media.currentTime m) then m
  else
    match find (fun r => Qltb (Media.currentTime m) (fst r)) buffered with
    | Some r => Media.set_currentTime (fst r) m
    | None => m
    end.

#[export] Instance collaborators : Collaborators :=
  Build_Collaborators Tracker getState removeFragment getBufferedFrag
    isBuffered bufferInfo findFragmentByPDT findFragmentByPTS
    updateFragPTSDTS gapController_poll.

(** Modelled from the spec: [getCurrentContext] of the base controller
    (missing from the sources), section 4.5: a completion is kept when
    its level and sequence number are those of [fragCurrent]. *)
Definition getCurrentContext (s : SC) (lvl : Z) (sn : SN)
  : option (FragRef * nat) :=
  match fragCurrent s with
  | Some r =>
      let f := frags s !!! r in
      if (Fragment.level f =? lvl) && SN_eqb (Fragment.sn f) sn
         && match levels s with
            | Some ls => bool_decide (is_Some (at_index ls lvl))
            | None => false
            end
      then Some (r, Z.to_nat lvl) else None
  | None => None
  end.

(** Modelled from the spec: [_streamEnded] of the base controller
    (missing from the sources), section 4.5's [streamEnded(buf,
    details)]: an on-demand playlist whose last fragment is the current
    one and is buffered, with nothing buffered further on. *)
Definition _streamEnded (s : SC) (buf : BufferInfo.t) (details : LevelDetails.t)
  : bool :=
  negb (LevelDetails.live details)
  && match fragCurrent s with
     | Some r =>
         SN_eqb (Fragment.sn (frags s !!! r)) (SnNumber (LevelDetails.endSN details))
         && match getState (fragmentTracker s) (frags s !!! r) with
            | OK | PARTIAL => true
            | _ => false
            end
     | None => false
     end
  && negb (bool_decide (is_Some (BufferInfo.nextStart buf))).

(** Modelled from the spec: the loaders of the base controller (missing
    from the sources), sections 4.5 and 5: issuing a load emits
    [FRAG_LOADING] and leaves the controller in [FRAG_LOADING] until the
    completion arrives. *)
Definition load (frag : FragRef) : Method SC unit :=
  (assign set_state FRAG_LOADING ;;
   trigger (Event.FRAG_LOADING frag))%js.

#[export] Instance base : BaseController :=
  Build_BaseController getCurrentContext _streamEnded load load load.

End Spec.

(** ** Scenarios

    Concrete controllers, with the collaborators read from the
    specification, for the scenarios of the specification's section 8 and
    for the inputs on which a claim is checked. *)

Module Scenario.
Import Spec.

(** The configuration: the library's defaults, with the retry limits of
    scenario S4. *)
Definition config : Config.t :=
  Config.mk 30 600 60000000 0.5 0.25 None 3 None PosInfinity 1 false
    3 500 4000.

(** A main fragment lasting 6 s, not encrypted. *)
Definition main_frag (level sn cc : Z) (start : Q) (backtracked : bool)
  : Fragment.t :=
  Fragment.mk (SnNumber sn) level "main" cc false None None
    (Timing.mk start 6 start (start + 6) start None)
    backtracked 0 true false false false false false.

(** A media element at [currentTime] with [buffered] ranges. *)
Definition media_at (currentTime : Q) (paused : bool) (readyState : Z)
    (buffered : TimeRanges) : Media.t :=
  Media.mk currentTime paused readyState false PosInfinity buffered.

(** A controller in [state] with the given level list, media, current
    and previous fragment, and fragment store; [started] tells whether a
    first fragment was requested and the media's metadata is loaded. *)
Definition controller (state : State) (started : bool) (cfg : Config.t)
    (levels : option (list Level.t)) (media : option Media.t)
    (fragCurrent fragPrevious : option FragRef)
    (store : list (nat * Fragment.t)) : SC :=
  @mkSC collaborators state 0 levels (Some 0) fragCurrent fragPrevious None
    0 0 0 0 0 None started started false false false false false false
    media (option_map (fun _ => TheMedia) media) cfg 0 true
    (mkTracker [] []) (list_to_map store) 1000 [].

(** S4: a fragment load fails while fragment 5 is being loaded. *)
Definition retry_state : SC :=
  controller FRAG_LOADING true config None None (Some 0%nat) None
    [(0%nat, main_frag 0 5 0 0 false)].
Definition frag_load_error : ErrorData.t :=
  ErrorData.mk FRAG_LOAD_ERROR false None "main" false.

(** S6: the buffer is full while parsing; the position 30 is buffered. *)
Definition buffer_full_state (maxMaxBufferLength : Q) : SC :=
  controller PARSING true
    (Config.set_maxMaxBufferLength maxMaxBufferLength config)
    None (Some (media_at 30 false 4 [(0, 60)%Q])) (Some 0%nat) None
    [(0%nat, main_frag 0 5 0 0 false)].
Definition buffer_full_error : ErrorData.t :=
  ErrorData.mk BUFFER_FULL_ERROR false None "main" false.

(** A live level switch without PTS information: the previous fragment
    (sn 10, cc 0) came from level 1; level 0 now lists sn 20, 21, 22
    with cc 0, 1, 1. *)
Definition switch_store : list (nat * Fragment.t) :=
  [(0%nat, main_frag 1 10 0 60 false); (1%nat, main_frag 0 20 0 100 false);
   (2%nat, main_frag 0 21 1 106 false); (3%nat, main_frag 0 22 1 112 false)].
Definition switch_details : LevelDetails.t :=
  LevelDetails.mk [1%nat; 2%nat; 3%nat] 20 22 true false false None 6 18.
Definition switch_state : SC :=
  controller IDLE true config (Some [Level.mk 500000 (Some switch_details)])
    (Some (media_at 66 false 4 [(60, 66)%Q])) None (Some 0%nat) switch_store.

(** S3: level 0, on demand, lists sn 5, 6, 7; the first 6 s are
    buffered.  [flagged] names the fragment that carries the backtracked
    flag, if one does. *)
Definition vod_details : LevelDetails.t :=
  LevelDetails.mk [0%nat; 1%nat; 2%nat] 5 7 false true false None 6 18.
Definition vod_state (state : State) (bitrate : Q)
    (fragCurrent fragPrevious flagged : option nat) (buffered : TimeRanges)
  : SC :=
  controller state true config (Some [Level.mk bitrate (Some vod_details)])
    (Some (media_at 0 false 4 buffered)) fragCurrent fragPrevious
    [(0%nat, main_frag 0 5 0 0 (same_object flagged (Some 0%nat)));
     (1%nat, main_frag 0 6 0 6 (same_object flagged (Some 1%nat)));
     (2%nat, main_frag 0 7 0 12 (same_object flagged (Some 2%nat)))].
Definition backtrack_state (state : State) (backtracked : nat) : SC :=
  vod_state state 500000 (Some backtracked) (Some backtracked)
    (Some backtracked) [(0, 6)%Q].

(** S3: fragment sn 6 was loaded after sn 5 and its video track comes
    back with 5 frames dropped. *)
Definition parsing_state : SC :=
  vod_state FRAG_LOADING 500000 (Some 1%nat) (Some 0%nat) None [(0, 6)%Q].
Definition dropped_video : TransmuxResult.t :=
  TransmuxResult.mk None
    (Some (Remuxed.mk "video" 6 (Some 12%Q) 6 (Some 12%Q) false true 5
             (Some 1000%nat) None))
    false false None 0 (SnNumber 6).

(** An idle controller on a 20 Mbit/s level with 40 s buffered ahead. *)
Definition buffered_state : SC :=
  vod_state IDLE 20000000 None None None [(0, 40)%Q].

(** The same, the tracker holding fragment sn 6 as buffered. *)
Definition tracked_state : SC :=
  @set_fragmentTracker collaborators
    (mkTracker [((0, SnNumber 6), OK)] [1%nat]) buffered_state.

(** S2: a live level lists 8 fragments of 6 s from 1000 to 1048; the
    media is at 0 with nothing buffered. *)
Definition live_details : LevelDetails.t :=
  LevelDetails.mk (seq 0 8) 100 107 true true false None 6 48.
Definition live_state (readyState : Z) : SC :=
  controller IDLE false config (Some [Level.mk 500000 (Some live_details)])
    (Some (media_at 0 false readyState [])) None None
    (map (fun i => (i, main_frag 0 (100 + Z.of_nat i) 0
                         (1000 + 6 * inject_Z (Z.of_nat i)) false))
         (seq 0 8)).

End Scenario.

(** ** Handlers beside the scheduling path

    The event handlers of the controller that the tick does not reach,
    and [nextLevelSwitch].  What they read that [SC] does not hold
    ([media.ended], and [this.fragLastKbps] as a finite number) is
    passed in; the listeners they put on the media element and take off
    it are not part of [SC]. *)

(** The methods these handlers call whose code is not in
    [stream-controller.ts]. *)
Class Lifecycle `{B : BaseController} := {
  (** [fragmentTracker.detectEvictedFragments (elementaryStream,
      timeRange)], over the fragment objects the tracker refers to *)
  tracker_detectEvictedFragments :
    FragmentTracker -> gmap nat Fragment.t -> string -> TimeRanges ->
    FragmentTracker;
  (** [stopLoad ()], lines 119-122: it clears [forceStartLoad] and runs
      the base controller's [stopLoad] *)
  stopLoad : Method SC unit
}.

Section Handlers.
Context `{L : Lifecycle}.
Local Open Scope js_scope.

(** The setters of the fields these handlers write: [s] with [field]
    replaced by [v]. *)
Ltac SC_with s field v :=
  let e := eval cbv beta delta [SC_eta] in (SC_eta s) in
  lazymatch eval pattern field in e with
  | ?F _ => let r := eval cbv beta in (F v) in exact r
  end.

Definition set_startPosition (v : Q) (s : SC) : SC :=
  ltac:(SC_with s (startPosition s) v).
Definition set_mediaBuffer (v : option MediaBufferRef) (s : SC) : SC :=
  ltac:(SC_with s (mediaBuffer s) v).
Definition set_now (v : Q) (s : SC) : SC := ltac:(SC_with s (now s) v).

(** [onKeyLoaded ()], lines 844-849. *)
Definition onKeyLoaded : Method SC unit :=
  st <- gets state ;;
  when (State_eqb st KEY_LOADING)
    (assign set_state IDLE ;;
     tick).

(** [onFragLoadEmergencyAborted ()], lines 1101-1110. *)
Definition onFragLoadEmergencyAborted : Method SC unit :=
  assign set_state IDLE ;;
  loaded <- gets loadedmetadata ;;
  when (negb loaded)
    (assign set_startFragRequested false ;;
     p <- gets startPosition ;;
     assign set_nextLoadPosition p) ;;
  tick.

(** [onBufferFlushed ()], lines 1112-1125;
    [ElementaryStreamTypes.VIDEO] is ['video']. *)
Definition onBufferFlushed : Method SC unit :=
  mb <- gets mediaBuffer_or_media ;;
  match mb with
  | Some buffered =>
      tr <- gets fragmentTracker ;;
      store <- gets frags ;;
      assign set_fragmentTracker
        (tracker_detectEvictedFragments tr store "video" buffered)
  | None => ret tt
  end ;;
  assign set_state IDLE ;;
  assign set_fragPrevious None.

(** [onMediaDetaching ()], lines 687-714.  [ended] is [media.ended];
    [fragment.backtracked = undefined] leaves the flag falsy. *)
Definition onMediaDetaching (ended : bool) : Method SC unit :=
  lv <- gets levels ;;
  md <- gets media ;;
  when (match md with Some _ => ended | None => false end)
    (assign set_lastCurrentTime 0%Q ;;
     assign set_startPosition 0%Q) ;;
  match lv with
  | Some ls =>
      for_each ls (fun level =>
        match Level.details level with
        | Some details =>
            for_each (LevelDetails.fragments details) (fun fragment =>
              update_frag fragment (Fragment.set_backtracked false))
        | None => ret tt
        end)
  | None => ret tt
  end ;;
  assign set_mediaBuffer None ;;
  assign set_media None ;;
  assign set_loadedmetadata false ;;
  stopLoad.

(** [followingBufferedFrag (frag)], lines 504-510. *)
Definition followingBufferedFrag (frag : option FragRef)
  : Method SC (option FragRef) :=
  match frag with
  | Some f =>
      fo <- deref f ;;
      getBufferedFrag (Timing.endPTS (Fragment.time fo) + 0.5)%Q
  | None => ret None
  end.

(** [fetchdelay] of [nextLevelSwitch], lines 626-636; [fragLastKbps] is
    [this.fragLastKbps]. *)
Definition fetchdelay (fragLastKbps : Q) (m : Media.t)
    (lv : option (list Level.t)) : Method SC Q :=
  match lv with
  | Some ls =>
      if negb (Media.paused m) then
        nextLevelId <- gets nextLoadLevel ;;
        let nextLevel := at_index ls nextLevelId in
        cur <- gets fragCurrent ;;
        match cur with
        | Some fc =>
            if truthyQ fragLastKbps then
              fo <- deref fc ;;
              nl <- unwrap nextLevel ;;
              ret (Fragment.duration fo * Level.bitrate nl
                   / (1000 * fragLastKbps) + 1)%Q
            else ret 0%Q
        | None => ret 0%Q
        end
      else ret 0%Q
  | None => ret 0%Q
  end.

(** [nextLevelSwitch ()], lines 615-658. *)
Definition nextLevelSwitch (fragLastKbps : Q) : Method SC unit :=
  lv <- gets levels ;;
  md <- gets media ;;
  match md with
  | Some m =>
      if truthyZ (Media.readyState m) then
        fragPlayingCurrent <- getBufferedFrag (Media.currentTime m) ;;
        match fragPlayingCurrent with
        | Some fp =>
            fo <- deref fp ;;
            let startPTS := Timing.startPTS (Fragment.time fo) in
            when (Qgtb startPTS 1)
              (flushMainBuffer 0 (Finite (startPTS - 1)))
        | None => ret tt
        end ;;
        delay <- fetchdelay fragLastKbps m lv ;;
        reached <- getBufferedFrag (Media.currentTime m + delay)%Q ;;
        match reached with
        | Some _ =>
            following <- followingBufferedFrag reached ;;
            match following with
            | Some nb =>
                cur <- gets fragCurrent ;;
                store <- gets frags ;;
                match cur with
                | Some f =>
                    when (Fragment.hasLoader (store !!! f))
                      (trigger (Event.loader_abort f))
                | None => ret tt
                end ;;
                assign set_fragCurrent None ;;
                nbo <- deref nb ;;
                flushMainBuffer (Timing.maxStartPTS (Fragment.time nbo))
                  PosInfinity
            | None => ret tt
            end
        | None => ret tt
        end
      else ret tt
  | None => ret tt
  end.

(** What [nextLevelSwitch] sends: loader aborts and buffer flushes, a
    flush being [0, end] with [end > 0] or open ended. *)
Definition switch_event (e : Event.t) : bool :=
  match e with
  | Event.BUFFER_FLUSHING startOffset (Finite endOffset) _ =>
      Qeq_bool startOffset 0 && Qltb 0 endOffset
  | Event.BUFFER_FLUSHING _ PosInfinity _ => true
  | Event.loader_abort _ => true
  | _ => false
  end.

(** [s'] is [s] but for the state, [fragCurrent] and the log; the log
    grew by switch events; if it grew the state is BUFFER_FLUSHING, and
    if it did not nothing changed; [fragCurrent] is kept or cleared. *)
Definition switch_step (s s' : SC) : Prop :=
  s' = set_log (log s') (set_fragCurrent (fragCurrent s') (set_state (state s') s))
  /\ (exists sent,
        log s' = log s ++ sent
        /\ forallb switch_event sent = true
        /\ (sent = [] -> s' = s)
        /\ (sent <> [] -> state s' = BUFFER_FLUSHING))
  /\ (fragCurrent s' = fragCurrent s \/ fragCurrent s' = None).

(** A computation that takes every controller one switch step on. *)
Definition steps {A} (m : Method SC A) : Prop :=
  forall s, switch_step s (final (m s)).

(** The BUFFER_APPENDING events [_bufferFragmentData (data)] sends for
    a track, lines 1316-1325: one for each of [data1], [data2] that is
    there and is not empty, in that order. *)
Definition payload_appends (data : option Remuxed.t) : list Event.t :=
  match data with
  | Some d =>
      flat_map (fun buffer =>
                  match buffer with
                  | Some n =>
                      if Nat.eqb n 0 then []
                      else [Event.BUFFER_APPENDING (Remuxed.type d) n "main" "data"]
                  | None => []
                  end)
        [Remuxed.data1 d; Remuxed.data2 d]
  | None => []
  end.

End Handlers.

(** ** Further controllers

    Concrete controllers for the properties of the second part, built
    like those of [Scenario]. *)

Module Sample.
Import Spec Scenario.

(** A fragment of the alternate audio stream is being loaded. *)
Definition audio_state : SC :=
  controller FRAG_LOADING true config None None (Some 0%nat) None
    [(0%nat, Fragment.mk (SnNumber 5) 0 "audio" 0 false None None
               (Timing.mk 0 6 0 6 0 None) false 0 true false false false
               false false)].

(** The playlist of level 0 is awaited; its load times out. *)
Definition waiting_state : SC :=
  controller WAITING_LEVEL true config (Some [Level.mk 500000 None])
    (Some (media_at 0 false 4 [])) None None [].
Definition level_timeout : ErrorData.t :=
  ErrorData.mk LEVEL_LOAD_TIMEOUT false None "main" false.

(** Idle, with level 0 selected and its playlist not loaded yet. *)
Definition no_details_state : SC :=
  controller IDLE true config (Some [Level.mk 500000 None])
    (Some (media_at 0 false 4 [])) None None [].

(** Level 0 of [vod_state], all of its 18 s buffered, the last fragment
    (sn 7) current and held as OK by the tracker. *)
Definition ended_state : SC :=
  @set_fragmentTracker collaborators
    (mkTracker [((0, SnNumber 7), OK)] [2%nat])
    (vod_state IDLE 500000 (Some 2%nat) (Some 2%nat) None [(0, 18)%Q]).

(** The same level with an init segment (reference 3) that has no data
    yet, and nothing buffered. *)
Definition init_details : LevelDetails.t :=
  LevelDetails.mk [0%nat; 1%nat; 2%nat] 5 7 false true false (Some 3%nat) 6 18.
Definition init_state : SC :=
  controller IDLE true config (Some [Level.mk 500000 (Some init_details)])
    (Some (media_at 0 false 4 [])) None None
    [(0%nat, main_frag 0 5 0 0 false); (1%nat, main_frag 0 6 0 6 false);
     (2%nat, main_frag 0 7 0 12 false);
     (3%nat, Fragment.mk SnInitSegment 0 "main" 0 false None None
               (Timing.mk 0 0 0 0 0 None) false 0 false false false false
               false false)].

(** An on-demand level whose first fragment starts at 10 s, with
    nothing buffered. *)
Definition late_details : LevelDetails.t :=
  LevelDetails.mk [0%nat; 1%nat] 5 6 false true false None 6 12.
Definition late_state : SC :=
  controller IDLE false config (Some [Level.mk 500000 (Some late_details)])
    (Some (media_at 0 false 4 [])) None None
    [(0%nat, main_frag 0 5 0 10 false); (1%nat, main_frag 0 6 0 16 false)].

(** A live level switch without time information where the previous
    fragment (sn 20, cc 1, from level 1) is followed in the new level by
    sn 21 with the same cc. *)
Definition next_sn_state : SC :=
  controller IDLE true config (Some [Level.mk 500000 (Some switch_details)])
    (Some (media_at 66 false 4 [(60, 66)%Q])) None (Some 0%nat)
    [(0%nat, main_frag 1 20 1 60 false); (1%nat, main_frag 0 20 0 100 false);
     (2%nat, main_frag 0 21 1 106 false); (3%nat, main_frag 0 22 1 112 false)].

(** The first data is buffered while the media, at 3 s, has not been
    moved to the start position, 0, yet. *)
Definition first_data_state : SC :=
  controller IDLE false config (Some [Level.mk 500000 (Some vod_details)])
    (Some (media_at 3 false 4 [(0, 6)%Q])) (Some 0%nat) None
    [(0%nat, main_frag 0 5 0 0 false)].

(** The tracker holds fragment sn 6 as being appended. *)
Definition appending_state : SC :=
  @set_fragmentTracker collaborators
    (mkTracker [((0, SnNumber 6), APPENDING)] []) buffered_state.

(** Fragment sn 6 comes back from the transmuxer with no frame dropped:
    one video chunk of 1000 bytes and one audio chunk of 500. *)
Definition clean_result : TransmuxResult.t :=
  TransmuxResult.mk
    (Some (Remuxed.mk "audio" 6 (Some 12%Q) 6 (Some 12%Q) true false 0
             (Some 500%nat) None))
    (Some (Remuxed.mk "video" 6 (Some 12%Q) 6 (Some 12%Q) false true 0
             (Some 1000%nat) (Some 0%nat)))
    false false None 0 (SnNumber 6).

End Sample.

(** ** Running a method *)

(** Unfold the monad's combinators and compute. *)
Ltac run :=
  unfold bind, gets, assign, modify, ret, when, unwrap, throw, trigger, deref,
    update_frag;
  cbn.

(** * Properties *)

Section OnError.
Context `{C : Collaborators}.

Lemma not_main_frag_main (s : SC) (data : ErrorData.t) (f : FragRef) :
  error_frag s data = Some f ->
  Fragment.type (frags s !!! f) = "main"%string ->
  not_main_frag s data = false.
Proof. intros Hfr Hty. unfold not_main_frag. rewrite Hfr, Hty. reflexivity. Qed.

(** A retryable load failure below the retry limit: the retry is
    scheduled with the capped exponential delay. *)
Lemma onError_retry (s : SC) (data : ErrorData.t) (f : FragRef) :
  retryable (ErrorData.details data) = true ->
  ErrorData.fatal data = false ->
  error_frag s data = Some f ->
  Fragment.type (frags s !!! f) = "main"%string ->
  fragLoadError s < Config.fragLoadingMaxRetry (config s) ->
  exists s', onError data s = Done data s' /\
    retryDate s' =
      (now s + Qmin (2 ^ fragLoadError s * Config.fragLoadingRetryDelay (config s))
                    (Config.fragLoadingMaxRetryTimeout (config s)))%Q /\
    fragLoadError s' = fragLoadError s + 1 /\
    state s' = FRAG_LOADING_WAITING_RETRY.
Proof.
  intros Hd Hf Hfr Hty Hlt.
  unfold onError. run.
  rewrite (not_main_frag_main s data f Hfr Hty), Hfr, Hf. cbn.
  assert (E : (fragLoadError s + 1 <=? Config.fragLoadingMaxRetry (config s)) = true)
    by (apply Z.leb_le; lia).
  destruct (ErrorData.details data); try discriminate; cbn; rewrite E; cbn;
    destruct (loadedmetadata s); cbn; eexists; (split; [reflexivity|]); cbn; auto.
Qed.

(** At the retry limit the event is turned fatal. *)
Lemma onError_fatal (s : SC) (data : ErrorData.t) (f : FragRef) :
  retryable (ErrorData.details data) = true ->
  ErrorData.fatal data = false ->
  error_frag s data = Some f ->
  Fragment.type (frags s !!! f) = "main"%string ->
  Config.fragLoadingMaxRetry (config s) <= fragLoadError s ->
  onError data s = Done (ErrorData.set_fatal true data) (set_state ERROR s).
Proof.
  intros Hd Hf Hfr Hty Hlt.
  unfold onError. run.
  rewrite (not_main_frag_main s data f Hfr Hty), Hfr, Hf. cbn.
  assert (E : (fragLoadError s + 1 <=? Config.fragLoadingMaxRetry (config s)) = false)
    by (apply Z.leb_gt; lia).
  destruct (ErrorData.details data); try discriminate; cbn; rewrite E; reflexivity.
Qed.

(** C1.  For a non-fatal FRAG_LOAD_ERROR, FRAG_LOAD_TIMEOUT, KEY_LOAD_ERROR
    or KEY_LOAD_TIMEOUT about a main fragment, [onError] schedules a retry
    at [now + min (2^fragLoadError * fragLoadingRetryDelay,
    fragLoadingMaxRetryTimeout)], increments [fragLoadError] and moves to
    FRAG_LOADING_WAITING_RETRY while [fragLoadError < fragLoadingMaxRetry];
    otherwise it sets the event's [fatal] flag and moves to ERROR.  With
    the limits 3, 500 and 4000 the failures counted 0, 1 and 2 are retried
    after 500, 1000 and 2000 ms, each raising the count by one, and the
    failure counted 3 (the fourth) is fatal. *)
Theorem onError_frag_load_retry_backoff (s : SC) (data : ErrorData.t) (f : FragRef) :
  retryable (ErrorData.details data) = true ->
  ErrorData.fatal data = false ->
  error_frag s data = Some f ->
  Fragment.type (frags s !!! f) = "main"%string ->
  (fragLoadError s < Config.fragLoadingMaxRetry (config s) ->
   exists s', onError data s = Done data s' /\
     retryDate s' =
       (now s + Qmin (2 ^ fragLoadError s * Config.fragLoadingRetryDelay (config s))
                     (Config.fragLoadingMaxRetryTimeout (config s)))%Q /\
     fragLoadError s' = fragLoadError s + 1 /\
     state s' = FRAG_LOADING_WAITING_RETRY)
  /\ (~ fragLoadError s < Config.fragLoadingMaxRetry (config s) ->
      exists s', onError data s = Done (ErrorData.set_fatal true data) s' /\
        state s' = ERROR)
  /\ (Config.fragLoadingMaxRetry (config s) = 3 ->
      Config.fragLoadingRetryDelay (config s) = 500%Q ->
      Config.fragLoadingMaxRetryTimeout (config s) = 4000%Q ->
      (fragLoadError s = 0 ->
       retryDate (final (onError data s)) = (now s + 500)%Q
       /\ fragLoadError (final (onError data s)) = 1)
      /\ (fragLoadError s = 1 ->
          retryDate (final (onError data s)) = (now s + 1000)%Q
          /\ fragLoadError (final (onError data s)) = 2)
      /\ (fragLoadError s = 2 ->
          retryDate (final (onError data s)) = (now s + 2000)%Q
          /\ fragLoadError (final (onError data s)) = 3)
      /\ (fragLoadError s = 3 ->
          onError data s = Done (ErrorData.set_fatal true data) (set_state ERROR s))).
Proof.
  intros Hd Hf Hfr Hty. split; [|split].
  - intros Hlt. exact (onError_retry s data f Hd Hf Hfr Hty Hlt).
  - intros Hge. exists (set_state ERROR s). split; [|reflexivity].
    apply (onError_fatal s data f); auto. lia.
  - intros Hmax Hdelay Hcap.
    assert (Hstep : forall n, fragLoadError s = n -> n < 3 ->
              retryDate (final (onError data s)) =
                (now s + Qmin (2 ^ n * 500) 4000)%Q
              /\ fragLoadError (final (onError data s)) = n + 1).
    { intros n Hn Hlt.
      destruct (onError_retry s data f Hd Hf Hfr Hty) as (s' & Hrun & Hdate & Hcnt & _);
        [lia|].
      rewrite Hrun. cbn. rewrite Hdate, Hcnt, Hdelay, Hcap, Hn. auto. }
    split; [|split; [|split]].
    + intros H0. destruct (Hstep 0 H0) as [-> ->]; [lia|split; reflexivity].
    + intros H1. destruct (Hstep 1 H1) as [-> ->]; [lia|split; reflexivity].
    + intros H2. destruct (Hstep 2 H2) as [-> ->]; [lia|split; reflexivity].
    + intros H3. apply (onError_fatal s data f); auto. lia.
Qed.

End OnError.

Section BufferFull.
Context `{C : Collaborators}.

(** C2, as the code has it.  For a BUFFER_FULL_ERROR with parent 'main'
    received in PARSING or PARSED, whose fragment ([data.frag], or else
    [fragCurrent]) is absent or a main fragment: when the media is
    attached and both [currentTime] and [currentTime + 0.5] are buffered,
    [maxMaxBufferLength] is halved if it is at least [maxBufferLength]
    (the new value is then at least [maxBufferLength / 2], and may be
    below [maxBufferLength]) and kept otherwise, the state becomes IDLE
    and nothing is sent out; when they are not, [fragCurrent] is cleared
    and the whole buffer, [0, +infinity), is flushed. *)
Theorem onError_buffer_full (s : SC) (data : ErrorData.t) :
  ErrorData.details data = BUFFER_FULL_ERROR ->
  ErrorData.parent data = "main"%string ->
  State_eqb (state s) PARSING || State_eqb (state s) PARSED = true ->
  not_main_frag s data = false ->
  (mediaBuffered s = true ->
   exists s', onError data s = Done data s' /\
     state s' = IDLE /\ log s' = log s /\ fragCurrent s' = fragCurrent s /\
     Config.maxBufferLength (config s') = Config.maxBufferLength (config s) /\
     ((Config.maxBufferLength (config s) <= Config.maxMaxBufferLength (config s))%Q ->
      Config.maxMaxBufferLength (config s') =
        (Config.maxMaxBufferLength (config s) / 2)%Q /\
      (Config.maxBufferLength (config s) / 2 <=
         Config.maxMaxBufferLength (config s'))%Q) /\
     ((Config.maxMaxBufferLength (config s) < Config.maxBufferLength (config s))%Q ->
      config s' = config s))
  /\ (mediaBuffered s = false ->
      exists s', onError data s = Done data s' /\
        fragCurrent s' = None /\ state s' = BUFFER_FLUSHING /\
        config s' = config s /\
        log s' = log s ++ [Event.BUFFER_FLUSHING 0 PosInfinity
                             (if altAudio s then Some "video"%string else None)]).
Proof.
  intros Hd Hp Hst Hmain. split; intros Hbuf.
  - unfold onError, _reduceMaxBufferLength, Qgeb. run.
    rewrite Hmain, Hd, Hp, Hst, Hbuf. cbn.
    destruct (Qle_bool (Config.maxBufferLength (config s))
                (Config.maxMaxBufferLength (config s))) eqn:E; cbn.
    + eexists. split; [reflexivity|]. cbn. repeat (split; [reflexivity|]).
      split.
      * intros _. split; [reflexivity|].
        apply Qle_bool_iff in E.
        apply Qmult_le_compat_r; [exact E|]. discriminate.
      * intros Hlt. apply Qle_bool_iff in E. exfalso.
        apply (Qlt_not_le _ _ Hlt E).
    + eexists. split; [reflexivity|]. cbn. repeat (split; [reflexivity|]).
      split.
      * intros Hle. apply Qle_bool_iff in Hle. congruence.
      * reflexivity.
  - unfold onError, flushMainBuffer. run. rewrite Hmain, Hd, Hp, Hst, Hbuf. cbn.
    eexists. split; [reflexivity|]. cbn. auto.
Qed.

End BufferFull.

(** C1 at scenario S4's first failure. *)
Lemma onError_frag_load_retry_backoff_S4 :
  retryDate (final (onError Scenario.frag_load_error Scenario.retry_state))
    = (now Scenario.retry_state + 500)%Q
  /\ fragLoadError (final (onError Scenario.frag_load_error Scenario.retry_state)) = 1.
Proof.
  refine (proj1 (proj2 (proj2
    (onError_frag_load_retry_backoff Scenario.retry_state
       Scenario.frag_load_error 0%nat _ _ _ _)) _ _ _) _);
    reflexivity.
Defined.

(** C2 fails as stated: with [maxBufferLength = 30] and
    [maxMaxBufferLength = 40] and the position buffered, the cap is
    halved to 20, below [maxBufferLength]. *)
Lemma onError_buffer_full_below_maxBufferLength :
  mediaBuffered (Scenario.buffer_full_state 40) = true
  /\ state (Scenario.buffer_full_state 40) = PARSING
  /\ (Config.maxMaxBufferLength
        (config (final (onError Scenario.buffer_full_error
                          (Scenario.buffer_full_state 40)))) == 20)%Q
  /\ (Config.maxMaxBufferLength
        (config (final (onError Scenario.buffer_full_error
                          (Scenario.buffer_full_state 40))))
      < Config.maxBufferLength
          (config (final (onError Scenario.buffer_full_error
                            (Scenario.buffer_full_state 40)))))%Q.
Proof. repeat split. Qed.

(** C2 at scenario S6: from 60 the cap goes to 30, the state to IDLE,
    with no flush. *)
Lemma onError_buffer_full_S6 :
  exists s', onError Scenario.buffer_full_error (Scenario.buffer_full_state 60)
             = Done Scenario.buffer_full_error s' /\
    state s' = IDLE /\ log s' = log (Scenario.buffer_full_state 60) /\
    Config.maxMaxBufferLength (config s') = (60 / 2)%Q.
Proof.
  destruct (proj1 (onError_buffer_full (Scenario.buffer_full_state 60)
                     Scenario.buffer_full_error eq_refl eq_refl eq_refl eq_refl) eq_refl)
    as (s' & Hrun & Hst & Hlog & _ & _ & Hhalf & _).
  exists s'. repeat (split; [assumption|]).
  apply Hhalf. discriminate.
Defined.

(** C3: the comparator of the live-switch binary search never answers
    -1, since [fragPrevious < frag.cc] compares an object with a number:
    whenever [fragPrevious.cc < frag.cc] it answers 0, "found".  On a
    level listing cc 0, 1, 1 and a previous fragment of cc 0, the search
    probes the middle fragment and returns it, of cc 1, although the
    first fragment has cc 0; the selection loads it. *)
Theorem search_same_cc_accepts_higher_cc :
  (forall (store : gmap nat Fragment.t) (prev frag : FragRef),
      Fragment.cc (store !!! prev) < Fragment.cc (store !!! frag) ->
      search_same_cc store prev frag = 0)
  /\ BinarySearch_search (LevelDetails.fragments Scenario.switch_details)
       (search_same_cc (frags Scenario.switch_state) 0%nat) = Some 2%nat
  /\ Fragment.cc (frags Scenario.switch_state !!! 0%nat) = 0
  /\ Fragment.cc (frags Scenario.switch_state !!! 1%nat) = 0
  /\ Fragment.cc (frags Scenario.switch_state !!! 2%nat) = 1
  /\ _ensureFragmentAtLivePoint_select Scenario.switch_details 66 118 (Some 0%nat)
       (LevelDetails.fragments Scenario.switch_details) 3 Scenario.switch_state
     = Done (Frag 2%nat) Scenario.switch_state.
Proof.
  split.
  - intros store prev frag Hlt. unfold search_same_cc, object_ltb_number.
    destruct (Z.gtb_spec (Fragment.cc (store !!! prev)) (Fragment.cc (store !!! frag)));
      [lia|reflexivity].
  - repeat split; vm_compute; reflexivity.
Qed.

(** C5: [_hasDroppedFrames] clears the backtracked flag of a backtracked
    fragment also when dropped frames are reported. *)
Theorem _hasDroppedFrames_clears_backtracked_with_drops :
  (forall `{C : Collaborators} (s : SC) (frag : FragRef) (dropped startSN : Z),
      dropped <> 0 ->
      Fragment.backtracked (frags s !!! frag) = true ->
      exists s', _hasDroppedFrames frag dropped startSN s = Done false s' /\
        Fragment.backtracked (frags s' !!! frag) = false /\
        Fragment.dropped (frags s' !!! frag) = dropped)
  /\ Fragment.backtracked (frags (Scenario.backtrack_state PARSING 1) !!! 1%nat) = true
  /\ Fragment.backtracked
       (frags (final (_hasDroppedFrames 1%nat 5 5
                        (Scenario.backtrack_state PARSING 1))) !!! 1%nat) = false.
Proof.
  split.
  - intros C s frag dropped startSN Hd Hb.
    unfold _hasDroppedFrames, truthyZ. run.
    destruct (Z.eqb_spec dropped 0); [contradiction|]. cbn.
    rewrite lookup_total_insert_eq. cbn. rewrite Hb. cbn.
    eexists. split; [reflexivity|]. cbn.
    rewrite !lookup_total_insert_eq. cbn. auto.
  - split; vm_compute; reflexivity.
Qed.

Section FindFragment.
Context `{C : Collaborators}.

(** C6, as the code has it.  In [_findFragment], when the fragment chosen
    from the buffer end has the sequence number of the previous fragment
    and is backtracked, with [idx = sn - startSN] its index in the level:
    if [fragments[idx + 1]] is backtracked too, that successor is
    returned and nothing is changed; otherwise the chosen fragment's
    [dropped] count is reset to 0 and, if [fragments[idx - 1]] exists,
    that predecessor is marked backtracked and returned; if it does not
    exist, the result is none when [idx] is not 0, and the chosen
    fragment itself when [idx] is 0 (the first fragment of the level).
    So selection steps back by one fragment at most, and never from a
    fragment whose successor is backtracked. *)
Theorem _findFragment_backtracked (s : SC) (start bufferEnd end_ : Q)
    (fragLen : Z) (fragments : list FragRef) (levelDetails : LevelDetails.t)
    (prev frag : FragRef) (n : Z) :
  _findFragment_choice (config s) (frags s) (Some prev) fragLen fragments
    bufferEnd end_ = Some frag ->
  Fragment.sn (frags s !!! frag) = SnNumber n ->
  Fragment.sn (frags s !!! prev) = SnNumber n ->
  Fragment.backtracked (frags s !!! frag) = true ->
  let idx := n - LevelDetails.startSN levelDetails in
  let reset := <[frag := Fragment.set_dropped 0 (frags s !!! frag)]> (frags s) in
  (forall next, at_index fragments (idx + 1) = Some next ->
     Fragment.backtracked (frags s !!! next) = true ->
     _findFragment start (Some prev) fragLen fragments bufferEnd end_ levelDetails s
       = Done (Some next) s)
  /\ ((forall next, at_index fragments (idx + 1) = Some next ->
         Fragment.backtracked (frags s !!! next) = false) ->
      (forall before, at_index fragments (idx - 1) = Some before ->
         exists s',
           _findFragment start (Some prev) fragLen fragments bufferEnd end_
             levelDetails s = Done (Some before) s' /\
           s' = set_frags
                  (<[before := Fragment.set_backtracked true (reset !!! before)]> reset) s /\
           Fragment.backtracked (frags s' !!! before) = true /\
           Fragment.dropped (frags s' !!! frag) = 0)
      /\ (at_index fragments (idx - 1) = None -> idx <> 0 ->
          _findFragment start (Some prev) fragLen fragments bufferEnd end_
            levelDetails s = Done None (set_frags reset s))
      /\ (at_index fragments (idx - 1) = None -> idx = 0 ->
          _findFragment start (Some prev) fragLen fragments bufferEnd end_
            levelDetails s = Done (Some frag) (set_frags reset s))).
Proof.
  intros Hch Hsn Hpsn Hbt idx reset.
  assert (Hrun : _findFragment start (Some prev) fragLen fragments bufferEnd end_
                   levelDetails s
                 = _findFragment_sameSN frag (Some prev) fragments levelDetails s).
  { unfold _findFragment. run. rewrite Hch. reflexivity. }
  rewrite Hrun. unfold _findFragment_sameSN. run.
  rewrite Hsn, Hpsn, Hbt. cbn. rewrite Z.eqb_refl, andb_false_r. cbn.
  fold idx. split; [|intros Hnext; split; [|split]].
  - intros next Hn Hb. rewrite Hn, Hb. reflexivity.
  - intros before Hp.
    assert (E : match at_index fragments (idx + 1) with
                | Some nf => Fragment.backtracked (frags s !!! nf)
                | None => false
                end = false).
    { destruct (at_index fragments (idx + 1)) as [nf|] eqn:En; [|reflexivity].
      apply (Hnext nf eq_refl). }
    rewrite E, Hp. cbn. eexists. split; [reflexivity|]. fold reset.
    split; [reflexivity|]. cbn. split.
    + rewrite lookup_total_insert_eq. reflexivity.
    + destruct (decide (before = frag)) as [->|Hne].
      * rewrite lookup_total_insert_eq. cbn.
        unfold reset. rewrite lookup_total_insert_eq. reflexivity.
      * rewrite lookup_total_insert_ne by exact Hne.
        unfold reset. rewrite lookup_total_insert_eq. reflexivity.
  - intros Hp Hidx.
    assert (E : match at_index fragments (idx + 1) with
                | Some nf => Fragment.backtracked (frags s !!! nf)
                | None => false
                end = false).
    { destruct (at_index fragments (idx + 1)) as [nf|] eqn:En; [|reflexivity].
      apply (Hnext nf eq_refl). }
    rewrite E, Hp. cbn. unfold truthyZ.
    destruct (Z.eqb_spec idx 0); [contradiction|]. reflexivity.
  - intros Hp Hidx.
    assert (E : match at_index fragments (idx + 1) with
                | Some nf => Fragment.backtracked (frags s !!! nf)
                | None => false
                end = false).
    { destruct (at_index fragments (idx + 1)) as [nf|] eqn:En; [|reflexivity].
      apply (Hnext nf eq_refl). }
    rewrite E, Hp. cbn. unfold truthyZ. rewrite Hidx. reflexivity.
Qed.

End FindFragment.

(** C6 at scenario S3: fragment sn 6 is backtracked and its successor is
    not; selection steps back to sn 5 and marks it. *)
Lemma _findFragment_backtracked_S3 :
  exists s',
    _findFragment 0 (Some 1%nat) 3 (LevelDetails.fragments Scenario.vod_details)
      6 18 Scenario.vod_details (Scenario.backtrack_state IDLE 1)
      = Done (Some 0%nat) s' /\
    Fragment.backtracked (frags s' !!! 0%nat) = true /\
    Fragment.dropped (frags s' !!! 1%nat) = 0.
Proof.
  assert (Hnext : forall next,
             at_index (LevelDetails.fragments Scenario.vod_details)
               (6 - LevelDetails.startSN Scenario.vod_details + 1) = Some next ->
             Fragment.backtracked
               (frags (Scenario.backtrack_state IDLE 1) !!! next) = false).
  { intros next H. vm_compute in H. injection H as <-. reflexivity. }
  destruct (proj1 (proj2 (_findFragment_backtracked (C := Spec.collaborators)
              (Scenario.backtrack_state IDLE 1) 0 6 18 3
              (LevelDetails.fragments Scenario.vod_details) Scenario.vod_details
              1%nat 1%nat 6 eq_refl eq_refl eq_refl eq_refl) Hnext)
            0%nat eq_refl) as (s' & Hrun & _ & Hb & Hd).
  exists s'. auto.
Defined.

(** C6 fails as stated: the backtracked fragment is the first of the
    level (sn 5 = startSN), there is no fragment before it, and selection
    returns that fragment, not none. *)
Lemma _findFragment_backtracked_first_fragment :
  at_index (LevelDetails.fragments Scenario.vod_details)
    (5 - LevelDetails.startSN Scenario.vod_details - 1) = None
  /\ Fragment.backtracked (frags (Scenario.backtrack_state IDLE 0) !!! 0%nat) = true
  /\ fragPrevious (Scenario.backtrack_state IDLE 0) = Some 0%nat
  /\ _findFragment_choice (C := Spec.collaborators)
       (config (Scenario.backtrack_state IDLE 0))
       (frags (Scenario.backtrack_state IDLE 0)) (Some 0%nat) 3
       (LevelDetails.fragments Scenario.vod_details) 0 18 = Some 0%nat
  /\ returned
       (_findFragment 0 (Some 0%nat) 3 (LevelDetails.fragments Scenario.vod_details)
          0 18 Scenario.vod_details (Scenario.backtrack_state IDLE 0))
     = Some (Some 0%nat).
Proof. repeat split; vm_compute; reflexivity. Qed.
Section Frames.
Context `{C : Collaborators}.


Lemma playback_step_refl (s : SC) : playback_step s s.
Proof.
  split; [destruct s; reflexivity|].
  exists []. split; [symmetry; apply app_nil_r|reflexivity].
Qed.

Lemma playback_step_trans (s1 s2 s3 : SC) :
  playback_step s1 s2 -> playback_step s2 s3 -> playback_step s1 s3.
Proof.
  intros [H1 (l1 & Hl1 & Hp1)] [H2 (l2 & Hl2 & Hp2)]. split.
  - transitivity (with_playback s3 s2); [exact H2|].
    rewrite H1. reflexivity.
  - exists (l1 ++ l2). split.
    + rewrite Hl2, Hl1, app_assoc. reflexivity.
    + rewrite forallb_app, Hp1, Hp2. reflexivity.
Qed.

Ltac cases :=
  repeat (cbn;
    match goal with
    | |- context [if ?b then _ else _] => destruct b eqn:?
    | |- context [match ?x with _ => _ end] => destruct x eqn:?
    end).

Ltac solve_playback :=
  eexists; split; [reflexivity|];
  split; [reflexivity|];
  cbn;
  first [ exists []; split; [symmetry; apply app_nil_r|reflexivity]
        | eexists; split; [rewrite <- ?app_assoc; reflexivity|reflexivity] ].

Lemma _checkBuffer_frame (s : SC) :
  exists s', _checkBuffer s = Done tt s' /\ playback_step s s'.
Proof.
  destruct s.
  unfold _checkBuffer, _seekToStartPos, immediateLevelSwitchEnd. run.
  cases; solve_playback.
Qed.

Lemma _checkFragmentChanged_frame (s : SC) :
  exists s', _checkFragmentChanged s = Done tt s' /\ playback_step s s'.
Proof.
  destruct s.
  unfold _checkFragmentChanged, getBufferedFrag. run.
  cases; solve_playback.
Qed.

End Frames.

Section Tick.
Context `{B : BaseController}.

(** The two checks that close every tick. *)
Lemma checks_frame (s : SC) :
  exists s', bind _checkBuffer (fun _ => _checkFragmentChanged) s = Done tt s'
             /\ playback_step s s'.
Proof.
  destruct (_checkBuffer_frame s) as (s1 & H1 & P1).
  destruct (_checkFragmentChanged_frame s1) as (s2 & H2 & P2).
  exists s2. split.
  - unfold bind. rewrite H1. exact H2.
  - exact (playback_step_trans _ _ _ P1 P2).
Qed.

(** In the states [doTick] has no case for, a tick is the two checks. *)
Lemma doTick_passive (s : SC) :
  match state s with
  | IDLE | BUFFER_FLUSHING | WAITING_LEVEL | FRAG_LOADING_WAITING_RETRY => False
  | _ => True
  end ->
  exists s', doTick s = Done tt s' /\ playback_step s s'.
Proof.
  intros Hst. destruct (checks_frame s) as (s' & Hrun & Hp).
  exists s'. split; [|exact Hp].
  unfold doTick. unfold bind at 1. unfold gets at 1.
  destruct (state s); try contradiction; exact Hrun.
Qed.

(** With enough buffer ahead, the selection step does nothing. *)
Lemma _doTickIdle_stays (s : SC) (ls : list Level.t) (levelInfo : Level.t) (pos : Q) :
  levels s = Some ls ->
  at_index ls (nextLoadLevel s) = Some levelInfo ->
  tick_position s = Done pos s ->
  (Qmax 0 (maxBufLen (config s) levelInfo)
   <= BufferInfo.len (bufferInfo (mediaBuffer_or_media s) pos
                        (Config.maxBufferHole (config s))))%Q ->
  _doTickIdle s = Done tt s.
Proof.
  intros Hls Hli Hpos Hlen.
  unfold _doTickIdle.
  unfold bind at 1. unfold gets at 1.
  unfold bind at 1. unfold gets at 1.
  unfold bind at 1. unfold gets at 1.
  unfold bind at 1. unfold gets at 1.
  unfold bind at 1. unfold gets at 1.
  unfold bind at 1. unfold gets at 1.
  destruct (_ || _); [reflexivity|].
  rewrite Hls, Hli.
  unfold bind at 1. rewrite Hpos.
  unfold bind at 1. unfold gets at 1.
  assert (E : Qgeb (BufferInfo.len (bufferInfo (mediaBuffer_or_media s) pos
                                      (Config.maxBufferHole (config s))))
                   (maxBufLen (config s) levelInfo) = true).
  { unfold Qgeb. apply Qle_bool_iff.
    eapply Qle_trans; [|exact Hlen]. apply Q.le_max_r. }
  rewrite E. reflexivity.
Qed.

(** C7.  On an IDLE tick with a selected level, if the buffered length
    ahead of the position, [bufferInfo.len], is at least [maxBufLen]
    (the minimum of [maxMaxBufferLength] and of [maxBufferLength], or of
    [max (8 * maxBufferSize / levelBitrate, maxBufferLength)] when the
    level has a bitrate), taken not below 0, then [_doTickIdle] changes
    nothing and sends nothing; the tick is its two closing checks, the
    state stays IDLE, [fragCurrent], [nextLoadPosition] and [level] are
    unchanged, and no KEY_LOADING, no fragment load and no BUFFER_EOS is
    sent. *)
Theorem doTick_idle_enough_buffer (s : SC) (ls : list Level.t)
    (levelInfo : Level.t) (pos : Q) :
  state s = IDLE ->
  levels s = Some ls ->
  at_index ls (nextLoadLevel s) = Some levelInfo ->
  tick_position s = Done pos s ->
  (Qmax 0 (maxBufLen (config s) levelInfo)
   <= BufferInfo.len (bufferInfo (mediaBuffer_or_media s) pos
                        (Config.maxBufferHole (config s))))%Q ->
  _doTickIdle s = Done tt s
  /\ exists s',
       doTick s = Done tt s'
       /\ doTick s = bind _checkBuffer (fun _ => _checkFragmentChanged) s
       /\ state s' = IDLE
       /\ fragCurrent s' = fragCurrent s
       /\ nextLoadPosition s' = nextLoadPosition s
       /\ level s' = level s
       /\ exists sent, log s' = log s ++ sent
                       /\ forallb playback_event sent = true.
Proof.
  intros Hst Hls Hli Hpos Hlen.
  pose proof (_doTickIdle_stays s ls levelInfo pos Hls Hli Hpos Hlen) as Hidle.
  split; [exact Hidle|].
  destruct (checks_frame s) as (s' & Hrun & [Heq Hlog]).
  assert (Htick : doTick s = bind _checkBuffer (fun _ => _checkFragmentChanged) s).
  { unfold doTick. unfold bind at 1. unfold gets at 1. rewrite Hst.
    unfold bind at 1. rewrite Hidle. reflexivity. }
  exists s'. split; [rewrite Htick; exact Hrun|]. split; [exact Htick|].
  rewrite Heq. cbn. auto.
Qed.

End Tick.

Section LiveSync.
Context `{C : Collaborators}.

(** C8, as the code has it.  [computeLivePosition (sliding, levelDetails)]
    is [sliding + max (0, totalduration - targetLatency)], with
    [targetLatency] the option [liveSyncDuration] when defined and
    [liveSyncDurationCount * targetduration] otherwise.  On a live
    selection with [bufferEnd < max (start - maxFragLookUpTolerance,
    end - maxLatency)] the controller sets [liveSyncPosition],
    [nextLoadPosition] and its local [bufferEnd] to that position, and
    [media.currentTime] too when the media is attached, its [readyState]
    is not 0 and its duration exceeds the position.  With
    [targetduration = 6], fragments spanning [1000, 1048]
    ([totalduration = 48]) and [liveSyncDurationCount = 3], the position
    is 1030. *)
Theorem _ensureFragmentAtLivePoint_live_sync (s : SC) (levelDetails : LevelDetails.t)
    (bufferEnd start end_ : Q) :
  (forall (cfg : Config.t) (sliding : Q),
      computeLivePosition cfg sliding levelDetails =
        (sliding + Qmax 0 (LevelDetails.totalduration levelDetails
                           - match Config.liveSyncDuration cfg with
                             | Some liveSyncDuration => liveSyncDuration
                             | None => Config.liveSyncDurationCount cfg
                                       * LevelDetails.targetduration levelDetails
                             end))%Q)
  /\ (behind_live (config s) levelDetails bufferEnd start end_ = true ->
      exists s',
        _ensureFragmentAtLivePoint_sync levelDetails bufferEnd start end_ s
          = Done (computeLivePosition (config s) start levelDetails) s'
        /\ nextLoadPosition s' = computeLivePosition (config s) start levelDetails
        /\ liveSyncPosition s' = Some (computeLivePosition (config s) start levelDetails)
        /\ media s' =
             match media s with
             | Some m =>
                 if truthyZ (Media.readyState m)
                    && ExtQ_gtb (Media.duration m)
                         (computeLivePosition (config s) start levelDetails)
                 then Some (Media.set_currentTime
                              (computeLivePosition (config s) start levelDetails) m)
                 else Some m
             | None => None
             end)
  /\ (Config.liveSyncDuration (config s) = None ->
      Config.liveSyncDurationCount (config s) = 3%Q ->
      LevelDetails.targetduration levelDetails = 6%Q ->
      LevelDetails.totalduration levelDetails = 48%Q ->
      computeLivePosition (config s) 1000 levelDetails = 1030%Q).
Proof.
  split; [|split].
  - intros cfg sliding. unfold computeLivePosition.
    destruct (Config.liveSyncDuration cfg); reflexivity.
  - intros Hbehind. unfold _ensureFragmentAtLivePoint_sync. run.
    rewrite Hbehind.
    destruct (media s) as [m|] eqn:Hm; cbn.
    + destruct (truthyZ (Media.readyState m) && _) eqn:E; cbn;
        eexists; (split; [reflexivity|]); cbn; auto.
    + eexists; (split; [reflexivity|]); cbn; auto.
  - intros H1 H2 H3 H4. unfold computeLivePosition.
    rewrite H1, H2, H3, H4. reflexivity.
Qed.

End LiveSync.

Section LoadFragment.
Context `{B : BaseController}.


(** C9.  [_loadFragment (frag)] sets [fragCurrent] to the fragment and
    [startFragRequested] to true and, when the fragment's [sn] is finite
    and no bitrate test is running, [nextLoadPosition] to
    [frag.start + frag.duration], and only then dispatches on the
    tracker's answer; when the tracker answers LOADING, OK or APPENDING
    for a fragment that is not backtracked nothing is loaded (the state,
    the log and the fragments are as before), and the three fields are
    set all the same. *)
Theorem _loadFragment_marks_before_dispatch (s : SC) (frag : FragRef) :
  _loadFragment frag s =
    _loadFragment_dispatch frag
      (tracker_getState (fragmentTracker s) (frags s !!! frag))
      (marked_for_load frag s)
  /\ fragCurrent (marked_for_load frag s) = Some frag
  /\ startFragRequested (marked_for_load frag s) = true
  /\ (SN_isFinite (Fragment.sn (frags s !!! frag)) = true ->
      bitrateTest s = false ->
      nextLoadPosition (marked_for_load frag s) =
        (Fragment.start (frags s !!! frag) + Fragment.duration (frags s !!! frag))%Q)
  /\ (Fragment.backtracked (frags s !!! frag) = false ->
      match tracker_getState (fragmentTracker s) (frags s !!! frag) with
      | LOADING | OK | APPENDING => True
      | NOT_LOADED | PARTIAL => False
      end ->
      exists s',
        _loadFragment frag s = Done tt s'
        /\ fragCurrent s' = Some frag
        /\ startFragRequested s' = true
        /\ nextLoadPosition s' = nextLoadPosition (marked_for_load frag s)
        /\ state s' = state s /\ log s' = log s /\ frags s' = frags s).
Proof.
  assert (Hrun : _loadFragment frag s =
    _loadFragment_dispatch frag
      (tracker_getState (fragmentTracker s) (frags s !!! frag))
      (marked_for_load frag s)).
  { unfold _loadFragment, marked_for_load. run.
    destruct (SN_isFinite _ && negb (bitrateTest s)); reflexivity. }
  split; [exact Hrun|].
  assert (Hfr : frags (marked_for_load frag s) = frags s).
  { unfold marked_for_load. destruct (SN_isFinite _ && _); reflexivity. }
  repeat split.
  - unfold marked_for_load. destruct (SN_isFinite _ && _); reflexivity.
  - unfold marked_for_load. destruct (SN_isFinite _ && _); reflexivity.
  - intros Hfin Hbt. unfold marked_for_load. rewrite Hfin, Hbt. reflexivity.
  - intros Hback Hst. rewrite Hrun.
    unfold _loadFragment_dispatch, _reduceMaxBufferLength. run.
    rewrite Hfr, Hback. cbn.
    assert (Hst' : state (marked_for_load frag s) = state s
                   /\ log (marked_for_load frag s) = log s
                   /\ fragCurrent (marked_for_load frag s) = Some frag
                   /\ startFragRequested (marked_for_load frag s) = true).
    { unfold marked_for_load. destruct (SN_isFinite _ && _); cbn; auto. }
    destruct Hst' as (H1 & H2 & H3 & H4).
    destruct (tracker_getState (fragmentTracker s) (frags s !!! frag));
      try contradiction; cbn.
    + eexists. split; [reflexivity|]. auto 10.
    + destruct (Qgeb _ _); cbn; eexists; (split; [reflexivity|]); cbn; auto 10.
    + eexists. split; [reflexivity|]. auto 10.
Qed.

End LoadFragment.

Section ImmediateSwitch.
Context `{C : Collaborators}.

(** C10.  Every call of [immediateLevelSwitch] aborts the loader of the
    current fragment if it has one, clears [fragCurrent] and flushes
    [0, +infinity); the media is paused and [previouslyPaused] recorded
    only when no immediate switch is in progress.  A call made while
    [immediateSwitch] is true neither pauses the media nor touches
    [previouslyPaused]; so after a first and a repeated call
    [previouslyPaused] is the [paused] flag the media had at the first
    call, and [immediateLevelSwitchEnd] resumes playback exactly when
    that flag was false. *)
Theorem immediateLevelSwitch_repeated (s : SC) :
  (exists s',
      immediateLevelSwitch s = Done tt s'
      /\ fragCurrent s' = None
      /\ state s' = BUFFER_FLUSHING
      /\ immediateSwitch s' = true
      /\ log s' =
           log s
           ++ (if immediateSwitch s then []
               else match media s with Some _ => [Event.media_pause] | None => [] end)
           ++ match fragCurrent s with
              | Some f => if Fragment.hasLoader (frags s !!! f)
                          then [Event.loader_abort f] else []
              | None => []
              end
           ++ [Event.BUFFER_FLUSHING 0 PosInfinity
                 (if altAudio s then Some "video"%string else None)]
      /\ (immediateSwitch s = true ->
          previouslyPaused s' = previouslyPaused s /\ media s' = media s)
      /\ (immediateSwitch s = false ->
          previouslyPaused s' =
            match media s with Some m => Media.paused m | None => true end))
  /\ (immediateSwitch s = false ->
      previouslyPaused (final (immediateLevelSwitch (final (immediateLevelSwitch s))))
        = match media s with Some m => Media.paused m | None => true end)
  /\ (forall m r rest, media s = Some m -> Media.buffered m = r :: rest ->
      exists s',
        immediateLevelSwitchEnd s = Done tt s'
        /\ immediateSwitch s' = false
        /\ log s' = log s ++ (if previouslyPaused s then [] else [Event.media_play])).
Proof.
  assert (Hcall : forall s0 : SC, exists s',
      immediateLevelSwitch s0 = Done tt s'
      /\ fragCurrent s' = None
      /\ state s' = BUFFER_FLUSHING
      /\ immediateSwitch s' = true
      /\ log s' =
           log s0
           ++ (if immediateSwitch s0 then []
               else match media s0 with Some _ => [Event.media_pause] | None => [] end)
           ++ match fragCurrent s0 with
              | Some f => if Fragment.hasLoader (frags s0 !!! f)
                          then [Event.loader_abort f] else []
              | None => []
              end
           ++ [Event.BUFFER_FLUSHING 0 PosInfinity
                 (if altAudio s0 then Some "video"%string else None)]
      /\ (immediateSwitch s0 = true ->
          previouslyPaused s' = previouslyPaused s0 /\ media s' = media s0)
      /\ (immediateSwitch s0 = false ->
          previouslyPaused s' =
            match media s0 with Some m => Media.paused m | None => true end)).
  { intros s0. unfold immediateLevelSwitch, flushMainBuffer. run.
    destruct (immediateSwitch s0) eqn:Hsw; cbn;
      destruct (media s0) as [m|] eqn:Hm; cbn;
      destruct (fragCurrent s0) as [f|] eqn:Hf; cbn;
      try destruct (Fragment.hasLoader (frags s0 !!! f)) eqn:Hl; cbn;
      eexists; (split; [reflexivity|]); cbn;
      rewrite ?Hsw, <- ?app_assoc; cbn;
      repeat split; auto; discriminate. }
  split; [exact (Hcall s)|]. split.
  - intros Hsw.
    destruct (Hcall s) as (s1 & Hrun1 & _ & _ & Hsw1 & _ & _ & Hpp1).
    destruct (Hcall s1) as (s2 & Hrun2 & _ & _ & _ & _ & Hpp2 & _).
    rewrite Hrun1. change (final (Done tt s1)) with s1.
    rewrite Hrun2. change (final (Done tt s2)) with s2.
    destruct (Hpp2 Hsw1) as [-> _]. exact (Hpp1 Hsw).
  - intros m r rest Hm Hb. unfold immediateLevelSwitchEnd. run.
    rewrite Hm, Hb. cbn.
    destruct (isBuffered m (Media.currentTime m)); cbn;
      destruct (previouslyPaused s); cbn;
      eexists; (split; [reflexivity|]); cbn; rewrite ?app_nil_r; auto.
Qed.

End ImmediateSwitch.

Section ParseFrames.
Context `{B : BaseController}.


Lemma parse_step_refl (lvl : nat) (s : SC) : parse_step lvl s s.
Proof.
  repeat split. exists []. split; [symmetry; apply app_nil_r|reflexivity].
Qed.

Lemma parse_step_trans (lvl : nat) (s1 s2 s3 : SC) :
  parse_step lvl s1 s2 -> parse_step lvl s2 s3 -> parse_step lvl s1 s3.
Proof.
  intros (F1 & T1 & L1 & l1 & E1 & N1) (F2 & T2 & L2 & l2 & E2 & N2).
  repeat split.
  - intros r. rewrite F2. apply F1.
  - congruence.
  - congruence.
  - exists (l1 ++ l2). split.
    + rewrite E2, E1, app_assoc. reflexivity.
    + rewrite forallb_app, N1, N2. reflexivity.
Qed.

Lemma playback_event_not_data (l : list Event.t) :
  forallb playback_event l = true ->
  forallb (fun e => negb (data_append e)) l = true.
Proof.
  induction l as [|e l IH]; [reflexivity|]. cbn.
  intros H. apply andb_prop in H as [He Hl].
  rewrite (IH Hl), andb_true_r. destruct e; try discriminate; reflexivity.
Qed.

Lemma playback_parse_step (lvl : nat) (s s' : SC) :
  playback_step s s' -> parse_step lvl s s'.
Proof.
  intros [Heq (l & Hl & Hp)]. repeat split.
  - intros r. rewrite Heq. reflexivity.
  - rewrite Heq. reflexivity.
  - rewrite Heq. reflexivity.
  - exists l. split; [exact Hl|]. apply playback_event_not_data, Hp.
Qed.

(** Writing timing on every fragment keeps the rest of each. *)
Lemma untimed_retimed (store : gmap nat Fragment.t)
    (h : FragRef -> Timing.t -> Timing.t) (r : FragRef) :
  untimed (map_imap (fun r fo =>
             Some (Fragment.set_time (h r (Fragment.time fo)) fo)) store !!! r)
  = untimed (store !!! r).
Proof.
  rewrite !lookup_total_alt, map_lookup_imap.
  destruct (store !! r); reflexivity.
Qed.

Lemma untimed_insert (store : gmap nat Fragment.t) (k r : FragRef)
    (g : Fragment.t -> Fragment.t) :
  (forall f, untimed (g f) = untimed f) ->
  untimed (<[k := g (store !!! k)]> store !!! r) = untimed (store !!! r).
Proof.
  intros Hg. destruct (decide (k = r)) as [->|Hne].
  - rewrite lookup_total_insert_eq. apply Hg.
  - rewrite lookup_total_insert_ne by exact Hne. reflexivity.
Qed.

(** [_updateTiming] on a level that exists. *)
Lemma _updateTiming_frame (frag : FragRef) (lvl : nat) (data : option Remuxed.t)
    (s : SC) (ls : list Level.t) (lo : Level.t) :
  levels s = Some ls -> ls !! lvl = Some lo ->
  exists s', _updateTiming frag lvl data s = Done tt s'
             /\ parse_step lvl s s' /\ altAudio s' = altAudio s.
Proof.
  intros Hls Hlo. destruct data as [d|]; cbn.
  2:{ exists s. split; [reflexivity|]. split; [apply parse_step_refl|reflexivity]. }
  unfold _updateTiming, level_object. run.
  destruct (Remuxed.hasAudio d), (Remuxed.hasVideo d); cbn;
    rewrite Hls; cbn; rewrite Hlo; cbn;
    (eexists; split; [reflexivity|]; cbn; split; [|reflexivity];
     repeat split; cbn;
     [ intros r; rewrite untimed_retimed, ?untimed_insert;
       try reflexivity; intros f; reflexivity
     | unfold level_startSN; cbn; rewrite Hls; cbn;
       rewrite list_lookup_insert_eq by (apply lookup_lt_Some in Hlo; exact Hlo);
       rewrite Hlo; cbn; destruct (Level.details lo); reflexivity
     | eexists; split; reflexivity ]).
Qed.

End ParseFrames.

Section Transmux.
Context `{B : BaseController}.

Arguments tick : simpl never.
Arguments for_each : simpl never.
Arguments _bufferInitSegment : simpl never.
Arguments _updateTiming : simpl never.

(** The appends of init segments touch the two buffering flags and the
    log, where they add no fragment payload. *)
Lemma init_appends_frame (tracks : list (string * option nat)) (s : SC) :
  exists s',
    for_each tracks (fun tr =>
      match snd tr with
      | Some initSegment =>
          bind (assign set_appended true) (fun _ =>
          bind (assign set_pendingBuffering true) (fun _ =>
          trigger (Event.BUFFER_APPENDING (fst tr) initSegment "main" "initSegment")))
      | None => ret tt
      end) s = Done tt s'
    /\ s' = set_log (log s')
              (set_appended (appended s')
                 (set_pendingBuffering (pendingBuffering s') s))
    /\ exists l, log s' = log s ++ l
                 /\ forallb (fun e => negb (data_append e)) l = true.
Proof.
  revert s. induction tracks as [|[name init] tracks IH]; intros s.
  - exists s. split; [reflexivity|]. split; [destruct s; reflexivity|].
    exists []. split; [symmetry; apply app_nil_r|reflexivity].
  - unfold for_each; fold (@for_each C (string * option nat)).
    destruct init as [n|]; run.
    + destruct (IH (set_log (log s ++ [Event.BUFFER_APPENDING name n "main" "initSegment"])
                      (set_pendingBuffering true (set_appended true s))))
        as (s' & Hrun & Heq & l & Hl & Hn).
      exists s'. split; [exact Hrun|]. split.
      * rewrite Heq. reflexivity.
      * cbn in Hl. eexists. split; [rewrite Hl, <- app_assoc; reflexivity|].
        cbn. exact Hn.
    + apply IH.
Qed.

Lemma _bufferInitSegment_frame (lvl : nat) (tracks : list (string * option nat))
    (s : SC) :
  state s = PARSING ->
  exists s', _bufferInitSegment lvl tracks s = Done tt s' /\ parse_step lvl s s'.
Proof.
  intros Hst. unfold _bufferInitSegment.
  unfold bind at 1. unfold gets at 1. rewrite Hst. cbn [State_eqb negb].
  unfold bind at 1. unfold gets at 1.
  unfold bind at 1. unfold trigger at 1, modify at 1.
  set (tracks' := if altAudio s then _ else tracks).
  set (s1 := set_log (log s ++ [Event.BUFFER_CODECS tracks']) s).
  destruct (init_appends_frame tracks' s1) as (s2 & Hrun & Heq & l & Hl & Hn).
  unfold bind at 1. rewrite Hrun.
  assert (Hst2 : state s2 = PARSING) by (rewrite Heq; exact Hst).
  destruct (doTick_passive s2) as (s3 & Htick & Hp); [rewrite Hst2; exact I|].
  exists s3. split; [exact Htick|].
  apply (parse_step_trans lvl s s2 s3); [|apply playback_parse_step, Hp].
  repeat split; try (rewrite Heq; reflexivity).
  exists (Event.BUFFER_CODECS tracks' :: l). split.
  - rewrite Hl. unfold s1. cbn. rewrite <- app_assoc. reflexivity.
  - exact Hn.
Qed.


Lemma level_startSN_Some (s : SC) (lvl : nat) (x : Z) :
  level_startSN s lvl = Some x ->
  exists ls lo d, levels s = Some ls /\ ls !! lvl = Some lo
                  /\ Level.details lo = Some d /\ LevelDetails.startSN d = x.
Proof.
  unfold level_startSN. intros H.
  destruct (levels s) as [ls|]; [|discriminate].
  destruct (ls !! lvl) as [lo|] eqn:Hlo; [|discriminate].
  destruct (Level.details lo) as [d|] eqn:Hd; [|discriminate].
  cbn in H. injection H as H. exists ls, lo, d. auto.
Qed.

Lemma SN_eqb_neq (a b : SN) : a <> b -> SN_eqb a b = false.
Proof.
  destruct a as [x|], b as [y|]; cbn; try reflexivity.
  - intros H. apply Z.eqb_neq. congruence.
  - congruence.
Qed.

Arguments _hasDroppedFrames : simpl never.
Arguments _backtrack : simpl never.
Arguments _bufferFragmentData : simpl never.
Arguments level_object : simpl never.
Arguments _handleTransmuxComplete_init : simpl never.

Lemma level_object_run (s : SC) (lvl : nat) (ls : list Level.t) (lo : Level.t) :
  levels s = Some ls -> ls !! lvl = Some lo -> level_object lvl s = Done lo s.
Proof. intros Hls Hlo. unfold level_object. run. rewrite Hls. cbn. rewrite Hlo. reflexivity. Qed.

(** Frames dropped from a fragment that is neither backtracked nor the
    first of its level: the count is recorded and the answer is yes. *)
Lemma _hasDroppedFrames_backtrack (s : SC) (frag : FragRef) (dropped startSN : Z) :
  dropped <> 0 ->
  Fragment.backtracked (frags s !!! frag) = false ->
  Fragment.sn (frags s !!! frag) <> SnNumber startSN ->
  _hasDroppedFrames frag dropped startSN s =
    Done true
      (set_frags (<[frag := Fragment.set_dropped dropped (frags s !!! frag)]> (frags s)) s).
Proof.
  intros Hd Hb Hsn. unfold _hasDroppedFrames, truthyZ. run.
  destruct (Z.eqb_spec dropped 0); [contradiction|]. cbn.
  rewrite lookup_total_insert_eq. cbn. rewrite Hb, (SN_eqb_neq _ _ Hsn). reflexivity.
Qed.

(** C4.  When a transmux completion still matches the current fragment
    and level, the video track reports [dropped > 0], the fragment is not
    the first of the level ([sn] differs from [startSN]) and is not
    backtracked, [_handleTransmuxComplete] backtracks: it removes the
    fragment from the tracker, sets its [backtracked] flag, sets
    [nextLoadPosition] to the video track's [startPTS], the state to
    IDLE and [fragPrevious] to the fragment, hands no payload of the
    fragment to the buffer sink, and ends with the [tick ()] that closes
    [_backtrack]. *)
Theorem _handleTransmuxComplete_backtracks (s : SC) (r : TransmuxResult.t)
    (frag : FragRef) (lvl : nat) (v : Remuxed.t) (ls : list Level.t)
    (lo : Level.t) (d : LevelDetails.t) :
  getCurrentContext s (TransmuxResult.id_level r) (TransmuxResult.id_sn r)
    = Some (frag, lvl) ->
  TransmuxResult.video r = Some v ->
  0 < Remuxed.dropped v ->
  levels s = Some ls -> ls !! lvl = Some lo -> Level.details lo = Some d ->
  Fragment.sn (frags s !!! frag) <> SnNumber (LevelDetails.startSN d) ->
  Fragment.backtracked (frags s !!! frag) = false ->
  exists (sb : SC) (tracked : Fragment.t),
    _handleTransmuxComplete r s = tick sb
    /\ fragmentTracker sb = tracker_removeFragment (fragmentTracker s) tracked
    /\ Fragment.sn tracked = Fragment.sn (frags s !!! frag)
    /\ Fragment.level tracked = Fragment.level (frags s !!! frag)
    /\ Fragment.backtracked (frags sb !!! frag) = true
    /\ nextLoadPosition sb = Remuxed.startPTS v
    /\ state sb = IDLE
    /\ fragPrevious sb = Some frag
    /\ exists sent, log sb = log s ++ sent
                    /\ forallb (fun e => negb (data_append e)) sent = true.
Proof.
  intros Hctx Hv Hdrop Hls Hlo Hd Hsn Hbt.
  assert (Hstart : level_startSN s lvl = Some (LevelDetails.startSN d)).
  { unfold level_startSN. rewrite Hls, Hlo, Hd. reflexivity. }
  unfold _handleTransmuxComplete. run. rewrite Hctx, Hv.
  (* timing of the audio track, then of the video track *)
  destruct (_updateTiming_frame frag lvl
              (if altAudio s then None else TransmuxResult.audio r) s ls lo Hls Hlo)
    as (s1 & H1 & P1 & _).
  rewrite H1.
  assert (Hstart1 : level_startSN s1 lvl = Some (LevelDetails.startSN d)).
  { destruct P1 as (_ & _ & -> & _). exact Hstart. }
  destruct (level_startSN_Some s1 lvl _ Hstart1) as (ls1 & lo1 & d1 & Hls1 & Hlo1 & _).
  destruct (_updateTiming_frame frag lvl (Some v) s1 ls1 lo1 Hls1 Hlo1)
    as (s2 & H2 & P2 & _).
  rewrite H2.
  pose proof (parse_step_trans lvl s s1 s2 P1 P2) as P12.
  (* the init segment, if the result carries one *)
  set (s3 := set_appended false (set_pendingBuffering true (set_state PARSING s2))).
  assert (P3 : parse_step lvl s s3).
  { apply (parse_step_trans lvl s s2 s3 P12). repeat split.
    exists []. split; [symmetry; apply app_nil_r|reflexivity]. }
  assert (Hinit : exists s4,
    _handleTransmuxComplete_init frag lvl (TransmuxResult.initSegment r) s3
      = Done tt s4 /\ parse_step lvl s s4).
  { unfold _handleTransmuxComplete_init.
    destruct (TransmuxResult.initSegment r) as [init|]; [|exists s3; auto].
    assert (Hpts : forall s0, parse_step lvl s s0 -> exists s4,
              match InitSegment.initPTS init with
              | Some initPTS => trigger (Event.INIT_PTS_FOUND frag initPTS)
              | None => ret tt
              end s0 = Done tt s4 /\ parse_step lvl s s4).
    { intros s0 P0. destruct (InitSegment.initPTS init) as [p|]; [|exists s0; auto].
      eexists. split; [reflexivity|].
      apply (parse_step_trans lvl s s0 _ P0). repeat split.
      eexists. split; reflexivity. }
    unfold bind at 1.
    destruct (InitSegment.tracks init) as [tracks|]; [|apply Hpts, P3].
    destruct (_bufferInitSegment_frame lvl tracks s3 eq_refl) as (s4 & H4 & P4).
    unfold bind at 1. rewrite H4. unfold trigger at 1, modify at 1. apply Hpts.
    apply (parse_step_trans lvl s s3 _ P3).
    apply (parse_step_trans lvl s3 s4 _ P4). repeat split.
    eexists. split; reflexivity. }
  destruct Hinit as (s4 & H4 & P4). fold s3. rewrite H4.
  (* the dropped frames of the video track *)
  assert (Hstart4 : level_startSN s4 lvl = Some (LevelDetails.startSN d)).
  { destruct P4 as (_ & _ & -> & _). exact Hstart. }
  destruct (level_startSN_Some s4 lvl _ Hstart4)
    as (ls4 & lo4 & d4 & Hls4 & Hlo4 & Hd4 & Hsn4).
  rewrite (level_object_run s4 lvl ls4 lo4 Hls4 Hlo4), Hd4. cbn. rewrite Hsn4.
  destruct P4 as (F4 & T4 & _ & sent & Hlog4 & Hsent).
  assert (Hbt4 : Fragment.backtracked (frags s4 !!! frag) = false).
  { rewrite <- Hbt. apply (f_equal Fragment.backtracked (F4 frag)). }
  assert (Hsn4' : Fragment.sn (frags s4 !!! frag) <> SnNumber (LevelDetails.startSN d)).
  { intros E. apply Hsn. rewrite <- E. symmetry.
    apply (f_equal Fragment.sn (F4 frag)). }
  assert (Hnz : Remuxed.dropped v <> 0) by lia.
  rewrite (_hasDroppedFrames_backtrack s4 frag _ _ Hnz Hbt4 Hsn4').
  unfold _backtrack, _backtrack_mark. run.
  match goal with |- context [tick ?x] => exists x end.
  exists (<[frag := Fragment.set_dropped (Remuxed.dropped v) (frags s4 !!! frag)]>
            (frags s4) !!! frag).
  split; [destruct (tick _) as [[] s6|s6]; reflexivity|]. cbn.
  rewrite !lookup_total_insert_eq. cbn.
  split; [rewrite T4; reflexivity|].
  split; [apply (f_equal Fragment.sn (F4 frag))|].
  split; [apply (f_equal Fragment.level (F4 frag))|].
  repeat (split; [reflexivity|]).
  exists sent. auto.
Qed.

End Transmux.

(** C4 at scenario S3: fragment sn 6 comes back with 5 frames dropped;
    it is marked backtracked, the next load position is its video start,
    and the tick that closes the backtrack selects and loads sn 5. *)
Lemma _handleTransmuxComplete_backtracks_S3 :
  (exists sb : SC,
      _handleTransmuxComplete (B := Spec.base) Scenario.dropped_video
        Scenario.parsing_state = tick (B := Spec.base) sb
      /\ Fragment.backtracked (frags sb !!! 1%nat) = true
      /\ nextLoadPosition sb = 6%Q
      /\ state sb = IDLE)
  /\ fragCurrent (final (_handleTransmuxComplete (B := Spec.base)
                           Scenario.dropped_video Scenario.parsing_state))
     = Some 0%nat
  /\ state (final (_handleTransmuxComplete (B := Spec.base)
                     Scenario.dropped_video Scenario.parsing_state))
     = FRAG_LOADING.
Proof.
  split; [|split; vm_compute; reflexivity].
  destruct (_handleTransmuxComplete_backtracks (B := Spec.base)
              Scenario.parsing_state Scenario.dropped_video 1%nat 0%nat
              (Remuxed.mk "video" 6 (Some 12%Q) 6 (Some 12%Q) false true 5
                 (Some 1000%nat) None)
              [Level.mk 500000 (Some Scenario.vod_details)]
              (Level.mk 500000 (Some Scenario.vod_details))
              Scenario.vod_details
              eq_refl eq_refl eq_refl eq_refl eq_refl eq_refl
              ltac:(discriminate) eq_refl)
    as (sb & tracked & Hrun & _ & _ & _ & Hb & Hn & Hs & _).
  exists sb. auto.
Defined.

(** C7 on a controller with 40 s buffered ahead and a cap of 30 s. *)
Lemma doTick_idle_enough_buffer_40s :
  _doTickIdle (B := Spec.base) Scenario.buffered_state
    = Done tt Scenario.buffered_state.
Proof.
  refine (proj1 (doTick_idle_enough_buffer (B := Spec.base)
                   Scenario.buffered_state
                   [Level.mk 20000000 (Some Scenario.vod_details)]
                   (Level.mk 20000000 (Some Scenario.vod_details)) 0
                   eq_refl eq_refl eq_refl eq_refl _)).
  vm_compute. discriminate.
Defined.

(** C8 on scenario S2. *)
Lemma _ensureFragmentAtLivePoint_live_sync_S2 :
  computeLivePosition (config (Scenario.live_state 4)) 1000 Scenario.live_details
    = 1030%Q.
Proof.
  refine (proj2 (proj2 (_ensureFragmentAtLivePoint_live_sync
                          (Scenario.live_state 4) Scenario.live_details 0 1000 1048))
            _ _ _ _); reflexivity.
Defined.

(** C8 fails as stated: on scenario S2 the live sync position, to which
    [currentTime] is set, is 1030 and not 1024; and while the media's
    [readyState] is 0, [currentTime] is not set at all. *)
Lemma _ensureFragmentAtLivePoint_sync_S2_is_1030 :
  behind_live (config (Scenario.live_state 4)) Scenario.live_details 0 1000 1048 = true
  /\ option_map Media.currentTime
       (media (final (_ensureFragmentAtLivePoint_sync Scenario.live_details
                        0 1000 1048 (Scenario.live_state 4)))) = Some 1030%Q
  /\ (1024 < 1030)%Q
  /\ option_map Media.currentTime
       (media (final (doTick (B := Spec.base) (Scenario.live_state 4)))) = Some 1030%Q
  /\ option_map Media.currentTime
       (media (final (_ensureFragmentAtLivePoint_sync Scenario.live_details
                        0 1000 1048 (Scenario.live_state 0)))) = Some 0%Q
  /\ nextLoadPosition
       (final (_ensureFragmentAtLivePoint_sync Scenario.live_details
                 0 1000 1048 (Scenario.live_state 0))) = 1030%Q.
Proof. repeat split; vm_compute; reflexivity. Qed.

(** C9 on a fragment the tracker holds as buffered: sn 6 is marked as
    the current fragment and the next load position moves to its end,
    12, though nothing is loaded. *)
Lemma _loadFragment_marks_before_dispatch_tracked_ok :
  exists s',
    _loadFragment (B := Spec.base) 1%nat Scenario.tracked_state = Done tt s'
    /\ fragCurrent s' = Some 1%nat
    /\ startFragRequested s' = true
    /\ nextLoadPosition s' = (6 + 6)%Q
    /\ state s' = IDLE.
Proof.
  destruct (proj2 (proj2 (proj2 (proj2
              (_loadFragment_marks_before_dispatch (B := Spec.base)
                 Scenario.tracked_state 1%nat)))) eq_refl I)
    as (s' & Hrun & Hc & Hr & Hn & Hs & _).
  exists s'. rewrite Hn. auto.
Defined.

(** C10 on a playing media: the first call pauses it and records that it
    was playing; a second call leaves the record alone. *)
Lemma immediateLevelSwitch_repeated_while_playing :
  previouslyPaused
    (final (immediateLevelSwitch
              (final (immediateLevelSwitch Scenario.buffered_state)))) = false.
Proof.
  exact (proj1 (proj2 (immediateLevelSwitch_repeated Scenario.buffered_state))
           eq_refl).
Defined.

(** * Further properties

    Properties of the code beside those above: the other branches of the
    methods, and the handlers of the second part of the model. *)

Section OnErrorMore.
Context `{C : Collaborators}.

(** X1.  [onError] leaves the controller and the event as they are when
    the error is about a fragment that is not a main fragment, when a
    fragment or key load failure is already fatal, when the error is none
    of those it handles, when a level load failure arrives in ERROR, and
    when the buffer is full for another parent or outside PARSING and
    PARSED. *)
Theorem onError_not_handled (s : SC) (data : ErrorData.t) :
  not_main_frag s data = true
  \/ (retryable (ErrorData.details data) = true /\ ErrorData.fatal data = true)
  \/ ErrorData.details data = OTHER_ERROR
  \/ ((ErrorData.details data = LEVEL_LOAD_ERROR
       \/ ErrorData.details data = LEVEL_LOAD_TIMEOUT) /\ state s = ERROR)
  \/ (ErrorData.details data = BUFFER_FULL_ERROR
      /\ (String.eqb (ErrorData.parent data) "main" = false
          \/ (state s <> PARSING /\ state s <> PARSED))) ->
  onError data s = Done data s.
Proof.
  intros H. unfold onError. run.
  destruct (not_main_frag s data) eqn:Hnm; [reflexivity|]. cbn.
  destruct H as [H|[[Hr Hf]|[H|[[H Hst]|[H Hp]]]]].
  - discriminate.
  - rewrite Hf. destruct (ErrorData.details data); try discriminate; reflexivity.
  - rewrite H. reflexivity.
  - destruct H as [-> | ->]; cbn; rewrite Hst; reflexivity.
  - rewrite H. destruct Hp as [-> | [H1 H2]]; [reflexivity|].
    destruct (state s); try contradiction; cbn; rewrite ?andb_false_r; reflexivity.
Qed.

(** X2.  A level load failure ([LEVEL_LOAD_ERROR], [LEVEL_LOAD_TIMEOUT])
    writes nothing but the state: outside ERROR a fatal one moves to
    ERROR, and one that is not fatal moves from WAITING_LEVEL back to
    IDLE when the level controller is not retrying, and changes nothing
    otherwise. *)
Theorem onError_level_load (s : SC) (data : ErrorData.t) :
  ErrorData.details data = LEVEL_LOAD_ERROR
  \/ ErrorData.details data = LEVEL_LOAD_TIMEOUT ->
  not_main_frag s data = false ->
  onError data s =
    Done data
      (set_state
         (if State_eqb (state s) ERROR then ERROR
          else if ErrorData.fatal data then ERROR
          else if negb (ErrorData.levelRetry data)
                  && State_eqb (state s) WAITING_LEVEL
               then IDLE else state s) s).
Proof.
  intros Hd Hnm. unfold onError. run. rewrite Hnm. cbn.
  destruct s as [st]. cbn.
  destruct Hd as [-> | ->]; cbn;
    destruct st; cbn; try reflexivity;
    destruct (ErrorData.fatal data); cbn; try reflexivity;
    destruct (ErrorData.levelRetry data); reflexivity.
Qed.

(** X3.  [onError] keeps the retry counter within the retry limit: if
    [fragLoadError <= fragLoadingMaxRetry] before an error event, of
    whatever kind, it is so after it, and the limit itself is not
    changed. *)
Theorem onError_retry_count_bounded (s : SC) (data : ErrorData.t) :
  fragLoadError s <= Config.fragLoadingMaxRetry (config s) ->
  fragLoadError (final (onError data s))
    <= Config.fragLoadingMaxRetry (config (final (onError data s)))
  /\ Config.fragLoadingMaxRetry (config (final (onError data s)))
     = Config.fragLoadingMaxRetry (config s).
Proof.
  intros Hle. unfold onError, _reduceMaxBufferLength, flushMainBuffer. run.
  destruct (not_main_frag s data); cbn; [auto|].
  destruct (ErrorData.details data); cbn;
    repeat match goal with
    | |- context [if ?b then _ else _] => destruct b eqn:?; cbn
    | |- context [match error_frag s data with _ => _ end] =>
        destruct (error_frag s data); cbn
    end; auto;
    match goal with
    | H : (_ <=? _) = true |- _ => apply Z.leb_le in H; split; [lia|reflexivity]
    end.
Qed.

End OnErrorMore.

Section TickMore.
Context `{B : BaseController}.

(** What a tick does before its two closing checks when the state is not
    IDLE. *)
Lemma doTick_outside_idle_run (s : SC) :
  state s <> IDLE ->
  doTick s =
    bind _checkBuffer (fun _ => _checkFragmentChanged)
      (match state s with
       | BUFFER_FLUSHING => set_fragLoadError 0 s
       | WAITING_LEVEL =>
           if match levels s with
              | Some ls =>
                  match at_index ls (level s) with
                  | Some li => bool_decide (is_Some (Level.details li))
                  | None => false
                  end
              | None => false
              end
           then set_state IDLE s else s
       | FRAG_LOADING_WAITING_RETRY =>
           if negb (truthyQ (retryDate s)) || Qgeb (now s) (retryDate s)
              || match media s with Some m => Media.seeking m | None => false end
           then set_state IDLE s else s
       | _ => s
       end).
Proof.
  intros Hst. unfold doTick.
  unfold bind at 1. unfold gets at 1.
  destruct (state s) eqn:E; try contradiction; try reflexivity.
  - (* WAITING_LEVEL *)
    unfold bind at 1. unfold bind at 1. unfold gets at 1.
    unfold bind at 1. unfold gets at 1. unfold when, assign, modify, ret.
    destruct (match levels s with Some _ => _ | None => _ end); reflexivity.
  - (* FRAG_LOADING_WAITING_RETRY *)
    unfold bind at 1. unfold bind at 1. unfold gets at 1.
    unfold bind at 1. unfold gets at 1.
    unfold bind at 1. unfold gets at 1. unfold when, assign, modify, ret.
    destruct (_ || _ || _); reflexivity.
Qed.

(** X4.  Outside IDLE a tick selects and loads nothing.  It returns,
    leaves [fragCurrent], [fragPrevious], [nextLoadPosition], [level],
    the configuration, the fragments and the tracker as they are, and
    sends only what its two closing checks send (FRAG_CHANGED,
    LEVEL_SWITCHED, [media.play ()]).  The state changes in two cases
    only, both to IDLE: from WAITING_LEVEL once [levels[level].details]
    is there, and from FRAG_LOADING_WAITING_RETRY once [retryDate] is 0,
    or is reached, or the media is seeking.  The retry counter is reset
    to 0 in BUFFER_FLUSHING and kept otherwise. *)
Theorem doTick_outside_idle (s : SC) :
  state s <> IDLE ->
  exists s',
    doTick s = Done tt s'
    /\ state s' =
         match state s with
         | WAITING_LEVEL =>
             if match levels s with
                | Some ls =>
                    match at_index ls (level s) with
                    | Some li => bool_decide (is_Some (Level.details li))
                    | None => false
                    end
                | None => false
                end
             then IDLE else WAITING_LEVEL
         | FRAG_LOADING_WAITING_RETRY =>
             if negb (truthyQ (retryDate s)) || Qgeb (now s) (retryDate s)
                || match media s with Some m => Media.seeking m | None => false end
             then IDLE else FRAG_LOADING_WAITING_RETRY
         | st => st
         end
    /\ fragLoadError s' =
         match state s with BUFFER_FLUSHING => 0 | _ => fragLoadError s end
    /\ fragCurrent s' = fragCurrent s
    /\ fragPrevious s' = fragPrevious s
    /\ nextLoadPosition s' = nextLoadPosition s
    /\ level s' = level s
    /\ config s' = config s
    /\ frags s' = frags s
    /\ fragmentTracker s' = fragmentTracker s
    /\ exists sent, log s' = log s ++ sent
                    /\ forallb playback_event sent = true.
Proof.
  intros Hst. rewrite (doTick_outside_idle_run s Hst).
  match goal with
  | |- context [bind _ _ ?s0] =>
      destruct (checks_frame s0) as (s' & Hrun & [Heq Hlog])
  end.
  exists s'. split; [exact Hrun|].
  rewrite Heq. clear Heq Hrun.
  destruct (state s) eqn:E; try contradiction; cbn;
    repeat match goal with
    | |- context [if ?b then _ else _] => destruct b; cbn
    end;
    rewrite ?E; repeat (split; [reflexivity|]); cbn in Hlog; exact Hlog.
Qed.

End TickMore.

Section RetryTick.
Context `{B : BaseController}.

(** The state of the controller after the two closing checks. *)
Lemma checks_state (s : SC) :
  state (final (bind _checkBuffer (fun _ => _checkFragmentChanged) s)) = state s.
Proof.
  destruct (checks_frame s) as (s' & Hrun & [Heq _]).
  rewrite Hrun. cbn. rewrite Heq. reflexivity.
Qed.

Lemma onError_retry_fields (s : SC) (data : ErrorData.t) (f : FragRef) :
  retryable (ErrorData.details data) = true ->
  ErrorData.fatal data = false ->
  error_frag s data = Some f ->
  Fragment.type (frags s !!! f) = "main"%string ->
  fragLoadError s < Config.fragLoadingMaxRetry (config s) ->
  state (final (onError data s)) = FRAG_LOADING_WAITING_RETRY
  /\ retryDate (final (onError data s)) =
       (now s + Qmin (2 ^ fragLoadError s * Config.fragLoadingRetryDelay (config s))
                     (Config.fragLoadingMaxRetryTimeout (config s)))%Q
  /\ now (final (onError data s)) = now s
  /\ media (final (onError data s)) = media s.
Proof.
  intros Hd Hf Hfr Hty Hlt.
  unfold onError. run.
  rewrite (not_main_frag_main s data f Hfr Hty), Hfr, Hf. cbn.
  assert (E : (fragLoadError s + 1 <=? Config.fragLoadingMaxRetry (config s)) = true)
    by (apply Z.leb_le; lia).
  destruct (ErrorData.details data); try discriminate; cbn; rewrite E; cbn;
    destruct (loadedmetadata s); cbn; auto.
Qed.

(** X5.  After [onError] has scheduled a retry (a positive delay and a
    positive cap, the clock not negative, the media not seeking), a tick
    at the same instant keeps waiting in FRAG_LOADING_WAITING_RETRY, and
    a tick at any instant from [retryDate] on moves to IDLE. *)
Theorem onError_retry_then_tick (s : SC) (data : ErrorData.t) (f : FragRef) :
  retryable (ErrorData.details data) = true ->
  ErrorData.fatal data = false ->
  error_frag s data = Some f ->
  Fragment.type (frags s !!! f) = "main"%string ->
  fragLoadError s < Config.fragLoadingMaxRetry (config s) ->
  (0 < Config.fragLoadingRetryDelay (config s))%Q ->
  (0 < Config.fragLoadingMaxRetryTimeout (config s))%Q ->
  (0 <= now s)%Q ->
  match media s with Some m => Media.seeking m = false | None => True end ->
  state (final (doTick (final (onError data s)))) = FRAG_LOADING_WAITING_RETRY
  /\ forall t : Q,
       (retryDate (final (onError data s)) <= t)%Q ->
       state (final (doTick (set_now t (final (onError data s))))) = IDLE.
Proof.
  intros Hd Hf Hfr Hty Hlt Hdelay Hcap Hnow Hseek.
  destruct (onError_retry_fields s data f Hd Hf Hfr Hty Hlt)
    as (Hst & Hdate & Hclock & Hmedia).
  set (s1 := final (onError data s)) in *.
  assert (Hpos : (0 < Qmin (2 ^ fragLoadError s
                            * Config.fragLoadingRetryDelay (config s))
                           (Config.fragLoadingMaxRetryTimeout (config s)))%Q).
  { apply Q.min_glb_lt; [|exact Hcap].
    apply Qmult_lt_0_compat; [|exact Hdelay].
    apply Qpower_0_lt. reflexivity. }
  split.
  - rewrite doTick_outside_idle_run by (rewrite Hst; discriminate).
    rewrite checks_state. rewrite Hst.
    assert (E : negb (truthyQ (retryDate s1)) || Qgeb (now s1) (retryDate s1)
                || match media s1 with
                   | Some m => Media.seeking m
                   | None => false
                   end = false).
    { rewrite Hmedia, Hclock, Hdate.
      assert (E1 : truthyQ (now s + Qmin (2 ^ fragLoadError s
                              * Config.fragLoadingRetryDelay (config s))
                             (Config.fragLoadingMaxRetryTimeout (config s))) = true).
      { unfold truthyQ. apply negb_true_iff.
        destruct (Qeq_bool _ 0) eqn:E0; [|reflexivity].
        apply Qeq_bool_iff in E0. exfalso.
        apply (Qlt_irrefl 0). rewrite <- E0 at 2.
        apply (Qlt_le_trans _ (0 + Qmin (2 ^ fragLoadError s
                              * Config.fragLoadingRetryDelay (config s))
                             (Config.fragLoadingMaxRetryTimeout (config s)))).
        - rewrite Qplus_0_l. exact Hpos.
        - apply Qplus_le_l. exact Hnow. }
      assert (E2 : Qgeb (now s) (now s + Qmin (2 ^ fragLoadError s
                              * Config.fragLoadingRetryDelay (config s))
                             (Config.fragLoadingMaxRetryTimeout (config s))) = false).
      { unfold Qgeb. destruct (Qle_bool _ _) eqn:E0; [|reflexivity].
        apply Qle_bool_iff in E0. exfalso.
        apply (Qlt_irrefl (now s)).
        eapply Qlt_le_trans; [|exact E0].
        rewrite <- (Qplus_0_r (now s)) at 1.
        apply Qplus_lt_r. exact Hpos. }
      rewrite E1, E2. cbn.
      destruct (media s); [exact Hseek|reflexivity]. }
    rewrite E. exact Hst.
  - intros t Ht.
    assert (Hst' : state (set_now t s1) = FRAG_LOADING_WAITING_RETRY) by exact Hst.
    rewrite doTick_outside_idle_run by (rewrite Hst'; discriminate).
    rewrite checks_state. rewrite Hst'.
    assert (E : Qgeb (now (set_now t s1)) (retryDate (set_now t s1)) = true).
    { unfold Qgeb. apply Qle_bool_iff. exact Ht. }
    rewrite E, orb_true_r. reflexivity.
Qed.

End RetryTick.

Section IdleMore.
Context `{B : BaseController}.

(** X6.  [_doTickIdle] does nothing at all while no level has been
    loaded yet, while the media is detached and either the start
    fragment was already requested or prefetching is off, and while
    [levels] or [levels[nextLoadLevel]] is missing. *)
Theorem _doTickIdle_not_ready (s : SC) :
  levelLastLoaded s = None
  \/ (media s = None
      /\ (startFragRequested s = true
          \/ Config.startFragPrefetch (config s) = false))
  \/ match levels s with
     | Some ls => at_index ls (nextLoadLevel s) = None
     | None => True
     end ->
  _doTickIdle s = Done tt s.
Proof.
  intros H. unfold _doTickIdle. run.
  destruct H as [-> | [(-> & H) | H]].
  - reflexivity.
  - destruct (levelLastLoaded s); cbn; [|reflexivity].
    destruct H as [-> | ->]; cbn; rewrite ?orb_true_r; reflexivity.
  - destruct (_ || _); [reflexivity|].
    destruct (levels s); [rewrite H|]; reflexivity.
Qed.

(** The selection step up to the test of the level's details, when the
    buffer ahead is shorter than [maxBufLen]. *)
Lemma _doTickIdle_selects (s : SC) (ll : Z) (ls : list Level.t)
    (levelInfo : Level.t) (pos : Q) :
  levelLastLoaded s = Some ll ->
  (media s = None ->
   startFragRequested s = false /\ Config.startFragPrefetch (config s) = true) ->
  levels s = Some ls ->
  at_index ls (nextLoadLevel s) = Some levelInfo ->
  tick_position s = Done pos s ->
  Qgeb (BufferInfo.len (bufferInfo (mediaBuffer_or_media s) pos
                          (Config.maxBufferHole (config s))))
       (maxBufLen (config s) levelInfo) = false ->
  _doTickIdle s =
    let s1 := set_level (nextLoadLevel s) (set_nextLoadLevel (nextLoadLevel s) s) in
    let info := bufferInfo (mediaBuffer_or_media s) pos
                  (Config.maxBufferHole (config s)) in
    match Level.details levelInfo with
    | None => Done tt (set_state WAITING_LEVEL s1)
    | Some levelDetails =>
        if LevelDetails.live levelDetails && negb (ll =? nextLoadLevel s)
        then Done tt (set_state WAITING_LEVEL s1)
        else if _streamEnded s1 info levelDetails
             then Done tt
                    (set_state ENDED
                       (set_log (log s ++ [Event.BUFFER_EOS
                                   (if altAudio s then Some "video"%string else None)])
                          s1))
             else _fetchPayloadOrEos pos info levelDetails s1
    end.
Proof.
  intros Hll Hmd Hls Hli Hpos Hlen.
  unfold _doTickIdle.
  unfold bind at 1. unfold gets at 1.
  unfold bind at 1. unfold gets at 1.
  unfold bind at 1. unfold gets at 1.
  unfold bind at 1. unfold gets at 1.
  unfold bind at 1. unfold gets at 1.
  unfold bind at 1. unfold gets at 1.
  rewrite Hll.
  assert (G : match media s with
              | Some _ => false
              | None => startFragRequested s || negb (Config.startFragPrefetch (config s))
              end = false).
  { destruct (media s); [reflexivity|].
    destruct Hmd as [-> ->]; reflexivity. }
  rewrite G. cbn [orb].
  rewrite Hls, Hli.
  unfold bind at 1. rewrite Hpos.
  unfold bind at 1. unfold gets at 1.
  rewrite Hlen.
  unfold bind at 1. unfold assign at 1, modify at 1.
  unfold bind at 1. unfold assign at 1, modify at 1.
  cbn zeta.
  destruct (Level.details levelInfo) as [d|]; [|reflexivity].
  unfold bind at 1. unfold gets at 1. cbn [levelLastLoaded set_level set_nextLoadLevel].
  rewrite Hll.
  destruct (LevelDetails.live d && negb (ll =? nextLoadLevel s)); [reflexivity|].
  unfold bind at 1. unfold gets at 1. unfold id.
  destruct (_streamEnded _ _ d); [|reflexivity].
  reflexivity.
Qed.

(** X7.  With too little buffered ahead, [_doTickIdle] takes
    [nextLoadLevel] as the level and waits for its playlist when the
    level has no details yet, or is live and is not the level that was
    loaded last: the state becomes WAITING_LEVEL, nothing is sent and no
    fragment is chosen. *)
Theorem _doTickIdle_waits_for_level (s : SC) (ll : Z) (ls : list Level.t)
    (levelInfo : Level.t) (pos : Q) :
  levelLastLoaded s = Some ll ->
  (media s = None ->
   startFragRequested s = false /\ Config.startFragPrefetch (config s) = true) ->
  levels s = Some ls ->
  at_index ls (nextLoadLevel s) = Some levelInfo ->
  tick_position s = Done pos s ->
  (BufferInfo.len (bufferInfo (mediaBuffer_or_media s) pos
                     (Config.maxBufferHole (config s)))
   < maxBufLen (config s) levelInfo)%Q ->
  match Level.details levelInfo with
  | None => True
  | Some levelDetails =>
      LevelDetails.live levelDetails = true /\ ll <> nextLoadLevel s
  end ->
  _doTickIdle s =
    Done tt (set_state WAITING_LEVEL
               (set_level (nextLoadLevel s)
                  (set_nextLoadLevel (nextLoadLevel s) s))).
Proof.
  intros Hll Hmd Hls Hli Hpos Hlen Hd.
  rewrite (_doTickIdle_selects s ll ls levelInfo pos Hll Hmd Hls Hli Hpos).
  - cbn zeta. destruct (Level.details levelInfo) as [d|]; [|reflexivity].
    destruct Hd as [-> Hne].
    apply Z.eqb_neq in Hne. rewrite Hne. reflexivity.
  - unfold Qgeb. destruct (Qle_bool _ _) eqn:E; [|reflexivity].
    apply Qle_bool_iff in E. exfalso. exact (Qlt_not_le _ _ Hlen E).
Qed.

(** X8.  With too little buffered ahead and the level's details usable
    (the level is not live, or is the one loaded last), [_doTickIdle]
    signals the end of the stream when the base controller's
    [_streamEnded] holds: it sends BUFFER_EOS, for the video buffer only
    when an alternate audio track is used, and the state becomes ENDED;
    no fragment is chosen. *)
Theorem _doTickIdle_stream_ended (s : SC) (ll : Z) (ls : list Level.t)
    (levelInfo : Level.t) (levelDetails : LevelDetails.t) (pos : Q) :
  levelLastLoaded s = Some ll ->
  (media s = None ->
   startFragRequested s = false /\ Config.startFragPrefetch (config s) = true) ->
  levels s = Some ls ->
  at_index ls (nextLoadLevel s) = Some levelInfo ->
  tick_position s = Done pos s ->
  (BufferInfo.len (bufferInfo (mediaBuffer_or_media s) pos
                     (Config.maxBufferHole (config s)))
   < maxBufLen (config s) levelInfo)%Q ->
  Level.details levelInfo = Some levelDetails ->
  LevelDetails.live levelDetails = false \/ ll = nextLoadLevel s ->
  _streamEnded (set_level (nextLoadLevel s) (set_nextLoadLevel (nextLoadLevel s) s))
    (bufferInfo (mediaBuffer_or_media s) pos (Config.maxBufferHole (config s)))
    levelDetails = true ->
  exists s',
    _doTickIdle s = Done tt s'
    /\ state s' = ENDED
    /\ log s' = log s ++ [Event.BUFFER_EOS
                            (if altAudio s then Some "video"%string else None)]
    /\ level s' = nextLoadLevel s
    /\ fragCurrent s' = fragCurrent s
    /\ frags s' = frags s.
Proof.
  intros Hll Hmd Hls Hli Hpos Hlen Hd Hlive Hend.
  rewrite (_doTickIdle_selects s ll ls levelInfo pos Hll Hmd Hls Hli Hpos).
  - cbn zeta. rewrite Hd.
    assert (E : LevelDetails.live levelDetails && negb (ll =? nextLoadLevel s) = false).
    { destruct Hlive as [-> | ->]; [reflexivity|].
      rewrite Z.eqb_refl. apply andb_false_r. }
    rewrite E, Hend. eexists. split; [reflexivity|]. cbn. auto.
  - unfold Qgeb. destruct (Qle_bool _ _) eqn:E; [|reflexivity].
    apply Qle_bool_iff in E. exfalso. exact (Qlt_not_le _ _ Hlen E).
Qed.

End IdleMore.

Section FetchMore.
Context `{B : BaseController}.

Lemma at_index_first {A} (x : A) (l : list A) : at_index (x :: l) 0 = Some x.
Proof. reflexivity. Qed.

Lemma at_index_last {A} (x : A) (l : list A) :
  at_index (x :: l) (Z.of_nat (length (x :: l)) - 1) = Some (default x (last l)).
Proof.
  unfold at_index.
  replace (Z.of_nat (length (x :: l)) - 1) with (Z.of_nat (length l))
    by (cbn [length]; lia).
  destruct (Z.of_nat (length l) <? 0) eqn:E; [apply Z.ltb_lt in E; lia|].
  rewrite Nat2Z.id. clear E.
  destruct l as [|y l]; [reflexivity|].
  rewrite last_lookup.
  change ((y :: l) !! length l = Some (default x ((y :: l) !! length l))).
  destruct (lookup_lt_is_Some_2 (y :: l) (length l)) as [z Hz]; [cbn; lia|].
  rewrite Hz. reflexivity.
Qed.

(** [_fetchPayloadOrEos] on a playlist that is not empty, up to the
    choice of the fragment. *)
Lemma _fetchPayloadOrEos_run (pos : Q) (info : BufferInfo.t)
    (d : LevelDetails.t) (s : SC) (first : FragRef) (rest : list FragRef) :
  LevelDetails.fragments d = first :: rest ->
  _fetchPayloadOrEos pos info d s =
    let fragments := first :: rest in
    let fragLen := Z.of_nat (length fragments) in
    let last := default first (last rest) in
    let start := Fragment.start (frags s !!! first) in
    let end_ := (Fragment.start (frags s !!! last)
                 + Fragment.duration (frags s !!! last))%Q in
    let bufferEnd := BufferInfo.end_ info in
    let otherwise : Method SC LiveChoice :=
      if LevelDetails.live d then
        bind (gets config) (fun cfg =>
          if fragLen <? Config.initialLiveManifestSize cfg then ret ReturnNull
          else _ensureFragmentAtLivePoint d bufferEnd start end_
                 (fragPrevious s) fragments fragLen)
      else if Qltb bufferEnd start then ret (Frag first)
      else ret NoFrag in
    bind
      match LevelDetails.initSegment d with
      | Some i =>
          if negb (Fragment.hasData (frags s !!! i)) then ret (Frag i)
          else otherwise
      | None => otherwise
      end
      (fun choice =>
         match choice with
         | ReturnNull => ret tt
         | _ =>
             bind
               match choice with
               | Frag f => ret (Some f)
               | _ => _findFragment start (fragPrevious s) fragLen fragments
                        bufferEnd end_ d
               end
               (fun frag =>
                  match frag with
                  | Some f =>
                      bind (deref f) (fun fo =>
                        if Fragment.encrypted fo then _loadKey f else _loadFragment f)
                  | None => ret tt
                  end)
         end) s.
Proof.
  intros Hfr. unfold _fetchPayloadOrEos. rewrite Hfr.
  unfold bind at 1. unfold gets at 1.
  replace (Z.of_nat (length (first :: rest)) =? 0) with false
    by (symmetry; apply Z.eqb_neq; cbn [length]; lia).
  unfold bind at 1. unfold gets at 1.
  rewrite at_index_first. unfold bind at 1. unfold unwrap at 1, ret at 1.
  rewrite at_index_last. unfold bind at 1. unfold unwrap at 1, ret at 1.
  reflexivity.
Qed.

(** X9.  [_fetchPayloadOrEos] chooses nothing and changes nothing on an
    empty playlist, and on a live playlist that lists fewer fragments
    than [initialLiveManifestSize] once the init segment, if there is
    one, has its data. *)
Theorem _fetchPayloadOrEos_nothing_to_load (pos : Q) (info : BufferInfo.t)
    (d : LevelDetails.t) (s : SC) :
  LevelDetails.fragments d = []
  \/ (LevelDetails.live d = true
      /\ Z.of_nat (length (LevelDetails.fragments d))
         < Config.initialLiveManifestSize (config s)
      /\ match LevelDetails.initSegment d with
         | Some i => Fragment.hasData (frags s !!! i) = true
         | None => True
         end) ->
  _fetchPayloadOrEos pos info d s = Done tt s.
Proof.
  intros [Hnil | (Hlive & Hlen & Hinit)].
  - unfold _fetchPayloadOrEos. rewrite Hnil. reflexivity.
  - destruct (LevelDetails.fragments d) as [|first rest] eqn:Hfr.
    + unfold _fetchPayloadOrEos. rewrite Hfr. reflexivity.
    + rewrite (_fetchPayloadOrEos_run pos info d s first rest Hfr).
      cbn zeta. rewrite Hlive.
      apply Z.ltb_lt in Hlen.
      destruct (LevelDetails.initSegment d) as [i|];
        [rewrite Hinit; cbn [negb]|];
        unfold bind, gets, ret; rewrite Hlen; reflexivity.
Qed.

(** X10.  While the level's init segment has no data yet,
    [_fetchPayloadOrEos] chooses the init segment, whatever the buffer
    and the playlist (live or not) say: it asks for its key when it is
    encrypted and loads it otherwise. *)
Theorem _fetchPayloadOrEos_init_segment_first (pos : Q) (info : BufferInfo.t)
    (d : LevelDetails.t) (s : SC) (i : FragRef) :
  LevelDetails.fragments d <> [] ->
  LevelDetails.initSegment d = Some i ->
  Fragment.hasData (frags s !!! i) = false ->
  _fetchPayloadOrEos pos info d s =
    if Fragment.encrypted (frags s !!! i) then _loadKey i s else _loadFragment i s.
Proof.
  intros Hne Hinit Hdata.
  destruct (LevelDetails.fragments d) as [|first rest] eqn:Hfr; [contradiction|].
  rewrite (_fetchPayloadOrEos_run pos info d s first rest Hfr).
  cbn zeta. rewrite Hinit, Hdata. cbn [negb].
  unfold bind at 1. unfold ret at 1.
  unfold bind at 1. unfold ret at 1.
  unfold bind at 1. unfold deref at 1, gets at 1.
  destruct (Fragment.encrypted (frags s !!! i)); reflexivity.
Qed.

(** X11.  On a playlist that is not live, with no init segment left to
    load, a buffer that ends before the start of the playlist makes
    [_fetchPayloadOrEos] choose the first fragment: it asks for its key
    when it is encrypted, which moves to KEY_LOADING, sends KEY_LOADING
    and leaves [fragCurrent] as it is, and loads it otherwise. *)
Theorem _fetchPayloadOrEos_vod_before_start (pos : Q) (info : BufferInfo.t)
    (d : LevelDetails.t) (s : SC) (first : FragRef) (rest : list FragRef) :
  LevelDetails.fragments d = first :: rest ->
  LevelDetails.live d = false ->
  match LevelDetails.initSegment d with
  | Some i => Fragment.hasData (frags s !!! i) = true
  | None => True
  end ->
  (BufferInfo.end_ info < Fragment.start (frags s !!! first))%Q ->
  _fetchPayloadOrEos pos info d s =
    if Fragment.encrypted (frags s !!! first)
    then Done tt (set_log (log s ++ [Event.KEY_LOADING first])
                    (set_state KEY_LOADING s))
    else _loadFragment first s.
Proof.
  intros Hfr Hlive Hinit Hlt.
  rewrite (_fetchPayloadOrEos_run pos info d s first rest Hfr).
  cbn zeta. rewrite Hlive.
  assert (E : Qltb (BufferInfo.end_ info) (Fragment.start (frags s !!! first)) = true).
  { unfold Qltb. apply negb_true_iff.
    destruct (Qle_bool _ _) eqn:E; [|reflexivity].
    apply Qle_bool_iff in E. exfalso. exact (Qlt_not_le _ _ Hlt E). }
  rewrite E.
  assert (R : forall k : LiveChoice -> Method SC unit,
             bind match LevelDetails.initSegment d with
                  | Some i =>
                      if negb (Fragment.hasData (frags s !!! i)) then ret (Frag i)
                      else ret (Frag first)
                  | None => ret (Frag first)
                  end k s = k (Frag first) s).
  { intros k. destruct (LevelDetails.initSegment d); [rewrite Hinit|]; reflexivity. }
  rewrite R.
  unfold bind at 1. unfold ret at 1.
  unfold bind at 1. unfold deref at 1, gets at 1.
  destruct (Fragment.encrypted (frags s !!! first)); reflexivity.
Qed.

End FetchMore.

Section FindMore.
Context `{C : Collaborators}.

Lemma SN_eqb_eq (a b : SN) : SN_eqb a b = true -> a = b.
Proof.
  destruct a as [x|], b as [y|]; cbn; try discriminate; auto.
  intros H. apply Z.eqb_eq in H. congruence.
Qed.

(** X12.  On a playlist that numbers its fragments from [startSN], when
    the fragment chosen from the buffer end is on the level of the
    previous fragment and is not backtracked, [_findFragment] never
    returns a fragment with the sequence number of the previous one: the
    fragment just loaded is not selected again. *)
Theorem _findFragment_moves_on (s : SC) (start bufferEnd end_ : Q)
    (fragLen : Z) (fragments : list FragRef) (levelDetails : LevelDetails.t)
    (prev frag result : FragRef) :
  (forall i x, at_index fragments i = Some x ->
     Fragment.sn (frags s !!! x) = SnNumber (LevelDetails.startSN levelDetails + i)) ->
  _findFragment_choice (config s) (frags s) (Some prev) fragLen fragments
    bufferEnd end_ = Some frag ->
  Fragment.backtracked (frags s !!! frag) = false ->
  Fragment.level (frags s !!! frag) = Fragment.level (frags s !!! prev) ->
  returned (_findFragment start (Some prev) fragLen fragments bufferEnd end_
              levelDetails s) = Some (Some result) ->
  Fragment.sn (frags s !!! result) <> Fragment.sn (frags s !!! prev).
Proof.
  intros Hwf Hch Hbt Hlv.
  unfold _findFragment. run. rewrite Hch.
  unfold _findFragment_sameSN. run.
  rewrite Hbt, Hlv, Z.eqb_refl. cbn.
  destruct (SN_eqb (Fragment.sn (frags s !!! frag))
                   (Fragment.sn (frags s !!! prev))) eqn:Esn.
  - apply SN_eqb_eq in Esn.
    destruct (Fragment.sn (frags s !!! frag)) as [n|] eqn:Hsn; cbn.
    + destruct (n <? LevelDetails.endSN levelDetails); cbn; [|discriminate].
      destruct (_ && _ && _ && _); cbn.
      * destruct (at_index fragments (n - LevelDetails.startSN levelDetails - 1))
          as [pf|] eqn:Hpf; cbn; [|discriminate].
        intros H. injection H as <-.
        rewrite (Hwf _ _ Hpf), <- Esn. intros H. injection H as H. lia.
      * destruct (at_index fragments (n - LevelDetails.startSN levelDetails + 1))
          as [nf|] eqn:Hnf; cbn; [|discriminate].
        intros H. injection H as <-.
        rewrite (Hwf _ _ Hnf), <- Esn. intros H. injection H as H. lia.
    + discriminate.
  - cbn. intros H. injection H as <-.
    intros H. rewrite H in Esn.
    destruct (Fragment.sn (frags s !!! prev)); cbn in Esn;
      [rewrite Z.eqb_refl in Esn|]; discriminate.
Qed.

(** X13.  At the end of the playlist: when the buffer reaches the end of
    the last fragment, that fragment is the one chosen; if it is the
    fragment loaded last (same sequence number and level, not
    backtracked) and no sequence number follows it ([endSN <= sn]),
    [_findFragment] returns none and changes nothing. *)
Theorem _findFragment_end_of_playlist (s : SC) (start bufferEnd end_ : Q)
    (fragLen : Z) (fragments : list FragRef) (levelDetails : LevelDetails.t)
    (prev frag : FragRef) (n : Z) :
  (end_ <= bufferEnd)%Q ->
  at_index fragments (fragLen - 1) = Some frag ->
  Fragment.sn (frags s !!! frag) = SnNumber n ->
  Fragment.sn (frags s !!! prev) = SnNumber n ->
  Fragment.level (frags s !!! frag) = Fragment.level (frags s !!! prev) ->
  Fragment.backtracked (frags s !!! frag) = false ->
  LevelDetails.endSN levelDetails <= n ->
  _findFragment start (Some prev) fragLen fragments bufferEnd end_ levelDetails s
    = Done None s.
Proof.
  intros Hend Hlast Hsn Hpsn Hlv Hbt Hn.
  unfold _findFragment, _findFragment_choice. run.
  assert (E : Qltb bufferEnd end_ = false).
  { unfold Qltb. apply negb_false_iff. apply Qle_bool_iff. exact Hend. }
  rewrite E, Hlast.
  unfold _findFragment_sameSN. run.
  rewrite Hsn, Hpsn, Hbt, Hlv. cbn. rewrite !Z.eqb_refl. cbn.
  replace (n <? LevelDetails.endSN levelDetails) with false
    by (symmetry; apply Z.ltb_ge; lia).
  reflexivity.
Qed.

End FindMore.

Section LiveMore.
Context `{C : Collaborators}.

(** X14.  The live sync position never lies before the start of the
    playlist; it lies within the playlist when the target latency and
    the total duration are not negative; and it is the start of the
    playlist when the playlist is no longer than the target latency. *)
Theorem computeLivePosition_within_playlist (cfg : Config.t) (sliding : Q)
    (levelDetails : LevelDetails.t) :
  let targetLatency :=
    match Config.liveSyncDuration cfg with
    | Some liveSyncDuration => liveSyncDuration
    | None => (Config.liveSyncDurationCount cfg
               * LevelDetails.targetduration levelDetails)%Q
    end in
  (sliding <= computeLivePosition cfg sliding levelDetails)%Q
  /\ ((0 <= targetLatency)%Q ->
      (0 <= LevelDetails.totalduration levelDetails)%Q ->
      (computeLivePosition cfg sliding levelDetails
       <= sliding + LevelDetails.totalduration levelDetails)%Q)
  /\ ((LevelDetails.totalduration levelDetails <= targetLatency)%Q ->
      (computeLivePosition cfg sliding levelDetails == sliding)%Q).
Proof.
  unfold computeLivePosition.
  set (t := match Config.liveSyncDuration cfg with
            | Some d => d
            | None => (Config.liveSyncDurationCount cfg
                       * LevelDetails.targetduration levelDetails)%Q
            end).
  cbn zeta.
  set (total := LevelDetails.totalduration levelDetails).
  split; [|split].
  - rewrite <- (Qplus_0_r sliding) at 1.
    apply Qplus_le_r. apply Q.le_max_l.
  - intros Ht Htot. apply Qplus_le_r.
    apply Q.max_lub; [exact Htot|].
    rewrite <- (Qplus_0_r total) at 2. unfold Qminus.
    apply Qplus_le_r.
    apply (Qopp_le_compat 0 t). exact Ht.
  - intros Hle.
    assert (E : (Qmax 0 (total - t) == 0)%Q).
    { apply Q.max_l. unfold Qminus.
      rewrite <- (Qplus_opp_r t). apply Qplus_le_l. exact Hle. }
    rewrite E. apply Qplus_0_r.
Qed.

(** X15.  The buffer length the scheduler aims at never exceeds
    [maxMaxBufferLength], and is never below the smaller of
    [maxBufferLength] and [maxMaxBufferLength], whatever the bitrate of
    the level. *)
Theorem maxBufLen_bounds (cfg : Config.t) (levelInfo : Level.t) :
  (maxBufLen cfg levelInfo <= Config.maxMaxBufferLength cfg)%Q
  /\ (Qmin (Config.maxBufferLength cfg) (Config.maxMaxBufferLength cfg)
      <= maxBufLen cfg levelInfo)%Q.
Proof.
  unfold maxBufLen. split.
  - apply Q.le_min_r.
  - apply Q.min_le_compat_r.
    destruct (truthyQ (Level.bitrate levelInfo)).
    + apply Q.le_max_r.
    + apply Qle_refl.
Qed.

Lemma Qgtb_true (a b : Q) : (b < a)%Q -> Qgtb a b = true.
Proof.
  intros H. unfold Qgtb, Qltb. apply negb_true_iff.
  destruct (Qle_bool a b) eqn:E; [|reflexivity].
  apply Qle_bool_iff in E. exfalso. exact (Qlt_not_le _ _ H E).
Qed.

Lemma Qltb_false (a b : Q) : (b <= a)%Q -> Qltb a b = false.
Proof.
  intros H. unfold Qltb. apply negb_false_iff. apply Qle_bool_iff. exact H.
Qed.

(** X16.  On a live playlist whose times are known, with the media
    ready, a buffer that ends beyond the end of the playlist makes
    [_ensureFragmentAtLivePoint] return null without resynchronising on
    the live point and without changing anything: no fragment is to be
    loaded. *)
Theorem _ensureFragmentAtLivePoint_beyond_live_edge (s : SC)
    (levelDetails : LevelDetails.t) (bufferEnd start end_ : Q)
    (fragPrevious : option FragRef) (fragments : list FragRef) (fragLen : Z)
    (m : Media.t) :
  (start <= end_)%Q ->
  (0 <= Config.maxFragLookUpTolerance (config s))%Q ->
  match maxLatency (config s) levelDetails with
  | Finite latency => (0 <= latency)%Q
  | PosInfinity => True
  | NegInfinity | NaN => False
  end ->
  LevelDetails.PTSKnown levelDetails = true ->
  (end_ < bufferEnd)%Q ->
  media s = Some m ->
  Media.readyState m <> 0 ->
  _ensureFragmentAtLivePoint levelDetails bufferEnd start end_ fragPrevious
    fragments fragLen s = Done ReturnNull s.
Proof.
  intros Hse Htol Hlat Hpts Hbeyond Hm Hready.
  unfold _ensureFragmentAtLivePoint, _ensureFragmentAtLivePoint_sync,
    _ensureFragmentAtLivePoint_select. run.
  assert (E : behind_live (config s) levelDetails bufferEnd start end_ = false).
  { unfold behind_live.
    assert (H1 : (start - Config.maxFragLookUpTolerance (config s) <= bufferEnd)%Q).
    { apply Qle_trans with start.
      - rewrite <- (Qplus_0_r start) at 2. unfold Qminus. apply Qplus_le_r.
        apply (Qopp_le_compat 0 _). exact Htol.
      - apply Qle_trans with end_; [exact Hse|apply Qlt_le_weak; exact Hbeyond]. }
    destruct (maxLatency (config s) levelDetails) as [q| | |];
      cbn; try contradiction.
    - apply Qltb_false. apply Q.max_lub; [exact H1|].
      apply Qle_trans with end_; [|apply Qlt_le_weak; exact Hbeyond].
      rewrite <- (Qplus_0_r end_) at 2. unfold Qminus. apply Qplus_le_r.
      apply (Qopp_le_compat 0 _). exact Hlat.
    - apply Qltb_false. exact H1. }
  rewrite E. cbn. rewrite Hpts, Hm, (Qgtb_true _ _ Hbeyond). cbn.
  unfold truthyZ. apply Z.eqb_neq in Hready. rewrite Hready. reflexivity.
Qed.

(** X17.  On a level switch of a live stream without time information
    and without a previous fragment, the fragment chosen is the one in
    the middle of the playlist, [fragments[min (len - 1, round (len /
    2))]]; that index is within the playlist whenever the playlist is
    not empty, so a fragment is always chosen, and nothing is changed. *)
Theorem _ensureFragmentAtLivePoint_select_middle (s : SC)
    (levelDetails : LevelDetails.t) (bufferEnd end_ : Q)
    (fragments : list FragRef) :
  fragments <> [] ->
  startFragRequested s = true ->
  LevelDetails.PTSKnown levelDetails = false ->
  exists mid,
    fragments !! Nat.min (length fragments - 1) ((length fragments + 1) / 2)
      = Some mid
    /\ _ensureFragmentAtLivePoint_select levelDetails bufferEnd end_ None
         fragments (Z.of_nat (length fragments)) s = Done (Frag mid) s.
Proof.
  intros Hne Hreq Hpts.
  destruct (lookup_lt_is_Some_2 fragments
              (Nat.min (length fragments - 1) ((length fragments + 1) / 2)))
    as [mid Hmid].
  { destruct fragments; [contradiction|]. cbn [length]. lia. }
  exists mid. split; [exact Hmid|].
  unfold _ensureFragmentAtLivePoint_select. run.
  rewrite Hpts. cbn. rewrite Hreq. cbn.
  assert (E : at_index fragments
                (Z.min (Z.of_nat (length fragments) - 1)
                       ((Z.of_nat (length fragments) + 1) / 2)) = Some mid).
  { unfold at_index.
    assert (Hlen : (0 < length fragments)%nat)
      by (destruct fragments; [contradiction|cbn; lia]).
    assert (Hz : Z.min (Z.of_nat (length fragments) - 1)
                   ((Z.of_nat (length fragments) + 1) / 2)
                 = Z.of_nat (Nat.min (length fragments - 1)
                               ((length fragments + 1) / 2))).
    { rewrite Nat2Z.inj_min, Nat2Z.inj_div, Nat2Z.inj_add, Nat2Z.inj_sub by lia.
      reflexivity. }
    rewrite Hz.
    destruct (Z.of_nat _ <? 0) eqn:E0; [apply Z.ltb_lt in E0; lia|].
    rewrite Nat2Z.id. exact Hmid. }
  rewrite E. reflexivity.
Qed.

(** X18.  On a level switch of a live stream without time information
    and without program date-time, when the sequence number after the
    previous fragment's is within [startSN, endSN] and the fragment at
    that place has the continuity counter of the previous fragment, that
    fragment is the one chosen, and nothing is changed. *)
Theorem _ensureFragmentAtLivePoint_select_next_sn (s : SC)
    (levelDetails : LevelDetails.t) (bufferEnd end_ : Q)
    (fragments : list FragRef) (fragLen : Z) (prev next : FragRef) (n : Z) :
  startFragRequested s = true ->
  LevelDetails.PTSKnown levelDetails = false ->
  LevelDetails.hasProgramDateTime levelDetails = false ->
  Fragment.sn (frags s !!! prev) = SnNumber n ->
  LevelDetails.startSN levelDetails <= n + 1 <= LevelDetails.endSN levelDetails ->
  at_index fragments (n + 1 - LevelDetails.startSN levelDetails) = Some next ->
  Fragment.cc (frags s !!! prev) = Fragment.cc (frags s !!! next) ->
  _ensureFragmentAtLivePoint_select levelDetails bufferEnd end_ (Some prev)
    fragments fragLen s = Done (Frag next) s.
Proof.
  intros Hreq Hpts Hpdt Hsn [Hlo Hhi] Hnext Hcc.
  unfold _ensureFragmentAtLivePoint_select. run.
  rewrite Hpts. cbn. rewrite Hreq, Hpdt. cbn. rewrite Hsn. cbn.
  replace (n - -1) with (n + 1) by lia.
  replace (n + 1 >=? LevelDetails.startSN levelDetails) with true
    by (symmetry; apply Z.geb_le; lia).
  replace (n + 1 <=? LevelDetails.endSN levelDetails) with true
    by (symmetry; apply Z.leb_le; lia).
  cbn. rewrite Hnext. cbn. rewrite Hcc, Z.eqb_refl. reflexivity.
Qed.

End LiveMore.

Section ChecksMore.
Context `{C : Collaborators}.

(** X19.  The first tick that finds data buffered, with the media ready:
    [_checkBuffer] records [loadedmetadata] and seeks to the start
    position, so that afterwards [media.currentTime] is [startPosition],
    unless the media is seeking, in which case it is left where it is.
    Nothing else of the media changes, nothing is sent, and neither the
    end of an immediate switch nor the gap controller is run. *)
Theorem _checkBuffer_first_data (s : SC) (m : Media.t) (r : Q * Q)
    (rest : TimeRanges) :
  media s = Some m ->
  Media.readyState m <> 0 ->
  loadedmetadata s = false ->
  mediaBuffer_or_media s = Some (r :: rest) ->
  exists s' m',
    _checkBuffer s = Done tt s'
    /\ loadedmetadata s' = true
    /\ media s' = Some m'
    /\ (Media.currentTime m' ==
          if Media.seeking m then Media.currentTime m else startPosition s)%Q
    /\ m' = Media.set_currentTime (Media.currentTime m') m
    /\ s' = set_media (Some m') (set_loadedmetadata true s).
Proof.
  intros Hm Hready Hloaded Hbuf.
  unfold _checkBuffer, _seekToStartPos. run.
  rewrite Hm. apply Z.eqb_neq in Hready. rewrite Hready. cbn.
  rewrite Hloaded.
  assert (E : match mediaBuffer s with
              | Some (SourceBuffer b) => b
              | _ => Media.buffered m
              end = r :: rest).
  { unfold mediaBuffer_or_media in Hbuf. rewrite Hm in Hbuf.
    destruct (mediaBuffer s) as [[|b]|]; cbn in Hbuf; congruence. }
  rewrite E. cbn. rewrite Hm. cbn.
  assert (Hs : set_media (Some m) (set_loadedmetadata true s)
               = set_loadedmetadata true s).
  { destruct s; cbn in *. rewrite Hm. reflexivity. }
  assert (Hmm : m = Media.set_currentTime (Media.currentTime m) m)
    by (destruct m; reflexivity).
  destruct (Media.seeking m) eqn:Hseek.
  - replace (Qeq_bool (Media.currentTime m) (Media.currentTime m)) with true
      by (symmetry; apply Qeq_bool_iff; reflexivity).
    cbn. exists (set_loadedmetadata true s), m.
    split; [reflexivity|]. split; [reflexivity|]. split; [exact Hm|].
    split; [reflexivity|]. split; [exact Hmm|]. symmetry. exact Hs.
  - destruct (Qeq_bool (Media.currentTime m) (startPosition s)) eqn:Heq; cbn.
    + exists (set_loadedmetadata true s), m.
      split; [reflexivity|]. split; [reflexivity|]. split; [exact Hm|].
      split; [apply Qeq_bool_iff; exact Heq|]. split; [exact Hmm|].
      symmetry. exact Hs.
    + eexists. eexists. split; [reflexivity|]. cbn.
      split; [reflexivity|]. split; [reflexivity|]. cbn.
      split; [reflexivity|]. split; reflexivity.
Qed.

(** [_checkFragmentChanged] as a function of the controller. *)
Lemma _checkFragmentChanged_run (s : SC) :
  _checkFragmentChanged s =
    Done tt
      match media s with
      | None => s
      | Some video =>
          if truthyZ (Media.readyState video) && negb (Media.seeking video) then
            let currentTime := Media.currentTime video in
            let s1 := if Qgtb currentTime (lastCurrentTime s)
                      then set_lastCurrentTime currentTime s else s in
            match
              if isBuffered video currentTime
              then tracker_getBufferedFrag (fragmentTracker s) (frags s) currentTime
              else if isBuffered video (currentTime + 0.1)%Q
                   then tracker_getBufferedFrag (fragmentTracker s) (frags s)
                          (currentTime + 0.1)%Q
                   else None
            with
            | None => s1
            | Some fp =>
                if same_object (Some fp) (fragPlaying s) then s1
                else
                  set_fragPlaying (Some fp)
                    (set_log
                       (log s ++ Event.FRAG_CHANGED fp
                          :: (if match fragPlaying s with
                                 | Some old =>
                                     negb (Fragment.level (frags s !!! old)
                                           =? Fragment.level (frags s !!! fp))
                                 | None => true
                                 end
                              then [Event.LEVEL_SWITCHED
                                      (Fragment.level (frags s !!! fp))]
                              else []))
                       s1)
            end
          else s
      end.
Proof.
  unfold _checkFragmentChanged, getBufferedFrag. run.
  destruct (media s) as [video|]; [|reflexivity].
  destruct (truthyZ (Media.readyState video) && negb (Media.seeking video));
    [|reflexivity].
  cbn.
  destruct (Qgtb (Media.currentTime video) (lastCurrentTime s)); cbn;
    (destruct (isBuffered video (Media.currentTime video)); cbn;
     [|destruct (isBuffered video (Media.currentTime video + 0.1)%Q); cbn;
       [|reflexivity]]);
    match goal with
    | |- context [tracker_getBufferedFrag ?t ?f ?p] =>
        destruct (tracker_getBufferedFrag t f p) as [fp|]; cbn; [|reflexivity]
    end;
    unfold same_object;
    (destruct (fragPlaying s) as [old|]; cbn;
     [destruct (Nat.eqb fp old); cbn; [reflexivity|];
      destruct (Fragment.level (frags s !!! old)
                =? Fragment.level (frags s !!! fp)); cbn;
      rewrite <- ?app_assoc; reflexivity
     |rewrite <- ?app_assoc; reflexivity]).
Qed.

(** X20.  [_checkFragmentChanged] is idempotent: run again at once, it
    changes nothing and sends nothing more. *)
Theorem _checkFragmentChanged_idempotent (s : SC) :
  bind _checkFragmentChanged (fun _ => _checkFragmentChanged) s
    = _checkFragmentChanged s.
Proof.
  assert (Hgt : forall a : Q, Qgtb a a = false).
  { intros a. unfold Qgtb, Qltb. apply negb_false_iff.
    apply Qle_bool_iff. apply Qle_refl. }
  unfold bind. rewrite (_checkFragmentChanged_run s).
  match goal with |- _checkFragmentChanged ?x = _ => set (s' := x) end.
  rewrite (_checkFragmentChanged_run s'). f_equal.
  subst s'.
  destruct (media s) as [video|] eqn:Hm; [|rewrite Hm; reflexivity].
  destruct (truthyZ (Media.readyState video) && negb (Media.seeking video))
    eqn:Hready; [|rewrite Hm, Hready; reflexivity].
  cbn zeta.
  set (chosen := if isBuffered video (Media.currentTime video) then _ else _).
  assert (Hlct : forall s1,
    s1 = (if Qgtb (Media.currentTime video) (lastCurrentTime s)
          then set_lastCurrentTime (Media.currentTime video) s else s) ->
    (if Qgtb (Media.currentTime video) (lastCurrentTime s1)
     then set_lastCurrentTime (Media.currentTime video) s1 else s1) = s1).
  { intros s1 ->.
    destruct (Qgtb (Media.currentTime video) (lastCurrentTime s)) eqn:E;
      cbn; [rewrite Hgt|rewrite E]; reflexivity. }
  unfold same_object.
  destruct chosen as [fp|] eqn:Hch.
  - destruct (fragPlaying s) as [old|] eqn:Hold;
      [destruct (Nat.eqb fp old) eqn:Hso|];
      destruct (Qgtb (Media.currentTime video) (lastCurrentTime s)) eqn:E;
      cbn; rewrite Hm, Hready; cbn; fold chosen; rewrite Hch; cbn;
      rewrite ?Hold, ?Hso, ?Nat.eqb_refl, ?Hgt, ?E; reflexivity.
  - destruct (Qgtb (Media.currentTime video) (lastCurrentTime s)) eqn:E;
      cbn; rewrite Hm, Hready; cbn; fold chosen; rewrite Hch;
      rewrite ?Hgt, ?E; reflexivity.
Qed.

(** X21.  [_checkFragmentChanged] never moves [lastCurrentTime] back.
    It sends FRAG_CHANGED only for a fragment object other than
    [fragPlaying], which then becomes [fragPlaying], and LEVEL_SWITCHED
    only right after FRAG_CHANGED, with the level of the new fragment,
    exactly when there was no playing fragment or its level was another
    one. *)
Theorem _checkFragmentChanged_events (s : SC) :
  exists s',
    _checkFragmentChanged s = Done tt s'
    /\ (lastCurrentTime s <= lastCurrentTime s')%Q
    /\ ((log s' = log s /\ fragPlaying s' = fragPlaying s)
        \/ exists fp,
             fragPlaying s' = Some fp
             /\ fragPlaying s <> Some fp
             /\ log s' =
                  log s ++ Event.FRAG_CHANGED fp
                    :: (if match fragPlaying s with
                           | Some old =>
                               negb (Fragment.level (frags s !!! old)
                                     =? Fragment.level (frags s !!! fp))
                           | None => true
                           end
                        then [Event.LEVEL_SWITCHED (Fragment.level (frags s !!! fp))]
                        else [])).
Proof.
  assert (Hlater : forall a b : Q, Qgtb a b = true -> (b <= a)%Q).
  { intros a b H. unfold Qgtb, Qltb in H. apply negb_true_iff in H.
    destruct (Qlt_le_dec b a) as [Hlt|Hle]; [apply Qlt_le_weak; exact Hlt|].
    apply Qle_bool_iff in Hle. congruence. }
  assert (Hdiff : forall fp, same_object (Some fp) (fragPlaying s) = false ->
                             fragPlaying s <> Some fp).
  { intros fp H E. rewrite E in H. cbn in H. rewrite Nat.eqb_refl in H.
    discriminate. }
  rewrite (_checkFragmentChanged_run s). eexists. split; [reflexivity|].
  destruct (media s) as [video|];
    [|split; [apply Qle_refl|left; auto]].
  destruct (truthyZ (Media.readyState video) && negb (Media.seeking video));
    [|split; [apply Qle_refl|left; auto]].
  cbn zeta.
  set (chosen := if isBuffered video (Media.currentTime video) then _ else _).
  assert (H1 : (lastCurrentTime s <=
                lastCurrentTime
                  (if Qgtb (Media.currentTime video) (lastCurrentTime s)
                   then set_lastCurrentTime (Media.currentTime video) s else s))%Q).
  { destruct (Qgtb _ _) eqn:E; cbn; [apply Hlater; exact E|apply Qle_refl]. }
  destruct chosen as [fp|].
  - destruct (same_object (Some fp) (fragPlaying s)) eqn:Hso.
    + split; [exact H1|]. left.
      destruct (Qgtb _ _); split; reflexivity.
    + split; [destruct (Qgtb _ _) eqn:E; cbn;
              [apply Hlater; exact E|apply Qle_refl]|].
      right. exists fp. split; [reflexivity|]. split; [exact (Hdiff fp Hso)|].
      reflexivity.
  - split; [exact H1|]. left. destruct (Qgtb _ _); split; reflexivity.
Qed.

Lemma immediateLevelSwitch_fresh (s : SC) (m : Media.t) :
  immediateSwitch s = false ->
  media s = Some m ->
  exists s1,
    immediateLevelSwitch s = Done tt s1
    /\ immediateSwitch s1 = true
    /\ media s1 = Some (Media.set_paused true m)
    /\ previouslyPaused s1 = Media.paused m
    /\ state s1 = BUFFER_FLUSHING
    /\ fragCurrent s1 = None.
Proof.
  intros Hsw Hm.
  unfold immediateLevelSwitch, flushMainBuffer. run.
  rewrite Hsw. cbn. rewrite Hm. cbn.
  destruct (fragCurrent s) as [f|]; cbn;
    [destruct (Fragment.hasLoader (frags s !!! f)); cbn|];
    (eexists; split; [reflexivity|]; cbn; auto).
Qed.

Lemma immediateLevelSwitchEnd_buffered (s : SC) (m : Media.t) (r : Q * Q)
    (rest : TimeRanges) :
  media s = Some m ->
  Media.buffered m = r :: rest ->
  immediateLevelSwitchEnd s =
    Done tt
      (let m1 := if isBuffered m (Media.currentTime m)
                 then Media.set_currentTime (Media.currentTime m - 0.0001)%Q m
                 else m in
       let s1 := if isBuffered m (Media.currentTime m)
                 then set_media (Some m1) (set_immediateSwitch false s)
                 else set_immediateSwitch false s in
       if previouslyPaused s then s1
       else set_media (Some (Media.set_paused false m1))
              (set_log (log s ++ [Event.media_play]) s1)).
Proof.
  intros Hm Hb. unfold immediateLevelSwitchEnd. run.
  rewrite Hm, Hb. cbn.
  destruct (isBuffered m (Media.currentTime m)); cbn;
    destruct (previouslyPaused s); cbn; rewrite ?Hm; reflexivity.
Qed.

(** X22.  An immediate level switch and its end restore playback: from
    a controller that is not switching, with data buffered in the media
    at the end of the switch, [immediateLevelSwitch] followed by
    [immediateLevelSwitchEnd] leaves the media's [paused] flag as it was
    before the switch (a media that was playing is paused and played
    again, one that was paused stays paused) and [immediateSwitch]
    false; meanwhile the state is BUFFER_FLUSHING and [fragCurrent]
    cleared. *)
Theorem immediateLevelSwitch_round_trip (s : SC) (m : Media.t) (r : Q * Q)
    (rest : TimeRanges) :
  immediateSwitch s = false ->
  media s = Some m ->
  Media.buffered m = r :: rest ->
  exists s1 s2 m2,
    immediateLevelSwitch s = Done tt s1
    /\ immediateSwitch s1 = true
    /\ media s1 = Some (Media.set_paused true m)
    /\ state s1 = BUFFER_FLUSHING
    /\ fragCurrent s1 = None
    /\ immediateLevelSwitchEnd s1 = Done tt s2
    /\ immediateSwitch s2 = false
    /\ media s2 = Some m2
    /\ Media.paused m2 = Media.paused m
    /\ Media.buffered m2 = Media.buffered m
    /\ Media.currentTime m2 =
         if isBuffered (Media.set_paused true m) (Media.currentTime m)
         then (Media.currentTime m - 0.0001)%Q else Media.currentTime m.
Proof.
  intros Hsw Hm Hb.
  destruct (immediateLevelSwitch_fresh s m Hsw Hm)
    as (s1 & Hrun & Hsw1 & Hm1 & Hpp & Hst & Hfc).
  pose proof (immediateLevelSwitchEnd_buffered s1 (Media.set_paused true m) r rest
                Hm1 Hb) as Hend.
  cbn zeta in Hend. rewrite Hpp in Hend.
  change (Media.currentTime (Media.set_paused true m))
    with (Media.currentTime m) in Hend.
  exists s1.
  destruct (Media.paused m) eqn:Hp;
    destruct (isBuffered (Media.set_paused true m) (Media.currentTime m)) eqn:Hib.
  - exists (set_media
              (Some (Media.set_currentTime (Media.currentTime m - 0.0001)%Q
                       (Media.set_paused true m)))
              (set_immediateSwitch false s1)),
           (Media.set_currentTime (Media.currentTime m - 0.0001)%Q
              (Media.set_paused true m)).
    rewrite Hend. auto 12.
  - exists (set_immediateSwitch false s1), (Media.set_paused true m).
    rewrite Hend. cbn. auto 12.
  - exists (set_media
              (Some (Media.set_paused false
                       (Media.set_currentTime (Media.currentTime m - 0.0001)%Q
                          (Media.set_paused true m))))
              (set_log (log s1 ++ [Event.media_play])
                 (set_media
                    (Some (Media.set_currentTime (Media.currentTime m - 0.0001)%Q
                             (Media.set_paused true m)))
                    (set_immediateSwitch false s1)))),
           (Media.set_paused false
              (Media.set_currentTime (Media.currentTime m - 0.0001)%Q
                 (Media.set_paused true m))).
    rewrite Hend. auto 12.
  - exists (set_media (Some (Media.set_paused false (Media.set_paused true m)))
              (set_log (log s1 ++ [Event.media_play])
                 (set_immediateSwitch false s1))),
           (Media.set_paused false (Media.set_paused true m)).
    rewrite Hend. auto 12.
Qed.

End ChecksMore.

Section LoadMore.
Context `{B : BaseController}.

(** [_hasDroppedFrames] as a function of the controller. *)
Lemma _hasDroppedFrames_run (s : SC) (frag : FragRef) (dropped startSN : Z) :
  exists store,
    _hasDroppedFrames frag dropped startSN s =
      Done (truthyZ dropped
            && negb (Fragment.backtracked (frags s !!! frag))
            && negb (SN_eqb (Fragment.sn (frags s !!! frag)) (SnNumber startSN)))
           (set_frags store s)
    /\ Fragment.dropped (store !!! frag) =
         (if truthyZ dropped then dropped else Fragment.dropped (frags s !!! frag))
    /\ Fragment.sn (store !!! frag) = Fragment.sn (frags s !!! frag)
    /\ (forall r, r <> frag -> store !!! r = frags s !!! r).
Proof.
  unfold _hasDroppedFrames. run.
  destruct (truthyZ dropped); cbn.
  - rewrite lookup_total_insert_eq. cbn.
    destruct (Fragment.backtracked (frags s !!! frag)); cbn.
    + eexists. split; [reflexivity|].
      rewrite !lookup_total_insert_eq. cbn.
      split; [reflexivity|]. split; [reflexivity|].
      intros r Hr. rewrite !lookup_total_insert_ne by congruence. reflexivity.
    + destruct (SN_eqb _ _); cbn;
        (eexists; split; [reflexivity|];
         rewrite !lookup_total_insert_eq; cbn;
         split; [reflexivity|]; split; [reflexivity|];
         intros r Hr; rewrite !lookup_total_insert_ne by congruence; reflexivity).
  - eexists. split; [reflexivity|].
    rewrite !lookup_total_insert_eq. cbn.
    split; [reflexivity|]. split; [reflexivity|].
    intros r Hr. rewrite !lookup_total_insert_ne by congruence. reflexivity.
Qed.

(** X23.  [_hasDroppedFrames] asks for a backtrack exactly when frames
    were dropped, the fragment is not backtracked already and is not the
    first of the level; it records the count of dropped frames on the
    fragment whenever it is not 0, and touches no other fragment and
    nothing else of the controller. *)
Theorem _hasDroppedFrames_verdict (s : SC) (frag : FragRef) (dropped startSN : Z) :
  exists s',
    _hasDroppedFrames frag dropped startSN s =
      Done (truthyZ dropped
            && negb (Fragment.backtracked (frags s !!! frag))
            && negb (SN_eqb (Fragment.sn (frags s !!! frag)) (SnNumber startSN)))
           s'
    /\ Fragment.dropped (frags s' !!! frag) =
         (if truthyZ dropped then dropped else Fragment.dropped (frags s !!! frag))
    /\ Fragment.sn (frags s' !!! frag) = Fragment.sn (frags s !!! frag)
    /\ (forall r, r <> frag -> frags s' !!! r = frags s !!! r)
    /\ s' = set_frags (frags s') s.
Proof.
  destruct (_hasDroppedFrames_run s frag dropped startSN)
    as (store & Hrun & Hd & Hsn & Hother).
  exists (set_frags store s). split; [exact Hrun|].
  split; [exact Hd|]. split; [exact Hsn|]. split; [exact Hother|reflexivity].
Qed.

(** X24.  A fragment that is backtracked, or that the tracker holds as
    NOT_LOADED or PARTIAL, is loaded: [_loadFragment] marks it as the
    current fragment, writes [hls.autoLevelEnabled] on it and hands it
    to exactly one loader, the init segment loader for the init segment,
    the bitrate test loader (the fragment flagged [bitrateTest]) while a
    bitrate test runs, and the playback loader otherwise. *)
Theorem _loadFragment_loads (s : SC) (frag : FragRef) :
  Fragment.backtracked (frags s !!! frag) = true
  \/ tracker_getState (fragmentTracker s) (frags s !!! frag) = NOT_LOADED
  \/ tracker_getState (fragmentTracker s) (frags s !!! frag) = PARTIAL ->
  _loadFragment frag s =
    let f := Fragment.set_autoLevel (autoLevelEnabled s) (frags s !!! frag) in
    match Fragment.sn (frags s !!! frag) with
    | SnInitSegment =>
        _loadInitSegment frag
          (set_frags (<[frag := f]> (frags s)) (marked_for_load frag s))
    | SnNumber _ =>
        if bitrateTest s then
          _loadBitrateTestFrag frag
            (set_frags (<[frag := Fragment.set_bitrateTest true f]> (frags s))
               (marked_for_load frag s))
        else
          _loadFragForPlayback frag
            (set_frags (<[frag := f]> (frags s)) (marked_for_load frag s))
    end.
Proof.
  intros H.
  assert (E : Fragment.backtracked (frags s !!! frag)
              || match tracker_getState (fragmentTracker s) (frags s !!! frag) with
                 | NOT_LOADED | PARTIAL => true
                 | _ => false
                 end = true).
  { destruct H as [-> | [-> | ->]]; rewrite ?orb_true_r; reflexivity. }
  unfold _loadFragment, _loadFragment_dispatch, marked_for_load. run.
  destruct (SN_isFinite (Fragment.sn (frags s !!! frag)) && negb (bitrateTest s));
    cbn; rewrite E; cbn;
    (destruct (Fragment.sn (frags s !!! frag)); cbn; [|reflexivity];
     destruct (bitrateTest s); cbn; [|reflexivity];
     rewrite lookup_total_insert_eq, insert_insert_eq; reflexivity).
Qed.

(** X25.  A fragment that is not backtracked and that the tracker holds
    as APPENDING is not loaded; the buffer is made smaller instead: when
    [maxMaxBufferLength] is at least the fragment's duration it is
    halved and the fragment is removed from the tracker, to be tried
    again; otherwise the configuration and the tracker are left as they
    are. *)
Theorem _loadFragment_appending (s : SC) (frag : FragRef) :
  Fragment.backtracked (frags s !!! frag) = false ->
  tracker_getState (fragmentTracker s) (frags s !!! frag) = APPENDING ->
  _loadFragment frag s =
    Done tt
      (if Qle_bool (Fragment.duration (frags s !!! frag))
                   (Config.maxMaxBufferLength (config s))
       then set_fragmentTracker
              (tracker_removeFragment (fragmentTracker s) (frags s !!! frag))
              (set_config
                 (Config.set_maxMaxBufferLength
                    (Config.maxMaxBufferLength (config s) / 2)%Q (config s))
                 (marked_for_load frag s))
       else marked_for_load frag s).
Proof.
  intros Hbt Hst.
  unfold _loadFragment, _loadFragment_dispatch, _reduceMaxBufferLength, Qgeb,
    marked_for_load. run.
  destruct (SN_isFinite (Fragment.sn (frags s !!! frag)) && negb (bitrateTest s));
    cbn; rewrite Hbt, Hst; cbn;
    destruct (Qle_bool _ _); reflexivity.
Qed.

End LoadMore.

Section TransmuxMore.
Context `{B : BaseController}.

Arguments tick : simpl never.
Arguments _bufferInitSegment : simpl never.
Arguments _updateTiming : simpl never.
Arguments _hasDroppedFrames : simpl never.
Arguments _bufferFragmentData : simpl never.
Arguments level_object : simpl never.
Arguments _handleTransmuxComplete_init : simpl never.

Lemma filter_no_data (l : list Event.t) :
  forallb (fun e => negb (data_append e)) l = true ->
  List.filter data_append l = [].
Proof.
  induction l as [|e l IH]; [reflexivity|]. cbn.
  intros H. apply andb_prop in H as [He Hl].
  apply negb_true_iff in He. rewrite He. exact (IH Hl).
Qed.

(** A tick while parsing is the two closing checks. *)
Lemma tick_parsing (s : SC) :
  state s = PARSING ->
  exists s', tick s = Done tt s' /\ playback_step s s' /\ state s' = PARSING.
Proof.
  intros Hst. destruct (doTick_passive s) as (s' & Hrun & Hp);
    [rewrite Hst; exact I|].
  exists s'. split; [exact Hrun|]. split; [exact Hp|].
  destruct Hp as [Heq _]. rewrite Heq. exact Hst.
Qed.

(** The state after [_bufferInitSegment] in PARSING. *)
Lemma _bufferInitSegment_state (lvl : nat) (tracks : list (string * option nat))
    (s : SC) :
  state s = PARSING ->
  state (final (_bufferInitSegment lvl tracks s)) = PARSING.
Proof.
  intros Hst. unfold _bufferInitSegment.
  unfold bind at 1. unfold gets at 1. rewrite Hst. cbn [State_eqb negb].
  unfold bind at 1. unfold gets at 1.
  unfold bind at 1. unfold trigger at 1, modify at 1.
  set (tracks' := if altAudio s then _ else tracks).
  set (s1 := set_log (log s ++ [Event.BUFFER_CODECS tracks']) s).
  destruct (init_appends_frame tracks' s1) as (s2 & Hrun & Heq & _).
  unfold bind at 1. rewrite Hrun.
  assert (Hst2 : state s2 = PARSING) by (rewrite Heq; exact Hst).
  destruct (tick_parsing s2 Hst2) as (s3 & Htick & _ & Hst3).
  rewrite Htick. exact Hst3.
Qed.

(** [_bufferFragmentData] in PARSING: what it hands to the buffer sink. *)
Lemma _bufferFragmentData_appends (data : option Remuxed.t) (s : SC) :
  state s = PARSING ->
  exists s' sent,
    _bufferFragmentData data s = Done tt s'
    /\ state s' = PARSING
    /\ log s' = log s ++ sent
    /\ List.filter data_append sent = payload_appends data.
Proof.
  intros Hst. unfold _bufferFragmentData.
  unfold bind at 1. unfold gets at 1.
  destruct data as [d|].
  2:{ exists s, []. split; [reflexivity|]. split; [exact Hst|].
      split; [symmetry; apply app_nil_r|reflexivity]. }
  rewrite Hst. cbn [State_eqb negb].
  assert (Hchunk : forall (buffer : option nat) (s0 : SC),
    state s0 = PARSING ->
    exists s1,
      bind (gets state) (fun st' =>
        match buffer with
        | Some n =>
            when (negb (Nat.eqb n 0) && State_eqb st' PARSING)
              (bind (assign set_appended true) (fun _ =>
               bind (assign set_pendingBuffering true) (fun _ =>
               trigger (Event.BUFFER_APPENDING (Remuxed.type d) n "main" "data"))))
        | None => ret tt
        end) s0 = Done tt s1
      /\ state s1 = PARSING
      /\ log s1 = log s0 ++
           match buffer with
           | Some n =>
               if Nat.eqb n 0 then []
               else [Event.BUFFER_APPENDING (Remuxed.type d) n "main" "data"]
           | None => []
           end).
  { intros buffer s0 H0. unfold bind at 1. unfold gets at 1. rewrite H0.
    destruct buffer as [n|];
      [|exists s0; split; [reflexivity|]; split; [exact H0|];
        symmetry; apply app_nil_r].
    destruct (Nat.eqb n 0); cbn.
    - exists s0. split; [reflexivity|]. split; [exact H0|].
      symmetry; apply app_nil_r.
    - eexists. split; [reflexivity|]. split; [exact H0|reflexivity]. }
  cbn [for_each].
  destruct (Hchunk (Remuxed.data1 d) s Hst) as (s1 & H1 & Hst1 & Hl1).
  destruct (Hchunk (Remuxed.data2 d) s1 Hst1) as (s2 & H2 & Hst2 & Hl2).
  destruct (tick_parsing s2 Hst2) as (s3 & Htick & [Heq (l & Hl & Hp)] & Hst3).
  exists s3. eexists.
  split; [unfold bind in *; rewrite H1, H2; exact Htick|].
  split; [exact Hst3|].
  split; [rewrite Hl, Hl2, Hl1, <- !app_assoc; reflexivity|].
  rewrite !List.filter_app.
  rewrite (filter_no_data l (playback_event_not_data l Hp)), app_nil_r.
  unfold payload_appends. cbn [flat_map]. rewrite app_nil_r.
  f_equal.
  - destruct (Remuxed.data1 d) as [n|]; [|reflexivity].
    destruct (Nat.eqb n 0); reflexivity.
  - destruct (Remuxed.data2 d) as [n|]; [|reflexivity].
    destruct (Nat.eqb n 0); reflexivity.
Qed.

(** The init segment of a transmux result, handled in PARSING. *)
Lemma _handleTransmuxComplete_init_frame (frag : FragRef) (lvl : nat)
    (initSegment : option InitSegment.t) (s : SC) :
  state s = PARSING ->
  exists s',
    _handleTransmuxComplete_init frag lvl initSegment s = Done tt s'
    /\ parse_step lvl s s' /\ state s' = PARSING.
Proof.
  intros Hst. unfold _handleTransmuxComplete_init.
  destruct initSegment as [init|];
    [|exists s; split; [reflexivity|]; split; [apply parse_step_refl|exact Hst]].
  assert (Hpts : forall s0, parse_step lvl s s0 -> state s0 = PARSING ->
            exists s4,
              match InitSegment.initPTS init with
              | Some initPTS => trigger (Event.INIT_PTS_FOUND frag initPTS)
              | None => ret tt
              end s0 = Done tt s4 /\ parse_step lvl s s4 /\ state s4 = PARSING).
  { intros s0 P0 H0. destruct (InitSegment.initPTS init) as [p|];
      [|exists s0; auto].
    eexists. split; [reflexivity|]. split; [|exact H0].
    apply (parse_step_trans lvl s s0 _ P0). repeat split.
    eexists. split; reflexivity. }
  unfold bind at 1.
  destruct (InitSegment.tracks init) as [tracks|];
    [|apply Hpts; [apply parse_step_refl|exact Hst]].
  destruct (_bufferInitSegment_frame lvl tracks s Hst) as (s4 & H4 & P4).
  pose proof (_bufferInitSegment_state lvl tracks s Hst) as Hst4.
  rewrite H4 in Hst4. cbn [final] in Hst4.
  unfold bind at 1. rewrite H4. unfold trigger at 1, modify at 1.
  apply Hpts; [|exact Hst4].
  apply (parse_step_trans lvl s s4 _ P4). repeat split.
  eexists. split; reflexivity.
Qed.

(** [_updateTiming] keeps the level list as long as it was. *)
Lemma _updateTiming_levels (frag : FragRef) (lvl : nat) (data : option Remuxed.t)
    (s : SC) (ls : list Level.t) (lo : Level.t) :
  levels s = Some ls -> ls !! lvl = Some lo ->
  exists ls1 lo1,
    levels (final (_updateTiming frag lvl data s)) = Some ls1
    /\ ls1 !! lvl = Some lo1.
Proof.
  intros Hls Hlo. destruct data as [d|]; [|exists ls, lo; auto].
  unfold _updateTiming, level_object. run.
  destruct (Remuxed.hasAudio d), (Remuxed.hasVideo d); cbn;
    rewrite Hls; cbn; rewrite Hlo; cbn; rewrite Hls; cbn;
    (eexists; eexists; split; [reflexivity|];
     apply list_lookup_insert_eq; apply lookup_lt_Some in Hlo; exact Hlo).
Qed.

(** X26.  A transmux completion that still matches the current load and
    does not backtrack (no video track, or no frame dropped, or the
    fragment is backtracked already or is the first of its level) hands
    the payload to the buffer sink in this order: the chunks of the
    video track, then those of the audio track, each chunk once and only
    if it is not empty; the audio track is left out when an alternate
    audio track is in use.  The handler returns in PARSING. *)
Theorem _handleTransmuxComplete_appends (s : SC) (r : TransmuxResult.t)
    (frag : FragRef) (lvl : nat) (ls : list Level.t) (lo : Level.t) :
  getCurrentContext s (TransmuxResult.id_level r) (TransmuxResult.id_sn r)
    = Some (frag, lvl) ->
  levels s = Some ls -> ls !! lvl = Some lo ->
  match TransmuxResult.video r with
  | Some v =>
      exists d,
        Level.details lo = Some d
        /\ (Remuxed.dropped v = 0
            \/ Fragment.backtracked (frags s !!! frag) = true
            \/ Fragment.sn (frags s !!! frag) = SnNumber (LevelDetails.startSN d))
  | None => True
  end ->
  exists s' sent,
    _handleTransmuxComplete r s = Done tt s'
    /\ state s' = PARSING
    /\ log s' = log s ++ sent
    /\ List.filter data_append sent =
         payload_appends (TransmuxResult.video r)
         ++ payload_appends (if altAudio s then None else TransmuxResult.audio r).
Proof.
  intros Hctx Hls Hlo Hvideo.
  unfold _handleTransmuxComplete.
  unfold bind at 1. unfold gets at 1. unfold id. rewrite Hctx.
  unfold bind at 1. unfold gets at 1.
  set (audio := if altAudio s then None else TransmuxResult.audio r).
  (* timing of the audio track, then of the video track *)
  destruct (_updateTiming_frame frag lvl audio s ls lo Hls Hlo)
    as (s1 & H1 & P1 & _).
  unfold bind at 1. rewrite H1.
  pose proof (_updateTiming_levels frag lvl audio s ls lo Hls Hlo) as Hlv1.
  rewrite H1 in Hlv1. cbn [final] in Hlv1.
  destruct Hlv1 as (ls1 & lo1 & Hls1 & Hlo1).
  destruct (_updateTiming_frame frag lvl (TransmuxResult.video r) s1 ls1 lo1 Hls1 Hlo1)
    as (s2 & H2 & P2 & _).
  unfold bind at 1. rewrite H2.
  pose proof (parse_step_trans lvl s s1 s2 P1 P2) as P12.
  unfold bind at 1. unfold assign at 1, modify at 1.
  unfold bind at 1. unfold assign at 1, modify at 1.
  unfold bind at 1. unfold assign at 1, modify at 1.
  set (s3 := set_appended false (set_pendingBuffering true (set_state PARSING s2))).
  assert (P3 : parse_step lvl s s3).
  { apply (parse_step_trans lvl s s2 s3 P12). repeat split.
    exists []. split; [symmetry; apply app_nil_r|reflexivity]. }
  destruct (_handleTransmuxComplete_init_frame frag lvl
              (TransmuxResult.initSegment r) s3 eq_refl)
    as (s4 & H4 & P34 & Hst4).
  unfold bind at 1. rewrite H4.
  pose proof (parse_step_trans lvl s s3 s4 P3 P34) as P4.
  destruct P4 as (F4 & _ & Hsn4 & sent4 & Hlog4 & Hsent4).
  (* the video track *)
  assert (Hv : exists s6 sent6,
    match TransmuxResult.video r with
    | Some v =>
        bind (level_object lvl) (fun lo0 =>
        bind (unwrap (Level.details lo0)) (fun details =>
        bind (_hasDroppedFrames frag (Remuxed.dropped v)
                (LevelDetails.startSN details)) (fun hasDropped =>
          if hasDropped then bind (_backtrack frag (Remuxed.startPTS v))
                               (fun _ => ret true)
          else bind (_bufferFragmentData (Some v)) (fun _ => ret false))))
    | None => ret false
    end s4 = Done false s6
    /\ state s6 = PARSING
    /\ log s6 = log s4 ++ sent6
    /\ List.filter data_append sent6 = payload_appends (TransmuxResult.video r)).
  { destruct (TransmuxResult.video r) as [v|].
    2:{ exists s4, []. split; [reflexivity|]. split; [exact Hst4|].
        split; [symmetry; apply app_nil_r|reflexivity]. }
    destruct Hvideo as (d & Hd & Hno).
    assert (Hstart : level_startSN s4 lvl = Some (LevelDetails.startSN d)).
    { rewrite Hsn4. unfold level_startSN. rewrite Hls, Hlo, Hd. reflexivity. }
    destruct (level_startSN_Some s4 lvl _ Hstart)
      as (ls4 & lo4 & d4 & Hls4 & Hlo4 & Hd4 & Hstart4).
    unfold bind at 1. rewrite (level_object_run s4 lvl ls4 lo4 Hls4 Hlo4).
    unfold bind at 1. rewrite Hd4. unfold unwrap at 1, ret at 1.
    rewrite Hstart4.
    destruct (_hasDroppedFrames_run s4 frag (Remuxed.dropped v)
                (LevelDetails.startSN d)) as (store & Hrun & _).
    assert (Hfalse : truthyZ (Remuxed.dropped v)
                     && negb (Fragment.backtracked (frags s4 !!! frag))
                     && negb (SN_eqb (Fragment.sn (frags s4 !!! frag))
                                (SnNumber (LevelDetails.startSN d))) = false).
    { pose proof (f_equal Fragment.backtracked (F4 frag)) as Hb.
      pose proof (f_equal Fragment.sn (F4 frag)) as Hs.
      cbn in Hb, Hs. rewrite Hb, Hs.
      destruct Hno as [-> | [-> | ->]].
      - reflexivity.
      - cbn. rewrite andb_false_r. reflexivity.
      - cbn. rewrite Z.eqb_refl. apply andb_false_r. }
    rewrite Hfalse in Hrun.
    unfold bind at 1. rewrite Hrun.
    destruct (_bufferFragmentData_appends (Some v) (set_frags store s4) Hst4)
      as (s6 & sent6 & H6 & Hst6 & Hl6 & Hf6).
    unfold bind at 1. rewrite H6.
    exists s6, sent6. split; [reflexivity|]. split; [exact Hst6|].
    split; [exact Hl6|exact Hf6]. }
  destruct Hv as (s6 & sent6 & H6 & Hst6 & Hl6 & Hf6).
  unfold bind at 1. rewrite H6.
  (* the audio track, then the metadata *)
  destruct (_bufferFragmentData_appends audio s6 Hst6)
    as (s7 & sent7 & H7 & Hst7 & Hl7 & Hf7).
  unfold bind at 1. rewrite H7.
  unfold bind, when, trigger, modify, ret.
  destruct (TransmuxResult.id3 r), (TransmuxResult.text r); cbn;
    (eexists; eexists; split; [reflexivity|]; cbn; split; [exact Hst7|];
     split; [rewrite Hl7, Hl6, Hlog4, <- !app_assoc; reflexivity|];
     rewrite !List.filter_app, (filter_no_data sent4 Hsent4), Hf6, Hf7;
     cbn; rewrite ?app_nil_r; reflexivity).
Qed.

End TransmuxMore.

Section HandlersMore.
Context `{L : Lifecycle}.

(** X27.  The two handlers that resume the selection.  KEY_LOADED is
    ignored unless the controller waits for a key; when it does, the
    controller goes back to IDLE and ticks at once, so that after
    [_loadKey] has asked for the key of a fragment the answer resumes
    the selection with [fragCurrent] as it was (the fragment is chosen
    again by that tick, not remembered).  FRAG_LOAD_EMERGENCY_ABORTED
    goes back to IDLE from any state and ticks at once; before the
    media's metadata is loaded it also withdraws the request of the
    start fragment and puts [nextLoadPosition] back to [startPosition],
    and it leaves [fragCurrent] in place. *)
Theorem resume_handlers (s : SC) (frag : FragRef) :
  (state s <> KEY_LOADING -> onKeyLoaded s = Done tt s)
  /\ (state s = KEY_LOADING -> onKeyLoaded s = tick (set_state IDLE s))
  /\ bind (_loadKey frag) (fun _ => onKeyLoaded) s =
       tick (set_state IDLE (set_log (log s ++ [Event.KEY_LOADING frag]) s))
  /\ exists s1,
       onFragLoadEmergencyAborted s = tick s1
       /\ state s1 = IDLE
       /\ fragCurrent s1 = fragCurrent s
       /\ log s1 = log s
       /\ startFragRequested s1 = (loadedmetadata s && startFragRequested s)
       /\ nextLoadPosition s1 =
            (if loadedmetadata s then nextLoadPosition s else startPosition s).
Proof.
  split; [|split; [|split]].
  - intros H. unfold onKeyLoaded. run.
    destruct (state s); try contradiction; reflexivity.
  - intros H. unfold onKeyLoaded. run. rewrite H. reflexivity.
  - unfold onKeyLoaded, _loadKey. run. destruct s; reflexivity.
  - unfold onFragLoadEmergencyAborted.
    unfold bind, assign, modify, gets, when, ret.
    change (loadedmetadata (set_state IDLE s)) with (loadedmetadata s).
    destruct (loadedmetadata s);
      (eexists; split; [reflexivity|]; cbn; auto 10).
Qed.

Lemma immediateLevelSwitch_flushes (s : SC) :
  exists s1,
    immediateLevelSwitch s = Done tt s1
    /\ state s1 = BUFFER_FLUSHING
    /\ fragCurrent s1 = None
    /\ immediateSwitch s1 = true
    /\ frags s1 = frags s.
Proof.
  unfold immediateLevelSwitch, flushMainBuffer. run.
  destruct (immediateSwitch s) eqn:Hsw; cbn;
    destruct (media s) as [m|]; cbn;
    destruct (fragCurrent s) as [f|]; cbn;
    try destruct (Fragment.hasLoader (frags s !!! f)); cbn;
    (eexists; split; [reflexivity|]; cbn; rewrite ?Hsw; auto).
Qed.

Lemma onBufferFlushed_run (s : SC) :
  exists s',
    onBufferFlushed s = Done tt s'
    /\ state s' = IDLE
    /\ fragPrevious s' = None
    /\ s' = set_fragmentTracker (fragmentTracker s')
              (set_fragPrevious None (set_state IDLE s)).
Proof.
  unfold onBufferFlushed. run.
  destruct (mediaBuffer_or_media s); cbn;
    (eexists; split; [reflexivity|]; cbn; auto).
Qed.

(** X28.  An immediate level switch followed by the BUFFER_FLUSHED that
    answers its flush leaves the controller in IDLE with neither a
    current nor a previous fragment, so that the next selection starts
    from the buffer alone; the switch itself is still in progress
    ([immediateSwitch]) until the buffer check ends it.  BUFFER_FLUSHED
    by itself writes the state, [fragPrevious] and the tracker, and
    nothing else. *)
Theorem immediateLevelSwitch_then_flushed (s : SC) :
  exists s1 s2,
    immediateLevelSwitch s = Done tt s1
    /\ state s1 = BUFFER_FLUSHING
    /\ onBufferFlushed s1 = Done tt s2
    /\ state s2 = IDLE
    /\ fragCurrent s2 = None
    /\ fragPrevious s2 = None
    /\ immediateSwitch s2 = true
    /\ log s2 = log s1
    /\ frags s2 = frags s
    /\ s2 = set_fragmentTracker (fragmentTracker s2)
              (set_fragPrevious None (set_state IDLE s1)).
Proof.
  destruct (immediateLevelSwitch_flushes s) as (s1 & Hrun & Hst & Hfc & Hsw & Hfr).
  destruct (onBufferFlushed_run s1) as (s2 & Hrun2 & Hst2 & Hfp2 & Heq).
  exists s1, s2.
  split; [exact Hrun|]. split; [exact Hst|]. split; [exact Hrun2|].
  split; [exact Hst2|].
  rewrite Heq. cbn. auto 10.
Qed.

End HandlersMore.

Section NextLevelSwitch.
Context `{C : Collaborators}.

Lemma Qgtb_lt (a b : Q) : Qgtb a b = true -> (b < a)%Q.
Proof.
  unfold Qgtb, Qltb. intros H. apply negb_true_iff in H.
  destruct (Qlt_le_dec b a) as [Hlt|Hle]; [exact Hlt|].
  apply Qle_bool_iff in Hle. congruence.
Qed.

Lemma switch_step_refl (s : SC) : switch_step s s.
Proof.
  split; [destruct s; reflexivity|]. split; [|left; reflexivity].
  exists []. split; [symmetry; apply app_nil_r|].
  split; [reflexivity|]. split; [reflexivity|]. congruence.
Qed.

Lemma switch_step_trans (s1 s2 s3 : SC) :
  switch_step s1 s2 -> switch_step s2 s3 -> switch_step s1 s3.
Proof.
  intros (F1 & (l1 & Hl1 & Hp1 & Hn1 & Hs1) & Hc1)
         (F2 & (l2 & Hl2 & Hp2 & Hn2 & Hs2) & Hc2).
  split; [|split].
  - rewrite F2 at 1. rewrite F1 at 1. reflexivity.
  - exists (l1 ++ l2). split; [rewrite Hl2, Hl1, app_assoc; reflexivity|].
    split; [rewrite forallb_app, Hp1, Hp2; reflexivity|]. split.
    + intros H. apply app_eq_nil in H. destruct H as [H1 H2].
      rewrite (Hn2 H2). exact (Hn1 H1).
    + intros H. destruct l2 as [|e l2].
      * rewrite (Hn2 eq_refl). apply Hs1. rewrite app_nil_r in H. exact H.
      * apply Hs2. discriminate.
  - destruct Hc2 as [H2|H2]; [|right; exact H2].
    rewrite H2. exact Hc1.
Qed.

Lemma steps_bind {A B'} (m : Method SC A) (k : A -> Method SC B') :
  steps m -> (forall a, steps (k a)) -> steps (bind m k).
Proof.
  intros Hm Hk s. unfold bind. specialize (Hm s).
  destruct (m s) as [a s'|s']; cbn in *.
  - exact (switch_step_trans _ _ _ Hm (Hk a s')).
  - exact Hm.
Qed.

Lemma steps_ret {A} (a : A) : steps (ret a).
Proof. intros s. apply switch_step_refl. Qed.

Lemma steps_gets {A} (f : SC -> A) : steps (gets f).
Proof. intros s. apply switch_step_refl. Qed.

Lemma steps_unwrap {A} (o : option A) : steps (unwrap o).
Proof. intros s. destruct o; apply switch_step_refl. Qed.

Lemma steps_flush (startOffset : Q) (endOffset : ExtQ) :
  (forall t, switch_event (Event.BUFFER_FLUSHING startOffset endOffset t) = true) ->
  steps (flushMainBuffer startOffset endOffset).
Proof.
  intros Hok s. unfold flushMainBuffer. run.
  split; [destruct s; reflexivity|]. split; [|left; reflexivity].
  eexists. split; [reflexivity|]. cbn [forallb]. rewrite Hok.
  split; [reflexivity|]. split; [discriminate|reflexivity].
Qed.

Lemma steps_getBufferedFrag (p : Q) : steps (getBufferedFrag p).
Proof. apply steps_gets. Qed.

Lemma steps_deref (r : FragRef) : steps (deref r).
Proof. apply steps_gets. Qed.

Lemma nextLevelSwitch_steps (fragLastKbps : Q) : steps (nextLevelSwitch fragLastKbps).
Proof.
  unfold nextLevelSwitch.
  apply steps_bind; [apply steps_gets|intros lv].
  apply steps_bind; [apply steps_gets|intros md].
  destruct md as [m|]; [|apply steps_ret].
  destruct (truthyZ (Media.readyState m)); [|apply steps_ret].
  apply steps_bind; [apply steps_getBufferedFrag|intros fragPlayingCurrent].
  apply steps_bind.
  { destruct fragPlayingCurrent as [fp|]; [|apply steps_ret].
    apply steps_bind; [apply steps_deref|intros fo].
    unfold when. destruct (Qgtb _ 1) eqn:E; [|apply steps_ret].
    apply steps_flush. intros t. cbn.
    apply Qgtb_lt in E. unfold Qltb. apply negb_true_iff.
    destruct (Qle_bool _ 0) eqn:E0; [|reflexivity].
    apply Qle_bool_iff in E0. exfalso.
    apply (Qlt_irrefl 1). eapply Qlt_le_trans; [exact E|].
    apply (Qplus_le_l _ _ (-1)). rewrite Qplus_opp_r. exact E0. }
  intros _.
  apply steps_bind.
  { unfold fetchdelay. destruct lv as [ls|]; [|apply steps_ret].
    destruct (negb (Media.paused m)); [|apply steps_ret].
    apply steps_bind; [apply steps_gets|intros nextLevelId].
    apply steps_bind; [apply steps_gets|intros [fc|]]; [|apply steps_ret].
    destruct (truthyQ fragLastKbps); [|apply steps_ret].
    apply steps_bind; [apply steps_deref|intros fo].
    apply steps_bind; [apply steps_unwrap|intros nl]. apply steps_ret. }
  intros delay.
  apply steps_bind; [apply steps_getBufferedFrag|intros [reached|]];
    [|apply steps_ret].
  apply steps_bind.
  { unfold followingBufferedFrag.
    apply steps_bind; [apply steps_deref|intros fo].
    apply steps_getBufferedFrag. }
  intros [nb|]; [|apply steps_ret].
  apply steps_bind; [apply steps_gets|intros cur].
  apply steps_bind; [apply steps_gets|intros store].
  intros s. unfold flushMainBuffer. run.
  destruct cur as [f|]; cbn; [destruct (Fragment.hasLoader (store !!! f)); cbn|];
    (split; [destruct s; reflexivity|]; split; [|right; reflexivity];
     eexists; split; [rewrite <- ?app_assoc; reflexivity|]; cbn;
     split; [reflexivity|]; split; [discriminate|reflexivity]).
Qed.

(** X29.  [nextLevelSwitch] writes nothing but the state, [fragCurrent]
    and what it sends.  It sends only loader aborts and buffer flushes,
    and a flush is either [0, end] with [end > 0] (up to one second
    before the fragment being played) or open ended; when it sends
    anything the state ends as BUFFER_FLUSHING, and when it sends
    nothing the controller is unchanged.  [fragCurrent] is kept or
    cleared.  Without media, or with media that is not ready, nothing
    happens at all. *)
Theorem nextLevelSwitch_effects (fragLastKbps : Q) (s : SC) :
  (final (nextLevelSwitch fragLastKbps s) =
     set_log (log (final (nextLevelSwitch fragLastKbps s)))
       (set_fragCurrent (fragCurrent (final (nextLevelSwitch fragLastKbps s)))
          (set_state (state (final (nextLevelSwitch fragLastKbps s))) s)))
  /\ (exists sent,
        log (final (nextLevelSwitch fragLastKbps s)) = log s ++ sent
        /\ forallb (fun e =>
                      match e with
                      | Event.BUFFER_FLUSHING startOffset (Finite endOffset) _ =>
                          Qeq_bool startOffset 0 && Qltb 0 endOffset
                      | Event.BUFFER_FLUSHING _ PosInfinity _ => true
                      | Event.loader_abort _ => true
                      | _ => false
                      end) sent = true
        /\ (sent = [] -> final (nextLevelSwitch fragLastKbps s) = s)
        /\ (sent <> [] ->
            state (final (nextLevelSwitch fragLastKbps s)) = BUFFER_FLUSHING))
  /\ (fragCurrent (final (nextLevelSwitch fragLastKbps s)) = fragCurrent s
      \/ fragCurrent (final (nextLevelSwitch fragLastKbps s)) = None)
  /\ (match media s with
      | Some m => Media.readyState m = 0
      | None => True
      end -> nextLevelSwitch fragLastKbps s = Done tt s).
Proof.
  destruct (nextLevelSwitch_steps fragLastKbps s) as (F & Hl & Hc).
  split; [exact F|]. split; [exact Hl|]. split; [exact Hc|].
  unfold nextLevelSwitch. run.
  destruct (media s) as [m|]; [|reflexivity].
  intros ->. reflexivity.
Qed.

End NextLevelSwitch.

Section Detaching.
Context `{L : Lifecycle}.

(** From [s] to [s'] only fragments changed, and each is as it was or
    has lost its backtracked flag; those of [cleared] have lost it. *)
Lemma for_each_clears (refs : list FragRef) (s : SC) :
  exists s',
    for_each refs (fun fragment =>
      update_frag fragment (Fragment.set_backtracked false)) s = Done tt s'
    /\ s' = set_frags (frags s') s
    /\ (forall r, frags s' !!! r = frags s !!! r
                  \/ frags s' !!! r = Fragment.set_backtracked false (frags s !!! r))
    /\ (forall r, In r refs ->
          frags s' !!! r = Fragment.set_backtracked false (frags s !!! r)).
Proof.
  revert s. induction refs as [|x refs IH]; intros s.
  - exists s. split; [reflexivity|]. split; [destruct s; reflexivity|].
    split; [intros r; left; reflexivity|]. intros r [].
  - cbn [for_each]. unfold bind at 1. unfold update_frag at 1, modify at 1.
    destruct (IH (set_frags (<[x := Fragment.set_backtracked false (frags s !!! x)]>
                               (frags s)) s))
      as (s' & Hrun & Hframe & Hall & Hin).
    exists s'. split; [exact Hrun|]. split; [rewrite Hframe; reflexivity|].
    cbn [frags set_frags] in Hall, Hin.
    assert (Hx : forall r,
      <[x := Fragment.set_backtracked false (frags s !!! x)]> (frags s) !!! r
      = (if Nat.eqb r x then Fragment.set_backtracked false (frags s !!! r)
         else frags s !!! r)).
    { intros r. destruct (Nat.eqb r x) eqn:E.
      - apply Nat.eqb_eq in E. subst r. apply lookup_total_insert_eq.
      - apply Nat.eqb_neq in E. apply lookup_total_insert_ne. congruence. }
    split.
    + intros r. destruct (Hall r) as [H|H]; rewrite H, Hx;
        destruct (Nat.eqb r x); auto.
    + intros r [<- | Hr].
      * destruct (Hall x) as [H|H]; rewrite H, Hx, Nat.eqb_refl; reflexivity.
      * rewrite (Hin r Hr), Hx. destruct (Nat.eqb r x); reflexivity.
Qed.

Lemma for_each_levels_clear (ls : list Level.t) (s : SC) :
  exists s',
    for_each ls (fun level =>
      match Level.details level with
      | Some details =>
          for_each (LevelDetails.fragments details) (fun fragment =>
            update_frag fragment (Fragment.set_backtracked false))
      | None => ret tt
      end) s = Done tt s'
    /\ s' = set_frags (frags s') s
    /\ (forall r, frags s' !!! r = frags s !!! r
                  \/ frags s' !!! r = Fragment.set_backtracked false (frags s !!! r))
    /\ (forall level details r,
          In level ls -> Level.details level = Some details ->
          In r (LevelDetails.fragments details) ->
          frags s' !!! r = Fragment.set_backtracked false (frags s !!! r)).
Proof.
  revert s. induction ls as [|lvl ls IH]; intros s.
  - exists s. split; [reflexivity|]. split; [destruct s; reflexivity|].
    split; [intros r; left; reflexivity|]. intros level details r [].
  - cbn [for_each]. unfold bind at 1.
    assert (H1 : exists s1,
      match Level.details lvl with
      | Some details =>
          for_each (LevelDetails.fragments details) (fun fragment =>
            update_frag fragment (Fragment.set_backtracked false))
      | None => ret tt
      end s = Done tt s1
      /\ s1 = set_frags (frags s1) s
      /\ (forall r, frags s1 !!! r = frags s !!! r
                    \/ frags s1 !!! r = Fragment.set_backtracked false (frags s !!! r))
      /\ (forall details r, Level.details lvl = Some details ->
            In r (LevelDetails.fragments details) ->
            frags s1 !!! r = Fragment.set_backtracked false (frags s !!! r))).
    { destruct (Level.details lvl) as [d|].
      - destruct (for_each_clears (LevelDetails.fragments d) s)
          as (s1 & Hrun & Hframe & Hall & Hin).
        exists s1. split; [exact Hrun|]. split; [exact Hframe|].
        split; [exact Hall|]. intros details r E. injection E as <-. apply Hin.
      - exists s. split; [reflexivity|]. split; [destruct s; reflexivity|].
        split; [intros r; left; reflexivity|]. intros details r E. discriminate. }
    destruct H1 as (s1 & Hrun1 & Hframe1 & Hall1 & Hin1). rewrite Hrun1.
    destruct (IH s1) as (s' & Hrun & Hframe & Hall & Hin).
    exists s'. split; [exact Hrun|].
    split; [rewrite Hframe, Hframe1; reflexivity|].
    assert (Hidem : forall f, Fragment.set_backtracked false
                                (Fragment.set_backtracked false f)
                              = Fragment.set_backtracked false f)
      by (intros f; reflexivity).
    split.
    + intros r. destruct (Hall r) as [H|H], (Hall1 r) as [H'|H'];
        rewrite H, H', ?Hidem; auto.
    + intros level details r [<- | Hl] Hd Hr.
      * destruct (Hall r) as [H|H]; rewrite H, (Hin1 details r Hd Hr), ?Hidem;
          reflexivity.
      * rewrite (Hin level details r Hl Hd Hr).
        destruct (Hall1 r) as [H|H]; rewrite H, ?Hidem; reflexivity.
Qed.

(** X30.  MEDIA_DETACHING forgets the media and every backtrack.  When
    [stopLoad], which ends the handler, is entered: [media] and
    [mediaBuffer] are null and [loadedmetadata] is false; every fragment
    listed in the details of a level has its backtracked flag cleared,
    and no fragment has changed in anything else; [startPosition] and
    [lastCurrentTime] are 0 if the media had ended and are kept
    otherwise; the state, the levels, [fragCurrent] and the log are as
    they were. *)
Theorem onMediaDetaching_resets (ended : bool) (s : SC) :
  exists s1,
    onMediaDetaching ended s = stopLoad s1
    /\ media s1 = None
    /\ mediaBuffer s1 = None
    /\ loadedmetadata s1 = false
    /\ (forall ls level details r,
          levels s = Some ls -> In level ls ->
          Level.details level = Some details ->
          In r (LevelDetails.fragments details) ->
          Fragment.backtracked (frags s1 !!! r) = false)
    /\ (forall r, frags s1 !!! r = frags s !!! r
                  \/ frags s1 !!! r = Fragment.set_backtracked false (frags s !!! r))
    /\ (startPosition s1, lastCurrentTime s1) =
         (if match media s with Some _ => ended | None => false end
          then (0%Q, 0%Q) else (startPosition s, lastCurrentTime s))
    /\ state s1 = state s
    /\ levels s1 = levels s
    /\ fragCurrent s1 = fragCurrent s
    /\ log s1 = log s.
Proof.
  unfold onMediaDetaching.
  unfold bind at 1. unfold gets at 1.
  unfold bind at 1. unfold gets at 1.
  unfold bind at 1.
  set (reset := match media s with Some _ => ended | None => false end).
  set (s0 := if reset then set_startPosition 0%Q (set_lastCurrentTime 0%Q s) else s).
  assert (Hwhen : when reset (bind (assign set_lastCurrentTime 0%Q)
                                (fun _ => assign set_startPosition 0%Q)) s
                  = Done tt s0).
  { subst s0. destruct reset; reflexivity. }
  rewrite Hwhen.
  assert (Hloop : exists s',
    match levels s with
    | Some ls =>
        for_each ls (fun level =>
          match Level.details level with
          | Some details =>
              for_each (LevelDetails.fragments details) (fun fragment =>
                update_frag fragment (Fragment.set_backtracked false))
          | None => ret tt
          end)
    | None => ret tt
    end s0 = Done tt s'
    /\ s' = set_frags (frags s') s0
    /\ (forall r, frags s' !!! r = frags s0 !!! r
                  \/ frags s' !!! r = Fragment.set_backtracked false (frags s0 !!! r))
    /\ (forall ls level details r,
          levels s = Some ls -> In level ls ->
          Level.details level = Some details ->
          In r (LevelDetails.fragments details) ->
          frags s' !!! r = Fragment.set_backtracked false (frags s0 !!! r))).
  { destruct (levels s) as [ls|].
    - destruct (for_each_levels_clear ls s0) as (s' & Hrun & Hframe & Hall & Hin).
      exists s'. split; [exact Hrun|]. split; [exact Hframe|].
      split; [exact Hall|]. intros ls' level details r E. injection E as <-.
      apply Hin.
    - exists s0. split; [reflexivity|]. split; [destruct s0; reflexivity|].
      split; [intros r; left; reflexivity|]. intros ls level details r E.
      discriminate. }
  destruct Hloop as (s' & Hrun & Hframe & Hall & Hin).
  unfold bind at 1. rewrite Hrun.
  unfold bind at 1. unfold assign at 1, modify at 1.
  unfold bind at 1. unfold assign at 1, modify at 1.
  unfold bind at 1. unfold assign at 1, modify at 1.
  eexists. split; [reflexivity|].
  assert (Hfr0 : frags s0 = frags s) by (subst s0; destruct reset; reflexivity).
  rewrite Hfr0 in Hall, Hin.
  cbn.
  split; [reflexivity|]. split; [reflexivity|]. split; [reflexivity|].
  split; [intros ls level details r H1 H2 H3 H4;
          rewrite (Hin ls level details r H1 H2 H3 H4); reflexivity|].
  split; [exact Hall|].
  rewrite Hframe. cbn. subst s0. destruct reset; cbn; auto.
Qed.

End Detaching.

(** ** The properties on concrete controllers *)

(** X1 on a load error while a fragment of the audio stream is current. *)
Lemma onError_not_handled_audio :
  onError Scenario.frag_load_error Sample.audio_state
    = Done Scenario.frag_load_error Sample.audio_state.
Proof.
  apply onError_not_handled. left. reflexivity.
Defined.

(** X2 on a playlist load that times out while the playlist is awaited
    and the level controller does not retry: back to IDLE. *)
Lemma onError_level_load_timeout :
  state (final (onError Sample.level_timeout Sample.waiting_state)) = IDLE.
Proof.
  rewrite (onError_level_load Sample.waiting_state Sample.level_timeout
             (or_intror eq_refl) eq_refl).
  reflexivity.
Defined.

(** X3 on scenario S4's first failure. *)
Lemma onError_retry_count_bounded_S4 :
  fragLoadError (final (onError Scenario.frag_load_error Scenario.retry_state))
    <= 3.
Proof.
  refine (proj1 (onError_retry_count_bounded Scenario.retry_state
                   Scenario.frag_load_error _)).
  vm_compute. discriminate.
Defined.

(** X4 on a tick while a fragment is being loaded. *)
Lemma doTick_outside_idle_loading :
  state (final (doTick (B := Spec.base) Scenario.retry_state)) = FRAG_LOADING
  /\ fragCurrent (final (doTick (B := Spec.base) Scenario.retry_state))
     = Some 0%nat.
Proof.
  destruct (doTick_outside_idle (B := Spec.base) Scenario.retry_state
              ltac:(discriminate))
    as (s' & Hrun & Hst & _ & Hcur & _).
  rewrite Hrun. split; [exact Hst|exact Hcur].
Defined.

(** X5 on scenario S4: the retry scheduled at 1000 + 500 is waited for,
    and taken up at 1500. *)
Lemma onError_retry_then_tick_S4 :
  state (final (doTick (B := Spec.base)
                  (final (onError Scenario.frag_load_error Scenario.retry_state))))
    = FRAG_LOADING_WAITING_RETRY
  /\ state (final (doTick (B := Spec.base)
                     (set_now 1500
                        (final (onError Scenario.frag_load_error
                                  Scenario.retry_state)))))
     = IDLE.
Proof.
  destruct (onError_retry_then_tick (B := Spec.base) Scenario.retry_state
              Scenario.frag_load_error 0%nat
              eq_refl eq_refl eq_refl eq_refl eq_refl eq_refl eq_refl
              ltac:(vm_compute; discriminate) I) as [Hwait Hdue].
  split; [exact Hwait|].
  apply Hdue. vm_compute. discriminate.
Defined.

(** X6 on a controller without levels. *)
Lemma _doTickIdle_not_ready_no_levels :
  _doTickIdle (B := Spec.base) Scenario.retry_state = Done tt Scenario.retry_state.
Proof.
  apply _doTickIdle_not_ready. right. right. exact I.
Defined.

(** X7 on a level whose playlist is not loaded yet. *)
Lemma _doTickIdle_waits_for_level_no_details :
  state (final (_doTickIdle (B := Spec.base) Sample.no_details_state))
    = WAITING_LEVEL.
Proof.
  rewrite (_doTickIdle_waits_for_level (B := Spec.base) Sample.no_details_state
             0 [Level.mk 500000 None] (Level.mk 500000 None) 0
             eq_refl ltac:(discriminate) eq_refl eq_refl eq_refl eq_refl I).
  reflexivity.
Defined.

(** X8 once the last fragment of the on-demand level is buffered. *)
Lemma _doTickIdle_stream_ended_vod :
  state (final (_doTickIdle (B := Spec.base) Sample.ended_state)) = ENDED.
Proof.
  destruct (_doTickIdle_stream_ended (B := Spec.base) Sample.ended_state
              0 [Level.mk 500000 (Some Scenario.vod_details)]
              (Level.mk 500000 (Some Scenario.vod_details))
              Scenario.vod_details 0
              eq_refl ltac:(discriminate) eq_refl eq_refl eq_refl eq_refl
              eq_refl (or_introl eq_refl) eq_refl)
    as (s' & Hrun & Hst & _).
  rewrite Hrun. exact Hst.
Defined.

(** X9 on an empty playlist. *)
Lemma _fetchPayloadOrEos_nothing_to_load_empty :
  _fetchPayloadOrEos (B := Spec.base) 0 (BufferInfo.mk 0 0 0 None)
    (LevelDetails.mk [] 0 0 false false false None 6 0) Scenario.buffered_state
    = Done tt Scenario.buffered_state.
Proof.
  apply _fetchPayloadOrEos_nothing_to_load. left. reflexivity.
Defined.

(** X10 on a level whose init segment has no data yet: it is loaded. *)
Lemma _fetchPayloadOrEos_init_segment_first_loads :
  _fetchPayloadOrEos (B := Spec.base) 0 (BufferInfo.mk 0 0 0 None)
    Sample.init_details Sample.init_state
    = _loadFragment (B := Spec.base) 3%nat Sample.init_state.
Proof.
  exact (_fetchPayloadOrEos_init_segment_first (B := Spec.base) 0
           (BufferInfo.mk 0 0 0 None) Sample.init_details Sample.init_state
           3%nat ltac:(discriminate) eq_refl eq_refl).
Defined.

(** X11 on a playlist that starts at 10 s with nothing buffered. *)
Lemma _fetchPayloadOrEos_vod_before_start_loads_first :
  _fetchPayloadOrEos (B := Spec.base) 0 (BufferInfo.mk 0 0 0 None)
    Sample.late_details Sample.late_state
    = _loadFragment (B := Spec.base) 0%nat Sample.late_state.
Proof.
  exact (_fetchPayloadOrEos_vod_before_start (B := Spec.base) 0
           (BufferInfo.mk 0 0 0 None) Sample.late_details Sample.late_state
           0%nat [1%nat] eq_refl eq_refl I eq_refl).
Defined.

(** X12 on scenario S3's level: fragment sn 5 was loaded and the buffer
    ends within it, at 3 s; the selection moves on to sn 6. *)
Lemma _findFragment_moves_on_S3 :
  returned (_findFragment 0 (Some 0%nat) 3 [0%nat; 1%nat; 2%nat] 3 18
              Scenario.vod_details Scenario.buffered_state) = Some (Some 1%nat)
  /\ Fragment.sn (frags Scenario.buffered_state !!! 1%nat)
     <> Fragment.sn (frags Scenario.buffered_state !!! 0%nat).
Proof.
  assert (Hrun : returned (_findFragment 0 (Some 0%nat) 3 [0%nat; 1%nat; 2%nat]
                             3 18 Scenario.vod_details Scenario.buffered_state)
                 = Some (Some 1%nat)) by (vm_compute; reflexivity).
  split; [exact Hrun|].
  refine (_findFragment_moves_on Scenario.buffered_state 0 3 18 3
            [0%nat; 1%nat; 2%nat] Scenario.vod_details 0%nat 0%nat 1%nat
            _ _ _ _ Hrun); try reflexivity.
  intros i x. unfold at_index.
  destruct (i <? 0) eqn:Hneg; [discriminate|]. apply Z.ltb_ge in Hneg.
  destruct (Z.to_nat i) as [|[|[|n]]] eqn:Hi; cbn; intros H;
    try discriminate; injection H as <-;
    [replace i with 0 by lia|replace i with 1 by lia|replace i with 2 by lia];
    reflexivity.
Defined.

(** X13 on scenario S3's level once sn 7, the last fragment, was loaded
    and the buffer reaches its end. *)
Lemma _findFragment_end_of_playlist_S3 :
  _findFragment 0 (Some 2%nat) 3 [0%nat; 1%nat; 2%nat] 18 18
    Scenario.vod_details Scenario.buffered_state
    = Done None Scenario.buffered_state.
Proof.
  refine (_findFragment_end_of_playlist Scenario.buffered_state 0 18 18 3
            [0%nat; 1%nat; 2%nat] Scenario.vod_details 2%nat 2%nat 7
            _ eq_refl eq_refl eq_refl eq_refl eq_refl _).
  - vm_compute. discriminate.
  - vm_compute. discriminate.
Defined.

(** X16 on scenario S2's playlist, which ends at 1048, with the buffer
    ending at 1050. *)
Lemma _ensureFragmentAtLivePoint_beyond_live_edge_S2 :
  _ensureFragmentAtLivePoint Scenario.live_details 1050 1000 1048 None
    (seq 0 8) 8 (Scenario.live_state 4)
    = Done ReturnNull (Scenario.live_state 4).
Proof.
  refine (_ensureFragmentAtLivePoint_beyond_live_edge (Scenario.live_state 4)
            Scenario.live_details 1050 1000 1048 None (seq 0 8) 8
            (Scenario.media_at 0 false 4 []) _ _ I eq_refl eq_refl eq_refl _);
    vm_compute; discriminate.
Defined.

(** X17 on the level switch of the third claim, without a previous
    fragment: of the three fragments the last is the middle one. *)
Lemma _ensureFragmentAtLivePoint_select_middle_of_three :
  returned (_ensureFragmentAtLivePoint_select Scenario.switch_details 66 118
              None [1%nat; 2%nat; 3%nat] 3 Scenario.switch_state)
    = Some (Frag 3%nat).
Proof.
  destruct (_ensureFragmentAtLivePoint_select_middle Scenario.switch_state
              Scenario.switch_details 66 118 [1%nat; 2%nat; 3%nat]
              ltac:(discriminate) eq_refl eq_refl) as (mid & Hmid & Hrun).
  injection Hmid as <-.
  change (Z.of_nat (length [1%nat; 2%nat; 3%nat])) with 3 in Hrun.
  rewrite Hrun. reflexivity.
Defined.

(** X18 on a level switch where sn 21 follows the previous fragment
    with the same continuity counter. *)
Lemma _ensureFragmentAtLivePoint_select_next_sn_21 :
  _ensureFragmentAtLivePoint_select Scenario.switch_details 66 118 (Some 0%nat)
    [1%nat; 2%nat; 3%nat] 3 Sample.next_sn_state
    = Done (Frag 2%nat) Sample.next_sn_state.
Proof.
  refine (_ensureFragmentAtLivePoint_select_next_sn Sample.next_sn_state
            Scenario.switch_details 66 118 [1%nat; 2%nat; 3%nat] 3
            0%nat 2%nat 20 eq_refl eq_refl eq_refl eq_refl _ eq_refl eq_refl).
  vm_compute. split; discriminate.
Defined.

(** X19 on a media at 3 s when the first data is buffered: it is moved
    to the start position, 0. *)
Lemma _checkBuffer_first_data_seeks :
  exists s' m',
    _checkBuffer Sample.first_data_state = Done tt s'
    /\ loadedmetadata s' = true
    /\ media s' = Some m'
    /\ (Media.currentTime m' == 0)%Q.
Proof.
  destruct (_checkBuffer_first_data Sample.first_data_state
              (Scenario.media_at 3 false 4 [(0, 6)%Q]) (0, 6)%Q []
              eq_refl ltac:(discriminate) eq_refl eq_refl)
    as (s' & m' & Hrun & Hl & Hm & Ht & _).
  exists s', m'. auto.
Defined.

(** X22 on a playing media with 40 s buffered: paused for the switch,
    playing again after it. *)
Lemma immediateLevelSwitch_round_trip_playing :
  exists s1 s2 m2,
    immediateLevelSwitch Scenario.buffered_state = Done tt s1
    /\ immediateLevelSwitchEnd s1 = Done tt s2
    /\ media s2 = Some m2
    /\ Media.paused m2 = false.
Proof.
  destruct (immediateLevelSwitch_round_trip Scenario.buffered_state
              (Scenario.media_at 0 false 4 [(0, 40)%Q]) (0, 40)%Q []
              eq_refl eq_refl eq_refl)
    as (s1 & s2 & m2 & H1 & _ & _ & _ & _ & H2 & _ & Hm & Hp & _).
  exists s1, s2, m2. auto.
Defined.

(** X24 on fragment sn 6, which the tracker does not know: it is handed
    to the playback loader. *)
Lemma _loadFragment_loads_not_loaded :
  state (final (_loadFragment (B := Spec.base) 1%nat Scenario.buffered_state))
    = FRAG_LOADING
  /\ log (final (_loadFragment (B := Spec.base) 1%nat Scenario.buffered_state))
     = [Event.FRAG_LOADING 1%nat].
Proof.
  rewrite (_loadFragment_loads (B := Spec.base) Scenario.buffered_state 1%nat
             (or_intror (or_introl eq_refl))).
  split; reflexivity.
Defined.

(** X25 on fragment sn 6 held as APPENDING: with a cap of 600 s and a
    fragment of 6 s the cap is halved and the fragment forgotten. *)
Lemma _loadFragment_appending_halves :
  (Config.maxMaxBufferLength
     (config (final (_loadFragment (B := Spec.base) 1%nat
                       Sample.appending_state))) == 300)%Q
  /\ Spec.states
       (fragmentTracker (final (_loadFragment (B := Spec.base) 1%nat
                                  Sample.appending_state))) = [].
Proof.
  rewrite (_loadFragment_appending (B := Spec.base) Sample.appending_state
             1%nat eq_refl eq_refl).
  split; reflexivity.
Defined.

(** X26 on fragment sn 6 coming back with no frame dropped: the video
    chunk is appended, then the audio chunk; the empty second video
    chunk is not. *)
Lemma _handleTransmuxComplete_appends_clean :
  exists s' sent,
    _handleTransmuxComplete (B := Spec.base) Sample.clean_result
      Scenario.parsing_state = Done tt s'
    /\ state s' = PARSING
    /\ log s' = log Scenario.parsing_state ++ sent
    /\ List.filter data_append sent =
         [Event.BUFFER_APPENDING "video" 1000 "main" "data";
          Event.BUFFER_APPENDING "audio" 500 "main" "data"].
Proof.
  refine (_handleTransmuxComplete_appends (B := Spec.base)
            Scenario.parsing_state Sample.clean_result 1%nat 0%nat
            [Level.mk 500000 (Some Scenario.vod_details)]
            (Level.mk 500000 (Some Scenario.vod_details))
            eq_refl eq_refl eq_refl _).
  exists Scenario.vod_details. split; [reflexivity|]. left. reflexivity.
Defined.
